(** * Jarvice AI: the mock-interview session engine

    A shallow embedding of [server/routes/interview.js]: the three route
    handlers ([POST /start], [POST /answer], [GET /session/:id]) and the
    helpers they call ([extractTextFromFile], [generateInterviewQuestions],
    [generateInterviewFeedback], [calculateInterviewScore]).

    Conventions of the embedding.
    - A JavaScript string is a [string] holding its UTF-8 bytes.
    - A JavaScript number is a double.  The routes compute with whole
      numbers only; such a number is the [Z] it equals, and [JS.double]
      is the rounding it goes through when it is read or computed.
      [NaN] is [None] in [option Z].
    - The [interview_sessions] table is a finite map from the primary key
      to the row, as created by [config/database.js] for PostgreSQL.  What
      PostgreSQL refuses is in [Module Pg]: an [INTEGER] outside 32 bits,
      a text that holds U+0000, a [VARCHAR(n)] that is too long.  A
      handler whose statement is refused throws, and answers 500.
    - Everything outside the process (the Gemini endpoint, the text
      extraction libraries, the clock, the memory the process has) is an
      explicit input of the function that consults it.
    - Requests are the ones that reach the handler: [authenticateToken]
      has set [req.user.id] to the id of a row of [users].  The fields
      [session_id] and [question_index] of a body are numbers or strings
      ([JS.field]); a field that is an array, which express-validator
      checks element by element, is not modelled. *)

From Stdlib Require Import String Ascii ZArith List Bool Lia.
From stdpp Require Import base option list gmap strings.
From Stdlib Require Import DecimalString DecimalPos.

Local Open Scope Z_scope.

(** ** The JavaScript built-ins the routes rely on *)

Module JS.

Definition code (c : ascii) : N := N_of_ascii c.

(** [\d] of a regular expression without the unicode flag: [0-9]. *)
Definition is_digit (c : ascii) : bool :=
  (48 <=? code c)%N && (code c <=? 57)%N.

Fixpoint take_digits (s : string) : string :=
  match s with
  | String c s' => if is_digit c then String c (take_digits s') else EmptyString
  | EmptyString => EmptyString
  end.

(** [text.match(/\d+/)?.[0]]: the leftmost, longest run of digits;
    [None] stands for [undefined] (no match). *)
Fixpoint match_digits (text : string) : option string :=
  match text with
  | EmptyString => None
  | String c s' =>
      if is_digit c then Some (String c (take_digits s')) else match_digits s'
  end.

Fixpoint digits_value (acc : Z) (s : string) : Z :=
  match s with
  | String c s' =>
      if is_digit c then digits_value (10 * acc + (Z.of_N (code c) - 48)) s'
      else acc
  | EmptyString => acc
  end.

(** [parseInt(s)] in radix 10 for a string that starts with its digits
    (no sign, blank or [0x] prefix: the only arguments it gets here are
    runs of digits); [None] is [NaN].  The value is exact; JavaScript
    rounds it to a double above [2^53], which a later clamp to [1,100]
    does not see. *)
Definition parseInt (s : string) : option Z :=
  match s with
  | String c _ => if is_digit c then Some (digits_value 0 s) else None
  | EmptyString => None
  end.

(** *** Numbers and fields

    [double z] is the double nearest to the integer [z], a tie going to
    the even significand: what [JSON.parse], [Number] and the arithmetic
    operators make of [z].  Below [2^53] in absolute value it is [z].
    From [2^1024] on the result stands for [Infinity]. *)
Definition double (z : Z) : Z :=
  let a := Z.abs z in
  if a <? 2 ^ 53 then z
  else
    let e := Z.log2 a - 52 in
    let q := a / 2 ^ e in
    let r := a mod 2 ^ e in
    let half := 2 ^ (e - 1) in
    let q' := if r <? half then q
              else if half <? r then q + 1
              else if Z.even q then q else q + 1 in
    Z.sgn z * (q' * 2 ^ e).

Definition finite (d : Z) : bool := Z.abs d <? 2 ^ 1024.

(** A field of a JSON body, as the request writes it. *)
Inductive field : Type :=
| Int (literal : Z)     (* a number whose value is the integer [literal] *)
| Text (s : string)     (* a string *)
| Other.                (* a number with a fraction, true, false, null, an object, no field *)

(** An optional sign and digits, with its value: the strings that
    [isInt] accepts, and what [Number] makes of them before rounding. *)
Definition integer_text (s : string) : option Z :=
  let '(negative, digits) :=
    match s with
    | String c r =>
        if (code c =? 45)%N then (true, r)
        else if (code c =? 43)%N then (false, r)
        else (false, s)
    | EmptyString => (false, s)
    end in
  match digits with
  | EmptyString => None
  | String _ _ =>
      if forallb is_digit (list_ascii_of_string digits)
      then Some (if negative then - digits_value 0 digits else digits_value 0 digits)
      else None
  end.

(** [isInt()] of express-validator: the field, turned into a string, is
    an optional sign and digits (leading zeros allowed).  [String] writes
    a number with all its digits below [10^21] and with an exponent from
    there on. *)
Definition isInt (f : field) : bool :=
  match f with
  | Int z => Z.abs (double z) <? 10 ^ 21
  | Text s => match integer_text s with Some _ => true | None => false end
  | Other => false
  end.

(** The number a field converts to in a comparison.  [None] where the
    field is not one that [isInt] accepts: the handler compares
    validated fields only. *)
Definition number_of (f : field) : option Z :=
  match f with
  | Int z => Some (double z)
  | Text s => double <$> integer_text s
  | Other => None
  end.

(** [f >= n] *)
Definition at_least (f : field) (n : Z) : bool :=
  match number_of f with
  | Some d => n <=? d
  | None => false
  end.

(** [f + 1]: an addition of doubles for a number, a concatenation for a
    string.  (Not reached for the other fields.) *)
Definition add_one (f : field) : field :=
  match f with
  | Int z => Int (double (double z + 1))
  | Text s => Text (s +:+ "1")
  | Other => Other
  end.

(** Digits that are the decimal form of a whole number: a single zero,
    or digits that do not start with a zero. *)
Definition canonical (s : string) : bool :=
  match s with
  | EmptyString => false
  | String c EmptyString => is_digit c
  | String c r => is_digit c && negb (code c =? 48)%N
                  && forallb is_digit (list_ascii_of_string r)
  end.

(** The whole number whose decimal form the property key [a[f]] is,
    [None] when the key is no such form.  A number key is written by
    [String]; a string key is taken as it is. *)
Definition element (f : field) : option Z :=
  match f with
  | Int z => Some (double z)
  | Text s => if canonical s then Some (digits_value 0 s) else None
  | Other => None
  end.

(** [Math.max] and [Math.min] on integers, [NaN] being contagious. *)
Definition Math_max (a b : option Z) : option Z :=
  match a, b with Some x, Some y => Some (Z.max x y) | _, _ => None end.
Definition Math_min (a b : option Z) : option Z :=
  match a, b with Some x, Some y => Some (Z.min x y) | _, _ => None end.

(** [a || b] on strings where [a] may be [undefined]: the empty string
    is falsy too. *)
Definition or_else (a : option string) (b : string) : string :=
  match a with
  | Some (String c s) => String c s
  | _ => b
  end.

(** *** Blank characters

    [String.prototype.trim] and [\s] remove WhiteSpace and
    LineTerminator: U+0009..000D, U+0020, U+00A0, U+1680, U+2000..200A,
    U+2028, U+2029, U+202F, U+205F, U+3000 and U+FEFF.  [ws_width] is
    the number of bytes of the blank character a string starts with,
    [O] when it starts with none. *)
Definition ws3 (x y z : N) : bool :=
  ((x =? 225) && (y =? 154) && (z =? 128)
   || (x =? 226) && (y =? 128)
      && ((128 <=? z) && (z <=? 138) || (z =? 168) || (z =? 169) || (z =? 175))
   || (x =? 226) && (y =? 129) && (z =? 159)
   || (x =? 227) && (y =? 128) && (z =? 128)
   || (x =? 239) && (y =? 187) && (z =? 191))%N.

Definition ws_width (s : string) : nat :=
  match s with
  | String a r1 =>
      if ((9 <=? code a) && (code a <=? 13) || (code a =? 32))%N then 1%nat
      else match r1 with
           | String b r2 =>
               if ((code a =? 194) && (code b =? 160))%N then 2%nat
               else match r2 with
                    | String c _ =>
                        if ws3 (code a) (code b) (code c) then 3%nat else O
                    | EmptyString => O
                    end
           | EmptyString => O
           end
  | EmptyString => O
  end.

(** [pending] counts the bytes still to drop of the blank character
    being skipped. *)
Fixpoint trimStart_from (pending : nat) (s : string) : string :=
  match s with
  | EmptyString => EmptyString
  | String _ r =>
      match pending with
      | S k => trimStart_from k r
      | O => match ws_width s with
             | O => s
             | S k => trimStart_from k r
             end
      end
  end.

Definition trimStart (s : string) : string := trimStart_from O s.

(** [s.trim().length > 0] is false: [s] holds blank characters only. *)
Definition is_blank (s : string) : bool :=
  match trimStart s with EmptyString => true | _ => false end.

Fixpoint trimEnd (s : string) : string :=
  match s with
  | EmptyString => EmptyString
  | String c r => if is_blank s then EmptyString else String c (trimEnd r)
  end.

Definition trim (s : string) : string := trimEnd (trimStart s).

(** *** [split], [toLowerCase], [path.extname] *)

Definition LF : ascii := ascii_of_N 10.

(** [text.split('\n')]: the pieces between line feeds, one more than
    there are line feeds. *)
Fixpoint split_lines (text : string) : list string :=
  match text with
  | EmptyString => [EmptyString]
  | String c r =>
      if (code c =? 10)%N then EmptyString :: split_lines r
      else match split_lines r with
           | piece :: rest => String c piece :: rest
           | [] => [String c EmptyString]
           end
  end.

(** [toLowerCase] on the ASCII letters.  Letters outside ASCII are left
    as they are; none of them lowers to a character of [.pdf], [.doc],
    [.docx] or [.txt], the strings the result is compared with. *)
Definition lower (c : ascii) : ascii :=
  if ((65 <=? code c) && (code c <=? 90))%N then ascii_of_N (code c + 32) else c.

Fixpoint toLowerCase (s : string) : string :=
  match s with
  | EmptyString => EmptyString
  | String c r => String (lower c) (toLowerCase r)
  end.

Definition is_slash (c : ascii) : bool := (code c =? 47)%N.
Definition is_dot (c : ascii) : bool := (code c =? 46)%N.

Fixpoint span_rev (stop : ascii -> bool) (l : list ascii) : list ascii * list ascii :=
  match l with
  | c :: r => if stop c then ([], l)
              else let '(a, b) := span_rev stop r in (c :: a, b)
  | [] => ([], [])
  end.

Fixpoint drop_slashes (l : list ascii) : list ascii :=
  match l with
  | c :: r => if is_slash c then drop_slashes r else l
  | [] => []
  end.

(** [path.extname] (POSIX): in the last component of the path, what
    starts at its last dot; empty when that component has no dot, when
    its only dot comes first, or when it is [..]. *)
Definition extname (path : string) : string :=
  let reversed := drop_slashes (rev (list_ascii_of_string path)) in
  let '(base, _) := span_rev is_slash reversed in
  match span_rev is_dot base with
  | (_, []) => EmptyString
  | (_, [_]) => EmptyString
  | ([], [_; d]) => if is_dot d then EmptyString
                    else String (ascii_of_N 46) EmptyString
  | (after, _ :: _ :: _) => string_of_list_ascii (ascii_of_N 46 :: rev after)
  end.

End JS.

(** ** [JSON.parse]

    A recursive-descent reading of the JSON grammar (ECMA-404), which is
    what [JSON.parse] accepts.  Numbers are kept as their lexemes: their
    values are floating point, and the routes never compute with them.
    The members of an object are listed as written. *)

Module JSON.

Import JS.

#[local] Unset Elimination Schemes.
Inductive value : Type :=
| Null
| Bool (b : bool)
| Number (lexeme : string)
| Str (s : string)
| Array (items : list value)
| Object (members : list (string * value)).
#[local] Set Elimination Schemes.

Inductive outcome (A : Type) : Type :=
| Parsed (a : A) (rest : string)
| SyntaxError
| OutOfFuel.
Arguments Parsed {A} a rest.
Arguments SyntaxError {A}.
Arguments OutOfFuel {A}.

Definition is_char (c : ascii) (n : N) : bool := (code c =? n)%N.

(** JSON white space: space, tab, line feed, carriage return. *)
Definition is_ws (c : ascii) : bool := is_char c 32 || is_char c 9 || is_char c 10 || is_char c 13.

Fixpoint skip_ws (s : string) : string :=
  match s with
  | String c r => if is_ws c then skip_ws r else s
  | EmptyString => EmptyString
  end.

Fixpoint strip_prefix (p s : string) : option string :=
  match p, s with
  | EmptyString, _ => Some s
  | String a p', String b s' => if Ascii.eqb a b then strip_prefix p' s' else None
  | String _ _, EmptyString => None
  end.

(** *** Numbers

    An optional minus sign; then a single zero, or digits that do not
    start with zero; then, optionally, a dot and digits; then,
    optionally, [e] or [E], an optional sign, and digits. *)

Fixpoint span_digits (s : string) : string * string :=
  match s with
  | String c r =>
      if is_digit c then let '(ds, rest) := span_digits r in (String c ds, rest)
      else (EmptyString, s)
  | EmptyString => (EmptyString, EmptyString)
  end.

Definition some_digits (s : string) : option (string * string) :=
  match span_digits s with
  | (EmptyString, _) => None
  | (ds, rest) => Some (ds, rest)
  end.

Definition number_int (s : string) : option (string * string) :=
  match s with
  | String c r =>
      if is_char c 48 then Some (String c EmptyString, r)
      else some_digits s
  | EmptyString => None
  end.

Definition number_frac (s : string) : option (string * string) :=
  match s with
  | String c r =>
      if is_char c 46 then
        match some_digits r with
        | Some (ds, rest) => Some (String c ds, rest)
        | None => None
        end
      else Some (EmptyString, s)
  | EmptyString => Some (EmptyString, s)
  end.

Definition number_exp (s : string) : option (string * string) :=
  match s with
  | String c r =>
      if is_char c 101 || is_char c 69 then
        let '(sign, r') :=
          match r with
          | String d r2 => if is_char d 43 || is_char d 45 then (String d EmptyString, r2)
                           else (EmptyString, r)
          | EmptyString => (EmptyString, r)
          end in
        match some_digits r' with
        | Some (ds, rest) => Some (String c (sign +:+ ds), rest)
        | None => None
        end
      else Some (EmptyString, s)
  | EmptyString => Some (EmptyString, s)
  end.

Definition parse_number (s : string) : option (string * string) :=
  let '(sign, s1) :=
    match s with
    | String c r => if is_char c 45 then (String c EmptyString, r) else (EmptyString, s)
    | EmptyString => (EmptyString, s)
    end in
  match number_int s1 with
  | Some (i, s2) =>
      match number_frac s2 with
      | Some (f, s3) =>
          match number_exp s3 with
          | Some (e, s4) => Some (sign +:+ i +:+ f +:+ e, s4)
          | None => None
          end
      | None => None
      end
  | None => None
  end.

(** *** Strings

    The characters of a string literal are copied; an escape is
    replaced by the UTF-8 bytes of the character it names.  Two
    [\u] escapes that form a surrogate pair name one character; a lone
    surrogate is written with the three-byte pattern of its code. *)

Definition hex_value (c : ascii) : option N :=
  let x := code c in
  if ((48 <=? x) && (x <=? 57))%N then Some (x - 48)%N
  else if ((65 <=? x) && (x <=? 70))%N then Some (x - 55)%N
  else if ((97 <=? x) && (x <=? 102))%N then Some (x - 87)%N
  else None.

Definition hex4 (a b c d : ascii) : option N :=
  match hex_value a, hex_value b, hex_value c, hex_value d with
  | Some x, Some y, Some z, Some w => Some (((x * 16 + y) * 16 + z) * 16 + w)%N
  | _, _, _, _ => None
  end.

Definition byte (n : N) : ascii := ascii_of_N n.

Definition utf8 (cp : N) (tail : string) : string :=
  (if cp <? 128 then String (byte cp) tail
   else if cp <? 2048 then
     String (byte (192 + cp / 64)) (String (byte (128 + cp mod 64)) tail)
   else if cp <? 65536 then
     String (byte (224 + cp / 4096))
       (String (byte (128 + (cp / 64) mod 64)) (String (byte (128 + cp mod 64)) tail))
   else
     String (byte (240 + cp / 262144))
       (String (byte (128 + (cp / 4096) mod 64))
          (String (byte (128 + (cp / 64) mod 64))
             (String (byte (128 + cp mod 64)) tail))))%N.

Definition is_high (u : N) : bool := ((55296 <=? u) && (u <=? 56319))%N.
Definition is_low (u : N) : bool := ((56320 <=? u) && (u <=? 57343))%N.

(** The bytes of a pending high surrogate that found no partner. *)
Definition flush (high : option N) (tail : string) : string :=
  match high with
  | Some h => utf8 h tail
  | None => tail
  end.

Definition simple_escape (c : ascii) : option N :=
  if is_char c 34 then Some 34%N          (* quotation mark *)
  else if is_char c 92 then Some 92%N     (* reverse solidus *)
  else if is_char c 47 then Some 47%N     (* solidus *)
  else if is_char c 98 then Some 8%N      (* b *)
  else if is_char c 102 then Some 12%N    (* f *)
  else if is_char c 110 then Some 10%N    (* n *)
  else if is_char c 114 then Some 13%N    (* r *)
  else if is_char c 116 then Some 9%N     (* t *)
  else None.

(** What follows the opening quotation mark: the decoded string and
    what follows the closing one.  [high] is the high surrogate read
    just before, if any. *)
Fixpoint string_body (high : option N) (s : string) : option (string * string) :=
  match s with
  | EmptyString => None
  | String c r =>
      if is_char c 34 then Some (flush high EmptyString, r)
      else if is_char c 92 then
        match r with
        | String e r1 =>
            if is_char e 117 then
              match r1 with
              | String h1 (String h2 (String h3 (String h4 r2))) =>
                  match hex4 h1 h2 h3 h4 with
                  | Some u =>
                      match high with
                      | Some h =>
                          if is_low u then
                            match string_body None r2 with
                            | Some (str, rest) =>
                                Some (utf8 (65536 + (h - 55296) * 1024 + (u - 56320))%N str, rest)
                            | None => None
                            end
                          else if is_high u then
                            match string_body (Some u) r2 with
                            | Some (str, rest) => Some (utf8 h str, rest)
                            | None => None
                            end
                          else
                            match string_body None r2 with
                            | Some (str, rest) => Some (utf8 h (utf8 u str), rest)
                            | None => None
                            end
                      | None =>
                          if is_high u then string_body (Some u) r2
                          else
                            match string_body None r2 with
                            | Some (str, rest) => Some (utf8 u str, rest)
                            | None => None
                            end
                      end
                  | None => None
                  end
              | _ => None
              end
            else
              match simple_escape e with
              | Some x =>
                  match string_body None r1 with
                  | Some (str, rest) => Some (flush high (String (byte x) str), rest)
                  | None => None
                  end
              | None => None
              end
        | EmptyString => None
        end
      else if (code c <? 32)%N then None
      else
        match string_body None r with
        | Some (str, rest) => Some (flush high (String c str), rest)
        | None => None
        end
  end.

(** *** Values *)

Definition of_option {A} (o : option (A * string)) : outcome A :=
  match o with
  | Some (a, rest) => Parsed a rest
  | None => SyntaxError
  end.

Fixpoint parse_value (fuel : nat) (s : string) : outcome value :=
  match fuel with
  | O => OutOfFuel
  | S fuel' =>
      match skip_ws s with
      | EmptyString => SyntaxError
      | String c r =>
          if is_char c 91 then                       (* [ *)
            match skip_ws r with
            | String c' r' =>
                if is_char c' 93 then Parsed (Array []) r'
                else parse_elements fuel' r []
            | EmptyString => SyntaxError
            end
          else if is_char c 123 then                 (* { *)
            match skip_ws r with
            | String c' r' =>
                if is_char c' 125 then Parsed (Object []) r'
                else parse_members fuel' r []
            | EmptyString => SyntaxError
            end
          else if is_char c 34 then
            match string_body None r with
            | Some (str, rest) => Parsed (Str str) rest
            | None => SyntaxError
            end
          else if is_char c 116 then
            match strip_prefix "true" (String c r) with
            | Some rest => Parsed (Bool true) rest
            | None => SyntaxError
            end
          else if is_char c 102 then
            match strip_prefix "false" (String c r) with
            | Some rest => Parsed (Bool false) rest
            | None => SyntaxError
            end
          else if is_char c 110 then
            match strip_prefix "null" (String c r) with
            | Some rest => Parsed Null rest
            | None => SyntaxError
            end
          else
            match parse_number (String c r) with
            | Some (lexeme, rest) => Parsed (Number lexeme) rest
            | None => SyntaxError
            end
      end
  end

(** The elements of an array after [[] or a comma, up to []]; [acc]
    holds the elements read so far, last first. *)
with parse_elements (fuel : nat) (s : string) (acc : list value) : outcome value :=
  match fuel with
  | O => OutOfFuel
  | S fuel' =>
      match parse_value fuel' s with
      | Parsed v r =>
          match skip_ws r with
          | String c r' =>
              if is_char c 44 then parse_elements fuel' r' (v :: acc)
              else if is_char c 93 then Parsed (Array (rev (v :: acc))) r'
              else SyntaxError
          | EmptyString => SyntaxError
          end
      | SyntaxError => SyntaxError
      | OutOfFuel => OutOfFuel
      end
  end

(** The members of an object after [{] or a comma, up to [}]. *)
with parse_members (fuel : nat) (s : string) (acc : list (string * value)) : outcome value :=
  match fuel with
  | O => OutOfFuel
  | S fuel' =>
      match skip_ws s with
      | String q r =>
          if is_char q 34 then
            match string_body None r with
            | Some (key, r1) =>
                match skip_ws r1 with
                | String colon r2 =>
                    if is_char colon 58 then
                      match parse_value fuel' r2 with
                      | Parsed v r3 =>
                          match skip_ws r3 with
                          | String c r4 =>
                              if is_char c 44 then parse_members fuel' r4 ((key, v) :: acc)
                              else if is_char c 125 then Parsed (Object (rev ((key, v) :: acc))) r4
                              else SyntaxError
                          | EmptyString => SyntaxError
                          end
                      | SyntaxError => SyntaxError
                      | OutOfFuel => OutOfFuel
                      end
                    else SyntaxError
                | EmptyString => SyntaxError
                end
            | None => SyntaxError
            end
          else SyntaxError
      | EmptyString => SyntaxError
      end
  end.

(** One whole text: a value between optional white space. *)
Definition parse_with (fuel : nat) (text : string) : outcome value :=
  match parse_value fuel text with
  | Parsed v rest =>
      match skip_ws rest with
      | EmptyString => Parsed v EmptyString
      | String _ _ => SyntaxError
      end
  | SyntaxError => SyntaxError
  | OutOfFuel => OutOfFuel
  end.

Definition fuel_for (text : string) : nat := 2 * String.length text + 1.

(** [JSON.parse(text)]; [None] is the [SyntaxError] it throws. *)
Definition parse (text : string) : option value :=
  match parse_with (fuel_for text) text with
  | Parsed v _ => Some v
  | SyntaxError | OutOfFuel => None
  end.

(** The array of strings [l] as a value. *)
Definition strings (l : list string) : value := Array (map Str l).

End JSON.

(** ** The Gemini collaborator

    Each helper makes one [axios.post]; what comes back is an input. *)

Inductive ai_reply : Type :=
| CallFailed          (* the promise rejects: network error, timeout, non-2xx *)
| NoCandidate         (* data, data.candidates or data.candidates[0] is falsy *)
| MalformedCandidate  (* candidates[0].content.parts[0] cannot be read: TypeError *)
| MissingText         (* parts[0] has no text: the value read is undefined *)
| CandidateText (text : string).

(** [calculateInterviewScore]: the prompt is interpolated from arrays and
    strings and cannot throw; the result depends on the reply only. *)
Definition calculateInterviewScore (reply : ai_reply) : option Z :=
  match reply with
  | CandidateText text =>
      let score := JS.parseInt (JS.or_else (JS.match_digits text) "75") in
      JS.Math_max (Some 1) (JS.Math_min (Some 100) score)
  | NoCandidate => Some 75            (* else branch: default score *)
  | CallFailed | MalformedCandidate | MissingText => Some 75   (* catch *)
  end.

(** [generateInterviewFeedback]; [None] is [undefined]. *)
Definition placeholder_feedback : string :=
  "Thank you for completing the interview! We'll review your responses and provide detailed feedback shortly.".

Definition generateInterviewFeedback (reply : ai_reply) : option string :=
  match reply with
  | CandidateText text => Some text
  | MissingText => None
  | NoCandidate => Some placeholder_feedback      (* throw, caught below *)
  | CallFailed | MalformedCandidate => Some placeholder_feedback
  end.

Definition fallback_questions : list string :=
  [ "Tell me about yourself and your experience relevant to this role.";
    "What interests you most about this position?";
    "Describe a challenging project you worked on and how you overcame obstacles.";
    "How do you stay updated with the latest technologies in your field?";
    "Where do you see yourself in 5 years?" ].

(** [generateInterviewQuestions].  Building the prompt calls
    [focusAreas.join], which throws inside the [try] when [focusAreas] is
    not an array; the request is then never sent.  The result is any
    JavaScript value [JSON.parse] can return. *)
Definition generateInterviewQuestions (focusAreas : JSON.value) (reply : ai_reply)
  : JSON.value :=
  match focusAreas with
  | JSON.Array _ =>
      match reply with
      | CandidateText text =>
          match JSON.parse text with
          | Some parsed => parsed
          | None =>
              JSON.strings
                (List.filter (fun q => negb (JS.is_blank q)) (JS.split_lines text))
          end
      | NoCandidate => JSON.strings fallback_questions
      | CallFailed | MalformedCandidate | MissingText =>
          JSON.strings fallback_questions
      end
  | _ => JSON.strings fallback_questions
  end.

(** ** Reading an uploaded resume *)

Definition allowedTypes : list string := [".pdf"; ".doc"; ".docx"; ".txt"].

(** [upload.fileFilter]: [true] accepts the file, [false] hands an error
    to [next]. *)
Definition fileFilter (originalname : string) : bool :=
  let ext := JS.toLowerCase (JS.extname originalname) in
  bool_decide (ext ∈ allowedTypes).

Inductive result (A : Type) : Type :=
| Returned (a : A)
| Thrown (message : string).
Arguments Returned {A} a.
Arguments Thrown {A} message.

(** [extractTextFromFile]: [library] is what [pdfParse], [mammoth] or
    [fs.readFileSync] gives for the file, [None] when it throws. *)
Definition extractTextFromFile (originalName : string) (library : option string)
  : result string :=
  let ext := JS.toLowerCase (JS.extname originalName) in
  let attempt : result string :=
    if String.eqb ext ".pdf" then
      match library with Some text => Returned text | None => Thrown "pdf-parse" end
    else if String.eqb ext ".docx" then
      match library with Some text => Returned text | None => Thrown "mammoth" end
    else if String.eqb ext ".txt" then
      match library with Some text => Returned text | None => Thrown "fs" end
    else Thrown "Unsupported file type" in
  match attempt with
  | Returned text => Returned text
  | Thrown _ => Thrown "Failed to extract text from file"
  end.

(** ** The [interview_sessions] table *)

Definition text_array : Type := list (option string).

(** ** What PostgreSQL takes

    A statement binds JavaScript values to typed parameters.
    node-postgres sends a number as [String] writes it and a string as it
    is; the server reads the text with the input function of the type of
    the column.  [None] is the error that makes [pool.query] throw. *)

Module Pg.

(** [INTEGER] has 32 bits, [BIGINT] 64. *)
Definition in_integer (z : Z) : bool := (- 2 ^ 31 <=? z) && (z <? 2 ^ 31).
Definition in_bigint (z : Z) : bool := (- 2 ^ 63 <=? z) && (z <? 2 ^ 63).

Definition is_space (c : ascii) : bool :=
  ((9 <=? JS.code c) && (JS.code c <=? 13) || (JS.code c =? 32))%N.

Fixpoint skip_spaces (s : string) : string :=
  match s with
  | String c r => if is_space c then skip_spaces r else s
  | EmptyString => EmptyString
  end.

Fixpoint drop_digits (s : string) : string :=
  match s with
  | String c r => if JS.is_digit c then drop_digits r else s
  | EmptyString => EmptyString
  end.

(** The text of a whole number in decimal: blanks, an optional sign,
    digits, blanks.  (The prefixes of other bases, which PostgreSQL 16
    reads as well, are left out.) *)
Definition whole_number (s : string) : option Z :=
  let s1 := skip_spaces s in
  let '(negative, s2) :=
    match s1 with
    | String c r =>
        if (JS.code c =? 45)%N then (true, r)
        else if (JS.code c =? 43)%N then (false, r)
        else (false, s1)
    | EmptyString => (false, s1)
    end in
  match s2 with
  | String c _ =>
      if JS.is_digit c then
        match skip_spaces (drop_digits s2) with
        | EmptyString =>
            Some (if negative then - JS.digits_value 0 s2 else JS.digits_value 0 s2)
        | String _ _ => None
        end
      else None
  | EmptyString => None
  end.

(** The input function of [INTEGER]. *)
Definition int4in (s : string) : option Z :=
  match whole_number s with
  | Some z => if in_integer z then Some z else None
  | None => None
  end.

(** The value of an [INTEGER] parameter bound to a field.  (A field that
    [isInt] rejects is never bound.) *)
Definition integer (f : JS.field) : option Z :=
  match f with
  | JS.Int z => if in_integer (JS.double z) then Some (JS.double z) else None
  | JS.Text s => int4in s
  | JS.Other => None
  end.

(** A text holds no U+0000. *)
Definition text (s : string) : bool :=
  forallb (fun c => negb (JS.code c =? 0)%N) (list_ascii_of_string s).

Definition nullable_text (o : option string) : bool :=
  match o with
  | Some s => text s
  | None => true
  end.

Definition text_array (a : list (option string)) : bool := forallb nullable_text a.

(** The first [n] characters of [s] and what follows them; a character
    is a byte that starts one, with the continuation bytes after it. *)
Definition continuation (c : ascii) : bool :=
  ((128 <=? JS.code c) && (JS.code c <? 192))%N.

Fixpoint characters (n : nat) (s : string) : string * string :=
  match s with
  | EmptyString => (EmptyString, EmptyString)
  | String c r =>
      if continuation c then
        let '(kept, excess) := characters n r in (String c kept, excess)
      else
        match n with
        | O => (EmptyString, s)
        | S k => let '(kept, excess) := characters k r in (String c kept, excess)
        end
  end.

(** Assignment to a [VARCHAR(n)] column: a string of more than [n]
    characters is an error, unless the characters in excess are all
    spaces, which are then cut off. *)
Definition varchar (n : nat) (s : string) : option string :=
  if text s then
    let '(kept, excess) := characters n s in
    if forallb (fun c => (JS.code c =? 32)%N) (list_ascii_of_string excess)
    then Some kept else None
  else None.

Definition nullable_varchar (n : nat) (o : option string) : option (option string) :=
  match o with
  | Some s => Some <$> varchar n s
  | None => Some None
  end.

End Pg.

Module Session.
Record t : Type := mk {
  id : Z;
  user_id : Z;
  resume_url : string;
  resume_text : string;
  jd_text : string;
  focus_areas : option text_array;
  difficulty : string;
  role_type : option string;
  feedback : option string;
  score : option Z;
  questions_asked : option text_array;
  answers_given : option text_array;
  created_at : Z;
  completed_at : option Z
}.

(** [SET answers_given = $1] *)
Definition set_answers_given (answers : text_array) (r : t) : t :=
  mk (id r) (user_id r) (resume_url r) (resume_text r) (jd_text r)
     (focus_areas r) (difficulty r) (role_type r) (feedback r) (score r)
     (questions_asked r) (Some answers) (created_at r) (completed_at r).

(** [SET questions_asked = $1] *)
Definition set_questions_asked (questions : option text_array) (r : t) : t :=
  mk (id r) (user_id r) (resume_url r) (resume_text r) (jd_text r)
     (focus_areas r) (difficulty r) (role_type r) (feedback r) (score r)
     questions (answers_given r) (created_at r) (completed_at r).

(** [SET feedback = $1, score = $2, completed_at = CURRENT_TIMESTAMP] *)
Definition set_completion (fb : option string) (sc : Z) (now : Z) (r : t) : t :=
  mk (id r) (user_id r) (resume_url r) (resume_text r) (jd_text r)
     (focus_areas r) (difficulty r) (role_type r) fb (Some sc)
     (questions_asked r) (answers_given r) (created_at r) (Some now).

(** The two phases of a session. *)
Definition Active (r : t) : Prop := completed_at r = None.
Definition Completed (r : t) : Prop := completed_at r <> None.
End Session.

Record database : Type := {
  interview_sessions : gmap Z Session.t;
  next_id : Z                                (* the SERIAL sequence of [id] *)
}.

(** [SELECT * FROM interview_sessions WHERE id = $1 AND user_id = $2]
    for an [id] that the server could read as an [INTEGER] (see
    [Pg.integer] and [Pg.int4in]; the handlers throw where it could not):
    the row, or [None] for an empty [rows]. *)
Definition select_session (db : database) (id userId : Z) : option Session.t :=
  match interview_sessions db !! id with
  | Some row => if Z.eqb (Session.user_id row) userId then Some row else None
  | None => None
  end.

(** [UPDATE interview_sessions SET ... WHERE id = $n], once the server
    has taken the parameters.  Where it refuses them (a text that holds
    U+0000), or where the process cannot write them down (an array that
    is too long), the handlers below do not get this far. *)
Definition update_session (f : Session.t -> Session.t) (id : Z) (db : database)
  : database :=
  {| interview_sessions := alter f id (interview_sessions db);
     next_id := next_id db |}.

(** How the driver and the database turn a parameter into the value of a
    [TEXT[]] column: [Some None] stores NULL, [None] rejects the
    statement.  The persistence layer is not part of the routes; the
    handlers below take it as [encode]. *)
Definition encoder : Type := JSON.value -> option (option text_array).

(** An encoder that takes arrays of strings and nulls, and null. *)
Fixpoint text_elements (items : list JSON.value) : option text_array :=
  match items with
  | [] => Some []
  | JSON.Str s :: rest => cons (Some s) <$> text_elements rest
  | JSON.Null :: rest => cons None <$> text_elements rest
  | _ :: _ => None
  end.

Definition strict_encoder : encoder := fun v =>
  match v with
  | JSON.Null => Some None
  | JSON.Array items => Some <$> text_elements items
  | _ => None
  end.

(** ** JavaScript arrays of answers *)

(** [a[i]] for a number [i]: [None] is [undefined] (no such element),
    [Some None] a null element. *)
Definition array_get (a : text_array) (i : Z) : option (option string) :=
  if 0 <=? i then a !! Z.to_nat i else None.

(** [a[i] = v].  For a non-negative integer below the length the element
    is replaced.  For one from the length to [2^32 - 2] the array grows to
    length [i + 1]; the new elements in between are holes, which the
    driver stores as NULL.  Any other integer names an ordinary property,
    which is not an element and is not stored. *)
Definition array_set (a : text_array) (i : Z) (v : string) : text_array :=
  if 0 <=? i then
    let n := Z.to_nat i in
    if (n <? length a)%nat then <[n := Some v]> a
    else if i <? 2 ^ 32 - 1 then a ++ replicate (n - length a) None ++ [Some v]
    else a
  else a.

(** [a.length] after [a[i] = v]. *)
Definition length_of_set (a : text_array) (i : Z) : Z :=
  if (Z.of_nat (length a) <=? i) && (i <? 2 ^ 32 - 1) then i + 1
  else Z.of_nat (length a).

(** [a[f] = v], [a.length] after it, and [a[f]], for a property key
    [f]. *)
Definition property_set (a : text_array) (f : JS.field) (v : string) : text_array :=
  match JS.element f with
  | Some i => array_set a i v
  | None => a
  end.

Definition length_after (a : text_array) (f : JS.field) : Z :=
  match JS.element f with
  | Some i => length_of_set a i
  | None => Z.of_nat (length a)
  end.

Definition property_get (a : text_array) (f : JS.field) : option (option string) :=
  match JS.element f with
  | Some i => array_get a i
  | None => None
  end.

(** ** Requests and responses *)

Module Start.
(** The fields of the multipart form; [None] is an absent field.  A
    field is a string unless the body was parsed from JSON. *)
Record body : Type := {
  jd_text : string;
  focus_areas : option JSON.value;
  focus_areas_raw : option JSON.value;
  difficulty : option string;
  role_type : option string
}.

(** [req.file], for an upload within the size limit. *)
Record file : Type := {
  originalname : string;
  filename : string
}.
End Start.

Module Answer.
Record body : Type := {
  session_id : JS.field;
  answer : string;
  question_index : JS.field
}.
End Answer.

(** The projection [GET /session/:id] sends. *)
Module View.
Record t : Type := {
  id : Z;
  jd_text : string;
  difficulty : string;
  role_type : option string;
  questions_asked : option text_array;
  answers_given : option text_array;
  feedback : option string;
  score : option Z;
  created_at : Z;
  completed_at : option Z;
  is_completed : bool
}.
End View.

(** What a route answers.  [percentage] of [progress] and [instructions]
    are figures derived from [current], [total] and [questions]; they
    are left out. *)
Inductive response : Type :=
| UploadRejected                       (* the file filter's error, handed to [next] *)
| BadRequest (errors : list string)    (* 400 { errors } *)
| NotFound                             (* 404 { message: 'Interview session not found' } *)
| Failed (message : string)            (* 500 { message } *)
| Crashed                              (* the process runs out of memory and ends: no response *)
| Started (session_id : Z) (questions : JSON.value)
| Completed (feedback : option string) (score : Z)   (* completed: true, next_question: null *)
| Recorded (next_question : option (option string)) (current : JS.field) (total : Z)
                                       (* completed: false, progress *)
| Found (session : View.t).

(** The status line of a response the router itself sends. *)
Definition status (r : response) : option Z :=
  match r with
  | UploadRejected | Crashed => None
  | BadRequest _ => Some 400
  | NotFound => Some 404
  | Failed _ => Some 500
  | Started _ _ | Completed _ _ | Recorded _ _ _ | Found _ => Some 200
  end.

(** ** [POST /start] *)

(** The custom validator of [focus_areas]. *)
Definition focus_areas_valid (value : JSON.value) : bool :=
  match value with
  | JSON.Str text =>
      match JSON.parse text with
      | Some (JSON.Array _) => true
      | _ => false
      end
  | JSON.Array _ => true
  | _ => false
  end.

Definition difficulty_levels : list string := ["beginner"; "intermediate"; "advanced"].

(** The messages of the validation chain that fail. *)
Definition validate_start (b : Start.body) : list string :=
  (if JS.is_blank (Start.jd_text b) then ["Job description is required"] else [])
  ++ match Start.focus_areas b with
     | Some value =>
         if focus_areas_valid value then [] else ["Focus areas must be an array"]
     | None => []
     end
  ++ match Start.difficulty b with
     | Some level =>
         if bool_decide (level ∈ difficulty_levels) then []
         else ["Invalid difficulty level"]
     | None => []
     end.

(** [INSERT INTO interview_sessions (...) VALUES (...) RETURNING id]:
    what the statement gives and the table after it.  The server reads
    the parameters first (a text that holds U+0000 or an array it cannot
    read ends the statement there), then takes the next value of the
    sequence, then fits the strings into their [VARCHAR] columns and
    inserts the row.  A statement that fails after the sequence gave a
    value leaves the sequence advanced. *)
Definition insert_session (encode : encoder) (db : database) (now userId : Z)
    (resumeUrl resumeText jd : string) (focus : JSON.value) (level : string)
    (role : option string) : result Z * database :=
  match encode focus with
  | None => (Thrown "malformed array literal", db)
  | Some stored =>
      if negb (Pg.text resumeUrl && Pg.text resumeText && Pg.text jd && Pg.text level
               && Pg.nullable_text role)
      then (Thrown "invalid byte sequence for encoding UTF8: 0x00", db)
      else
        let id := next_id db in
        if negb (Pg.in_integer id)
        then (Thrown "nextval: reached maximum value of sequence", db)
        else
          let advanced :=
            {| interview_sessions := interview_sessions db; next_id := id + 1 |} in
          match Pg.varchar 500 resumeUrl, Pg.varchar 50 level, Pg.nullable_varchar 100 role with
          | Some url, Some difficulty, Some role_type =>
              match interview_sessions db !! id with
              | Some _ => (Thrown "duplicate key value violates unique constraint", advanced)
              | None =>
                  let row :=
                    Session.mk id userId url resumeText jd stored difficulty role_type
                               None None None None now None in
                  (Returned id,
                   {| interview_sessions := <[id := row]> (interview_sessions db);
                      next_id := id + 1 |})
              end
          | _, _, _ => (Thrown "value too long for type character varying", advanced)
          end
  end.

Definition start_failed : response := Failed "Failed to start interview session".

(** [focus_areas] as the handler parses it: the default of the
    destructuring, a JSON text parsed (an empty array if that throws), or
    the value as it is. *)
Definition parsed_focus_areas (body : Start.body) : JSON.value :=
  match Start.focus_areas_raw body with
  | None => JSON.Array []
  | Some (JSON.Str text) => default (JSON.Array []) (JSON.parse text)
  | Some other => other
  end.

(** [resumeUrl] and [resumeText] after the uploaded resume is processed. *)
Definition read_resume (file : option Start.file) (library : option string)
  : result (string * string) :=
  match file with
  | Some f =>
      match extractTextFromFile (Start.originalname f) library with
      | Returned text => Returned ("/uploads/resumes/" +:+ Start.filename f, text)
      | Thrown e => Thrown e
      end
  | None => Returned (EmptyString, EmptyString)
  end.

Definition postStart (encode : encoder) (db : database) (userId : Z)
    (file : option Start.file) (body : Start.body)
    (library : option string) (reply : ai_reply) (now : Z) : response * database :=
  if match file with
     | Some f => negb (fileFilter (Start.originalname f))
     | None => false
     end
  then (UploadRejected, db)
  else
    match validate_start body with
    | (_ :: _) as errors => (BadRequest errors, db)
    | [] =>
        let jd_text := JS.trim (Start.jd_text body) in
        let difficulty := default "intermediate" (Start.difficulty body) in
        let role_type := Start.role_type body in
        let focus_areas := parsed_focus_areas body in
        match read_resume file library with
        | Thrown _ => (start_failed, db)
        | Returned (resumeUrl, resumeText) =>
            match insert_session encode db now userId resumeUrl resumeText
                                 jd_text focus_areas difficulty role_type with
            | (Thrown _, db0) => (start_failed, db0)
            | (Returned sessionId, db1) =>
                let questions := generateInterviewQuestions focus_areas reply in
                match encode questions with
                | None => (start_failed, db1)
                | Some stored =>
                    let db2 :=
                      update_session (Session.set_questions_asked stored) sessionId db1 in
                    match questions with
                    | JSON.Null => (start_failed, db2)     (* [questions.length] throws *)
                    | _ => (Started sessionId questions, db2)
                    end
                end
            end
        end
    end.

(** ** [POST /answer] *)

(** The messages of the validation chain that fail. *)
Definition validate_answer (b : Answer.body) : list string :=
  (if JS.isInt (Answer.session_id b) then [] else ["Valid session ID required"])
  ++ (if JS.is_blank (Answer.answer b) then ["Answer is required"] else [])
  ++ (if JS.isInt (Answer.question_index b) then [] else ["Question index required"]).

Definition answer_failed : response := Failed "Failed to submit answer".

(** [capacity] is the length of the longest array the process has the
    memory to write down for the server; node-postgres writes an array as
    one string, element after element, and a longer array ends the
    process. *)
Definition postAnswer (capacity : Z) (db : database) (userId : Z) (body : Answer.body)
    (feedback_reply score_reply : ai_reply) (now : Z) : response * database :=
  match validate_answer body with
  | (_ :: _) as errors => (BadRequest errors, db)
  | [] =>
      let answer := JS.trim (Answer.answer body) in
      let question_index := Answer.question_index body in
      match Pg.integer (Answer.session_id body) with
      | None => (answer_failed, db)                     (* the SELECT throws *)
      | Some session_id =>
          match select_session db session_id userId with
          | None => (NotFound, db)
          | Some session =>
              let questions := default [] (Session.questions_asked session) in
              let answers_given := default [] (Session.answers_given session) in
              if capacity <? length_after answers_given question_index then (Crashed, db)
              else
                let answers := property_set answers_given question_index answer in
                if negb (Pg.text_array answers) then (answer_failed, db)
                else
                  let db1 :=
                    update_session (Session.set_answers_given answers) session_id db in
                  if JS.at_least question_index (Z.of_nat (length questions) - 1) then
                    let feedback := generateInterviewFeedback feedback_reply in
                    match calculateInterviewScore score_reply with
                    | Some score =>
                        if Pg.nullable_text feedback then
                          (Completed feedback score,
                           update_session (Session.set_completion feedback score now)
                                          session_id db1)
                        else (answer_failed, db1)
                    | None => (answer_failed, db1)
                    end
                  else
                    (Recorded (property_get questions (JS.add_one question_index))
                              (JS.add_one question_index) (Z.of_nat (length questions)),
                     db1)
          end
      end
  end.

(** ** [GET /session/:id] *)

Definition view (session : Session.t) : View.t :=
  {| View.id := Session.id session;
     View.jd_text := Session.jd_text session;
     View.difficulty := Session.difficulty session;
     View.role_type := Session.role_type session;
     View.questions_asked := Session.questions_asked session;
     View.answers_given := Session.answers_given session;
     View.feedback := Session.feedback session;
     View.score := Session.score session;
     View.created_at := Session.created_at session;
     View.completed_at := Session.completed_at session;
     View.is_completed := bool_decide (Session.completed_at session <> None) |}.

Definition session_failed : response := Failed "Failed to fetch interview session".

(** [id] is the segment of the path, a string that nothing validates. *)
Definition getSession (db : database) (userId : Z) (id : string) : response :=
  match Pg.int4in id with
  | None => session_failed                              (* the SELECT throws *)
  | Some key =>
      match select_session db key userId with
      | None => NotFound
      | Some session => Found (view session)
      end
  end.

(** ** Sample data *)

(** [s] between quotation marks. *)
Definition dq (s : string) : string :=
  String (ascii_of_N 34) (s +:+ String (ascii_of_N 34) EmptyString).

Definition three_questions : text_array :=
  [Some "Why this role?"; Some "Describe a hard bug."; Some "Where in 5 years?"].

Definition fresh_row : Session.t :=
  Session.mk 1 7 "" "" "Backend engineer role" (Some []) "beginner" None
             None None (Some three_questions) None 1000 None.

Definition fresh_db : database :=
  {| interview_sessions := {[ 1 := fresh_row ]}; next_id := 2 |}.

Definition finished_row : Session.t :=
  Session.mk 1 7 "" "" "Backend engineer role" (Some []) "beginner" None
             (Some "Solid answers.") (Some 80) (Some three_questions)
             (Some [Some "a0"; Some "a1"; Some "a2"]) 1000 (Some 2000).

Definition finished_db : database :=
  {| interview_sessions := {[ 1 := finished_row ]}; next_id := 2 |}.

Definition halfway_row : Session.t :=
  Session.mk 1 7 "" "" "Backend engineer role" (Some []) "beginner" None
             None None (Some three_questions) (Some [Some "first try"]) 1000 None.

Definition halfway_db : database :=
  {| interview_sessions := {[ 1 := halfway_row ]}; next_id := 2 |}.

Definition unasked_row : Session.t :=
  Session.mk 1 7 "" "" "Backend engineer role" (Some []) "beginner" None
             None None None None 1000 None.

Definition unasked_db : database :=
  {| interview_sessions := {[ 1 := unasked_row ]}; next_id := 2 |}.

Definition empty_db : database :=
  {| interview_sessions := ∅; next_id := 1 |}.

(** A response that is a JSON array of two questions. *)
Definition two_questions_reply : ai_reply :=
  CandidateText ("[" +:+ dq "Why this role?" +:+ ", " +:+ dq "Describe a hard bug." +:+ "]").

(** A start request without optional fields, and two uploads. *)
Definition backend_role : Start.body :=
  {| Start.jd_text := "Backend engineer role";
     Start.focus_areas := None;
     Start.focus_areas_raw := None;
     Start.difficulty := Some "beginner";
     Start.role_type := None |}.

Definition word_resume : Start.file :=
  {| Start.originalname := "Resume.DOC"; Start.filename := "resume-7-1700000000000-42.DOC" |}.

Definition text_resume : Start.file :=
  {| Start.originalname := "resume.txt"; Start.filename := "resume-7-1700000000000-43.txt" |}.

(** The body of a [POST /answer] for session 1. *)
Definition say (index : Z) (text : string) : Answer.body :=
  {| Answer.session_id := JS.Int 1; Answer.answer := text;
     Answer.question_index := JS.Int index |}.

(** The same, with the index written as a string. *)
Definition say_text (index : string) (text : string) : Answer.body :=
  {| Answer.session_id := JS.Int 1; Answer.answer := text;
     Answer.question_index := JS.Text index |}.

(** The body of a [POST /answer] at index 0 of session [id]. *)
Definition ask (id : JS.field) : Answer.body :=
  {| Answer.session_id := id; Answer.answer := "Let me in.";
     Answer.question_index := JS.Int 0 |}.

(** ** Vocabulary of the properties *)

(** A reply to the scoring request that cannot be used: the call failed,
    the response has no readable candidate text, or the text has no digit,
    hence no integer to parse. *)
Definition no_score_in (reply : ai_reply) : Prop :=
  match reply with
  | CandidateText text =>
      Forall (fun c => JS.is_digit c = false) (list_ascii_of_string text)
  | CallFailed | NoCandidate | MalformedCandidate | MissingText => True
  end.

(** The questions and the answers of a session as the handlers read them
    ([session.questions_asked || []], [session.answers_given || []]). *)
Definition questions_of (r : Session.t) : text_array :=
  default [] (Session.questions_asked r).
Definition answers_of (r : Session.t) : text_array :=
  default [] (Session.answers_given r).

(** The request passes validation, its [session_id] reads as the
    [INTEGER] [sid], and the row under [sid] is [r], a session of the
    caller.  The questions of [r] are a JavaScript array: there are fewer
    than [2^32] of them. *)
Definition finds (db : database) (userId : Z) (body : Answer.body)
    (sid : Z) (r : Session.t) : Prop :=
  validate_answer body = []
  /\ Pg.integer (Answer.session_id body) = Some sid
  /\ interview_sessions db !! sid = Some r
  /\ Session.user_id r = userId
  /\ Z.of_nat (length (questions_of r)) < 2 ^ 32.

(** The answers of [r] are an array that the process could write down
    and that the database took. *)
Definition stored (capacity : Z) (r : Session.t) : Prop :=
  Z.of_nat (length (answers_of r)) <= capacity
  /\ Pg.text_array (answers_of r) = true.

(** The UPDATE that stores the answer goes through: with the answer put
    in, the answers of [r] are an array no longer than [capacity], and
    neither the answers [r] has nor the trimmed answer hold U+0000. *)
Definition writable (capacity : Z) (r : Session.t) (body : Answer.body) : Prop :=
  length_after (answers_of r) (Answer.question_index body) <= capacity
  /\ Pg.text_array (answers_of r) = true
  /\ Pg.text (JS.trim (Answer.answer body)) = true.

(** The feedback is one the UPDATE that completes the session can
    write. *)
Definition reportable (feedback_reply : ai_reply) : Prop :=
  Pg.nullable_text (generateInterviewFeedback feedback_reply) = true.

(** The same row, not completed. *)
Definition reopened (r : Session.t) : Session.t :=
  Session.mk (Session.id r) (Session.user_id r) (Session.resume_url r)
             (Session.resume_text r) (Session.jd_text r) (Session.focus_areas r)
             (Session.difficulty r) (Session.role_type r) (Session.feedback r)
             (Session.score r) (Session.questions_asked r) (Session.answers_given r)
             (Session.created_at r) None.

(** A text with U+0000 in it. *)
Definition with_nul : string := String "a" (String (ascii_of_N 0) "b").

(** The session [id] is not there for [userId]: no such row, or a row of
    another user. *)
Definition absent_or_foreign (db : database) (userId id : Z) : Prop :=
  interview_sessions db !! id = None
  \/ exists r, interview_sessions db !! id = Some r /\ Session.user_id r <> userId.

(** The collaborator gave no text to read: the call failed or the
    response has no readable candidate. *)
Definition no_text (reply : ai_reply) : Prop :=
  match reply with
  | CandidateText _ => False
  | CallFailed | NoCandidate | MalformedCandidate | MissingText => True
  end.

(** The non-blank lines of a text
    ([text.split('\n').filter(q => q.trim().length > 0)]). *)
Definition nonblank_lines (text : string) : list string :=
  List.filter (fun q => negb (JS.is_blank q)) (JS.split_lines text).

(** The request carries a resume whose extension is [.doc]. *)
Definition doc_resume (f : Start.file) : Prop :=
  JS.toLowerCase (JS.extname (Start.originalname f)) = ".doc".


(** ** More vocabulary: the table as the handlers keep it *)

(** Every row sits under its own [id], an [INTEGER] below the next value
    of the sequence. *)
Definition well_keyed (db : database) : Prop :=
  forall id r,
    interview_sessions db !! id = Some r ->
    Session.id r = id /\ id < next_id db /\ Pg.in_integer id = true.

(** What the [INSERT] of a session needs of its parameters and of the
    sequence: the focus areas can be read as an array, no text holds
    U+0000, the next id is an [INTEGER], and the strings fit their
    [VARCHAR] columns. *)
Definition insertable (encode : encoder) (db : database)
    (resumeUrl resumeText jd : string) (focus : JSON.value) (level : string)
    (role : option string) : Prop :=
  is_Some (encode focus)
  /\ Pg.text resumeUrl = true
  /\ Pg.text resumeText = true
  /\ Pg.text jd = true
  /\ Pg.text level = true
  /\ Pg.nullable_text role = true
  /\ Pg.in_integer (next_id db) = true
  /\ is_Some (Pg.varchar 500 resumeUrl)
  /\ is_Some (Pg.varchar 50 level)
  /\ is_Some (Pg.nullable_varchar 100 role).

(** [body] with another [focus_areas] field. *)
Definition with_focus_areas (value : option JSON.value) (body : Start.body)
  : Start.body :=
  {| Start.jd_text := Start.jd_text body;
     Start.focus_areas := value;
     Start.focus_areas_raw := Start.focus_areas_raw body;
     Start.difficulty := Start.difficulty body;
     Start.role_type := Start.role_type body |}.

(** The columns a session gets when it is created and that describe what
    the interview is about: they are the same in [r] and [r']. *)
Definition same_inputs (r r' : Session.t) : Prop :=
  Session.id r' = Session.id r
  /\ Session.user_id r' = Session.user_id r
  /\ Session.resume_url r' = Session.resume_url r
  /\ Session.resume_text r' = Session.resume_text r
  /\ Session.jd_text r' = Session.jd_text r
  /\ Session.focus_areas r' = Session.focus_areas r
  /\ Session.difficulty r' = Session.difficulty r
  /\ Session.role_type r' = Session.role_type r
  /\ Session.questions_asked r' = Session.questions_asked r
  /\ Session.created_at r' = Session.created_at r.

(** The largest index of a JavaScript array is [2^32 - 2]. *)
Definition array_index (i : Z) : Prop := 0 <= i < 2 ^ 32 - 1.

(** A start request that is refused before the insert: the upload filter
    rejects the file, a validator fails, or the resume cannot be read. *)
Definition refused_before_insert
    (file : option Start.file) (body : Start.body) (library : option string) : Prop :=
  match file with
  | Some f => fileFilter (Start.originalname f) = false
  | None => False
  end
  \/ validate_start body <> []
  \/ exists e, read_resume file library = Thrown e.

(** A body without a job description. *)
Definition no_description : Start.body :=
  {| Start.jd_text := "   ";
     Start.focus_areas := None;
     Start.focus_areas_raw := None;
     Start.difficulty := None;
     Start.role_type := None |}.

(** The extensions [extractTextFromFile] has a branch for. *)
Definition readable_types : list string := [".pdf"; ".docx"; ".txt"].

(** The lowered extension of a file name, as both the filter and the
    extraction compute it. *)
Definition lowered_extension (name : string) : string :=
  JS.toLowerCase (JS.extname name).

(** No character of [s] is a digit; every character of [s] is one. *)
Definition no_digit (s : string) : Prop :=
  Forall (fun c => JS.is_digit c = false) (list_ascii_of_string s).
Definition all_digits (s : string) : Prop :=
  Forall (fun c => JS.is_digit c = true) (list_ascii_of_string s).

(** [s] is empty or starts with a character that is not a digit. *)
Definition stops_digits (s : string) : Prop :=
  match s with
  | EmptyString => True
  | String c _ => JS.is_digit c = false
  end.

(** [c] occurs in [s]. *)
Definition occurs (c : ascii) (s : string) : Prop := In c (list_ascii_of_string s).

(** [pieces.join(sep)] *)
Fixpoint join (sep : ascii) (pieces : list string) : string :=
  match pieces with
  | [] => EmptyString
  | [piece] => piece
  | piece :: rest => piece +:+ String sep (join sep rest)
  end.

(** ** [authenticateToken] (middleware/auth.js)

    The middleware every route of the interview router goes through. *)

Module User.
(** The columns the middleware selects from [users]. *)
Record t : Type := mk {
  id : Z;
  name : string;
  email : string;
  subscription_status : string;
  is_verified : bool
}.
End User.

(** [s.split(sep)] for a separator of one character. *)
Fixpoint split_at (sep : N) (s : string) : list string :=
  match s with
  | EmptyString => [EmptyString]
  | String c r =>
      if (JS.code c =? sep)%N then EmptyString :: split_at sep r
      else match split_at sep r with
           | piece :: rest => String c piece :: rest
           | [] => [String c EmptyString]
           end
  end.

(** What the middleware does with a request: a response of its own, or
    [next()] with [req.user] set. *)
Inductive auth_outcome : Type :=
| Unauthorized (message : string)      (* 401 *)
| Forbidden (message : string)         (* 403 *)
| Next (user : User.t).

(** [authHeader && authHeader.split(' ')[1]]; [None] is [undefined]. *)
Definition header_token (authHeader : option string) : option string :=
  match authHeader with
  | None => None
  | Some EmptyString => Some EmptyString
  | Some header => split_at 32 header !! 1%nat
  end.

(** [verify] is [jwt.verify] with the secret of the process: [None] when
    it throws, otherwise [userId] of the payload, which may be missing.
    [users] is the table the middleware reads; its [id] is an [INTEGER],
    and the SELECT throws, inside the [try], for a [userId] that is
    none. *)
Definition authenticateToken (verify : string -> option (option Z))
    (users : gmap Z User.t) (authHeader : option string) : auth_outcome :=
  match header_token authHeader with
  | None | Some EmptyString => Unauthorized "Access token required"
  | Some token =>
      match verify token with
      | None => Forbidden "Invalid or expired token"
      | Some (Some id) =>
          if Pg.in_integer id then
            match users !! id with
            | None => Unauthorized "User not found"
            | Some user => Next user
            end
          else Forbidden "Invalid or expired token"
      | Some None => Unauthorized "User not found"
      end
  end.

(** No space occurs in [s]. *)
Definition spaceless (s : string) : Prop := ~ occurs (ascii_of_N 32) s.

(** A verifier that knows one token, and the table of one user. *)
Definition one_token (token : string) : option (option Z) :=
  if String.eqb token "header.payload.signature" then Some (Some 7) else None.

Definition one_user : gmap Z User.t :=
  {[ 7 := User.mk 7 "Ada" "ada@example.org" "free" true ]}.

(** ** [GET /history] *)

(** The columns the history query selects. *)
Module Summary.
Record t : Type := mk {
  id : Z;
  jd_text : string;
  difficulty : string;
  role_type : option string;
  score : option Z;
  created_at : Z;
  completed_at : option Z;
  is_completed : bool
}.
End Summary.

Definition summary (r : Session.t) : Summary.t :=
  Summary.mk (Session.id r) (Session.jd_text r) (Session.difficulty r)
             (Session.role_type r) (Session.score r) (Session.created_at r)
             (Session.completed_at r)
             (match Session.completed_at r with Some _ => true | None => false end).

(** [ORDER BY created_at DESC], by insertion.  Among rows created at the
    same time the order is the store's to choose; here a row goes before
    the rows already placed that are not newer. *)
Fixpoint insert_newest_first (r : Session.t) (rows : list Session.t) : list Session.t :=
  match rows with
  | [] => [r]
  | x :: rest =>
      if Session.created_at x <=? Session.created_at r then r :: rows
      else x :: insert_newest_first r rest
  end.

Definition newest_first (rows : list Session.t) : list Session.t :=
  foldr insert_newest_first [] rows.

(** [WHERE user_id = $1 ORDER BY created_at DESC] *)
Definition sessions_of (db : database) (userId : Z) : list Session.t :=
  newest_first
    (List.filter (fun r => Session.user_id r =? userId)
                 (map snd (map_to_list (interview_sessions db)))).

(** The body of a successful history response.  [pages] is [None] when
    [Math.ceil(count / limit)] is not a finite number ([limit] is 0),
    which JSON writes as null. *)
Inductive history_response : Type :=
| HistoryFailed                        (* 500 { message: 'Failed to fetch interview history' } *)
| History (sessions : list Summary.t) (page limit total : Z) (pages : option Z).

(** [page] and [limit] are the whole numbers that the query string
    writes in decimal, [None] when absent.

    [offset] is computed in doubles and sent as [String] writes it;
    [limit] is sent as the query string has it.  The server reads both
    as [BIGINT], and refuses a negative LIMIT or OFFSET.  An OFFSET that
    is not finite, or that [String] writes with an exponent, is outside
    [BIGINT] in any case.

    The table holds fewer than [2^32] rows, its key being an [INTEGER]:
    [parseInt] of the count is the count, and the division of the doubles
    [count] and [limit], rounded up, is the quotient of the whole numbers
    rounded up. *)
Definition getHistory (db : database) (userId : Z) (page limit : option Z)
  : history_response :=
  let page_number := JS.double (default 1 page) in
  let limit_number := JS.double (default 10 limit) in
  let offset := JS.double (JS.double (page_number - 1) * limit_number) in
  let limit_sent := default 10 limit in
  if negb (JS.finite page_number)
     || negb (Pg.in_bigint limit_sent) || (limit_sent <? 0)
     || negb (Pg.in_bigint offset) || (offset <? 0)
  then HistoryFailed
  else
    let rows :=
      take (Z.to_nat limit_sent) (drop (Z.to_nat offset) (sessions_of db userId)) in
    let total := Z.of_nat (length (sessions_of db userId)) in
    History (map summary rows) page_number limit_number total
            (if limit_number =? 0 then None
             else Some ((total + limit_number - 1) / limit_number)).

(** Newest first: no session is older than one listed after it. *)
Fixpoint newest_to_oldest (times : list Z) : Prop :=
  match times with
  | [] => True
  | t :: rest => Forall (fun later => later <= t) rest /\ newest_to_oldest rest
  end.

(** A table with three sessions of user 7 and one of user 8. *)
Definition busy_db : database :=
  {| interview_sessions :=
       {[ 1 := fresh_row;
          2 := Session.mk 2 7 "" "" "Data engineer role" (Some []) "advanced" None
                          None None (Some three_questions) None 1500 None;
          3 := Session.mk 3 8 "" "" "Designer role" (Some []) "beginner" None
                          None None (Some three_questions) None 1600 None;
          4 := Session.mk 4 7 "" "" "Site reliability role" (Some []) "intermediate" None
                          (Some "Solid answers.") (Some 80) (Some three_questions)
                          (Some [Some "a0"; Some "a1"; Some "a2"]) 1700 (Some 2000) ]};
     next_id := 5 |}.

(** ** The interview page (client/src/pages/Interview.js)

    The part of the page's state that [submitAnswer] reads and writes, and
    the page as the caller of [POST /answer]. *)

Module Client.
Record state : Type := mk {
  session_id : Z;                       (* interviewData.session_id *)
  currentQuestion : Z;
  answers : list string;
  step : Z;                             (* 2: the interview, 3: the results *)
  feedback : option (option string);    (* interviewData.feedback, once set *)
  score : option Z                      (* interviewData.score, once set *)
}.

(** What the user types, with what the world does during the request. *)
Record turn : Type := {
  typed : string;
  feedback_reply : ai_reply;
  score_reply : ai_reply;
  clock : Z
}.
End Client.

(** [submitAnswer]: nothing is sent for a blank answer; a response that is
    not 2xx, or none, makes [axios] throw, and the page keeps its state.
    The page sends [session_id] and [currentQuestion] as numbers. *)
Definition submitAnswer (capacity : Z) (st : Client.state) (db : database) (userId : Z)
    (t : Client.turn) : Client.state * database :=
  if JS.is_blank (Client.typed t) then (st, db)
  else
    let '(response, db') :=
      postAnswer capacity db userId
        {| Answer.session_id := JS.Int (Client.session_id st);
           Answer.answer := Client.typed t;
           Answer.question_index := JS.Int (Client.currentQuestion st) |}
        (Client.feedback_reply t) (Client.score_reply t) (Client.clock t) in
    match response with
    | Completed feedback score =>
        (Client.mk (Client.session_id st) (Client.currentQuestion st)
                   (Client.answers st ++ [Client.typed t]) 3
                   (Some feedback) (Some score), db')
    | Recorded _ _ _ =>
        (Client.mk (Client.session_id st) (Client.currentQuestion st + 1)
                   (Client.answers st ++ [Client.typed t]) (Client.step st)
                   (Client.feedback st) (Client.score st), db')
    | _ => (st, db')
    end.

(** The user answers turn after turn; the button that submits is on the
    page of step 2 only. *)
Fixpoint play (capacity : Z) (st : Client.state) (db : database) (userId : Z)
    (turns : list Client.turn) : Client.state * database :=
  match turns with
  | [] => (st, db)
  | t :: rest =>
      if Client.step st =? 2 then
        let '(st', db') := submitAnswer capacity st db userId t in
        play capacity st' db' userId rest
      else (st, db)
  end.

(** The page when the interview of session [sid] begins. *)
Definition at_first_question (sid : Z) : Client.state :=
  Client.mk sid 0 [] 2 None None.

(** The answers as the server stores them. *)
Definition stored_answers (turns : list Client.turn) : text_array :=
  map (fun t => Some (JS.trim (Client.typed t))) turns.

Definition answered (turns : list Client.turn) : Prop :=
  Forall (fun t => JS.is_blank (Client.typed t) = false) turns.

(** Three answers, the collaborator failing throughout. *)
Definition three_turns : list Client.turn :=
  [ {| Client.typed := "Because."; Client.feedback_reply := CallFailed;
       Client.score_reply := CallFailed; Client.clock := 2000 |};
    {| Client.typed := " With a debugger. "; Client.feedback_reply := CallFailed;
       Client.score_reply := CallFailed; Client.clock := 3000 |};
    {| Client.typed := "Here."; Client.feedback_reply := CandidateText "Well done.";
       Client.score_reply := CandidateText "Score: 91"; Client.clock := 4000 |} ].

(** [r'] is [r] but for its answers. *)
Definition only_answers_differ (r r' : Session.t) : Prop :=
  same_inputs r r'
  /\ Session.feedback r' = Session.feedback r
  /\ Session.score r' = Session.score r
  /\ Session.completed_at r' = Session.completed_at r.

(** ** The name of a stored resume ([storage.filename]) *)

(** A whole number as JavaScript writes it in a template string. *)
Definition decimal (n : Z) : string := NilZero.string_of_int (Z.to_int n).

(** [now] is [Date.now()], [random] is [Math.round(Math.random() * 1E9)]. *)
Definition storage_filename (userId now random : Z) (originalname : string) : string :=
  "resume-" +:+ decimal userId +:+ "-" +:+ (decimal now +:+ "-" +:+ decimal random)
  +:+ JS.extname originalname.

(** Neither a dot nor a slash occurs in [s]. *)
Definition one_word (s : string) : Prop :=
  Forall (fun c => JS.is_dot c = false /\ JS.is_slash c = false) (list_ascii_of_string s).

(** The Markdown fence that opens a block of JSON. *)
Definition json_fence : string := "```json".

(** A summary and a view tell the same about a session. *)
Definition agree (s : Summary.t) (v : View.t) : Prop :=
  View.id v = Summary.id s
  /\ View.jd_text v = Summary.jd_text s
  /\ View.difficulty v = Summary.difficulty s
  /\ View.role_type v = Summary.role_type s
  /\ View.score v = Summary.score s
  /\ View.created_at v = Summary.created_at s
  /\ View.completed_at v = Summary.completed_at s
  /\ View.is_completed v = Summary.is_completed s.

(** * Properties *)

Example score_plain : calculateInterviewScore (CandidateText "Score: 82/100") = Some 82.
Proof. reflexivity. Qed.
Example score_zero : calculateInterviewScore (CandidateText "0") = Some 1.
Proof. reflexivity. Qed.
Example score_big : calculateInterviewScore (CandidateText "about 250 points") = Some 100.
Proof. reflexivity. Qed.
Example score_none : calculateInterviewScore (CandidateText "excellent") = Some 75.
Proof. reflexivity. Qed.

Example trim_ex : JS.trim "  two words	 " = "two words".
Proof. reflexivity. Qed.
Example extname_ex :
  map JS.extname ["cv.doc"; "a/b.c/d"; ".bashrc"; "x.tar.gz"; "up/.."; "name."; "..x"; "My.CV.DocX"]
  = [".doc"; ""; ""; ".gz"; ""; "."; ".x"; ".DocX"].
Proof. reflexivity. Qed.
Example split_ex :
  JS.split_lines (String "a" (String JS.LF (String JS.LF "b"))) = ["a"; ""; "b"].
Proof. reflexivity. Qed.

Example json_ex1 :
  JSON.parse ("[" +:+ dq "aA\n" +:+ " , 12.5e-3, true,null, {" +:+ dq "k" +:+ ": [ ]} ] ")
  = Some (JSON.Array [JSON.Str (String "a" (String "A" (String JS.LF ""))); JSON.Number "12.5e-3"; JSON.Bool true; JSON.Null;
                      JSON.Object [("k", JSON.Array [])]]).
Proof. vm_compute. reflexivity. Qed.
Example json_ex2 : map JSON.parse ["01"; "[1,]"; "tru"; "- 1"; ""; "[1 2]"; "1."; "{" +:+ dq "a" +:+ "}"; "nul"; "[" ; dq "a" +:+ "x"]
  = [None; None; None; None; None; None; None; None; None; None; None].
Proof. vm_compute. reflexivity. Qed.
Example json_ex3 :
  JSON.parse (dq "\ud83d\ude00 \u00e9 \/") = Some (JSON.Str "😀 é /").
Proof. vm_compute. reflexivity. Qed.

(** The scenario of a whole interview: start without a resume, answer
    both questions in order, read the session back. *)
Example end_to_end :
  let started := postStart strict_encoder empty_db 7 None backend_role None
                           two_questions_reply 1000 in
  let first := postAnswer 1000 (snd started) 7 (say 0 "Because.") CallFailed CallFailed 2000 in
  let last := postAnswer 1000 (snd first) 7 (say 1 " With a debugger. ")
                         (CandidateText "Well done.") (CandidateText "Score: 91") 3000 in
  fst started = Started 1 (JSON.strings ["Why this role?"; "Describe a hard bug."])
  /\ fst first = Recorded (Some (Some "Describe a hard bug.")) (JS.Int 1) 2
  /\ fst last = Completed (Some "Well done.") 91
  /\ exists v,
       getSession (snd last) 7 "1" = Found v
       /\ View.is_completed v = true
       /\ View.score v = Some 91
       /\ View.answers_given v = Some [Some "Because."; Some "With a debugger."].
Proof. vm_compute. repeat split. eexists. repeat split. Qed.

Example double_ex :
  map JS.double [2 ^ 53 - 1; 2 ^ 53; 2 ^ 53 + 1; 2 ^ 53 + 2; 2 ^ 53 + 3; - (2 ^ 53 + 1); 10 ^ 21 - 65536]
  = [2 ^ 53 - 1; 2 ^ 53; 2 ^ 53; 2 ^ 53 + 2; 2 ^ 53 + 4; - 2 ^ 53; 10 ^ 21].
Proof. vm_compute. reflexivity. Qed.
Example isInt_ex :
  map JS.isInt [JS.Int 0; JS.Int (-7); JS.Int (10 ^ 21 - 65537); JS.Int (10 ^ 21);
                JS.Text "12"; JS.Text "+012"; JS.Text "-0"; JS.Text "1 "; JS.Text "1e3";
                JS.Text ""; JS.Other]
  = [true; true; true; false; true; true; true; false; false; false; false].
Proof. vm_compute. reflexivity. Qed.
Example int4in_ex :
  map Pg.int4in ["7"; " -007 "; "+2147483647"; "2147483648"; "-2147483648"; "1.0"; "7x"; ""; "abc"]
  = [Some 7; Some (-7); Some 2147483647; None; Some (-2147483648); None; None; None; None].
Proof. vm_compute. reflexivity. Qed.
Example varchar_ex :
  map (Pg.varchar 3) ["abc"; "abc   "; "abcd"; "é€x"; "é€xy"; with_nul]
  = [Some "abc"; Some "abc"; None; Some "é€x"; None; None].
Proof. vm_compute. reflexivity. Qed.

(** ** Scoring *)

Section Scoring.

Lemma match_digits_shape text ds :
  JS.match_digits text = Some ds ->
  exists c rest, ds = String c rest /\ JS.is_digit c = true.
Proof.
  induction text as [|c text IH]; simpl; [discriminate|].
  destruct (JS.is_digit c) eqn:Hc; [|exact IH].
  intros [= <-]. eauto.
Qed.

Lemma match_digits_none text :
  Forall (fun c => JS.is_digit c = false) (list_ascii_of_string text) ->
  JS.match_digits text = None.
Proof.
  induction text as [|c text IH]; simpl; [reflexivity|].
  intros H. apply Forall_cons in H as [Hc Hrest].
  rewrite Hc. auto.
Qed.

Lemma clamp_range n : 1 <= Z.max 1 (Z.min 100 n) <= 100.
Proof. lia. Qed.

(** Whatever the collaborator does, the score is a number from 1 to 100. *)
Lemma score_in_range reply :
  exists n, calculateInterviewScore reply = Some n /\ 1 <= n <= 100.
Proof.
  destruct reply as [| | | |text]; simpl; try (exists 75; split; [reflexivity|lia]).
  destruct (JS.match_digits text) as [ds|] eqn:Hm.
  - destruct (match_digits_shape _ _ Hm) as (c & rest & -> & Hc).
    simpl. rewrite Hc. simpl. eexists. split; [reflexivity|]. lia.
  - simpl. exists 75. split; [reflexivity|lia].
Qed.

End Scoring.

(** C4. If the call to the AI collaborator fails, or its response holds no
    integer that can be parsed, [calculateInterviewScore] returns exactly 75. *)
Theorem score_default_75 (reply : ai_reply) :
  no_score_in reply -> calculateInterviewScore reply = Some 75.
Proof.
  destruct reply as [| | | |text]; simpl; try reflexivity.
  intros H. rewrite (match_digits_none _ H). reflexivity.
Qed.

(** C4 at a reply without digits and at a failed call. *)
Lemma score_default_75_witness :
  no_score_in (CandidateText "Strong candidate, well done!")
  /\ calculateInterviewScore (CandidateText "Strong candidate, well done!") = Some 75
  /\ calculateInterviewScore CallFailed = Some 75.
Proof.
  assert (H : no_score_in (CandidateText "Strong candidate, well done!")).
  { simpl. repeat constructor. }
  split; [exact H|]. split.
  - exact (score_default_75 _ H).
  - exact (score_default_75 CallFailed I).
Defined.

(** C5. Whenever a number is parsed from the response (the first run of
    digits [ds] of its text, read as the integer [n]), the score returned is
    [n] clamped into [1,100]; and the score returned is an integer of
    [1,100] for every response. *)
Theorem score_clamped (text ds : string) :
  JS.match_digits text = Some ds ->
  exists n,
    JS.parseInt ds = Some n
    /\ calculateInterviewScore (CandidateText text) = Some (Z.max 1 (Z.min 100 n))
    /\ 1 <= Z.max 1 (Z.min 100 n) <= 100
    /\ forall reply, exists m, calculateInterviewScore reply = Some m /\ 1 <= m <= 100.
Proof.
  intros Hm.
  destruct (match_digits_shape _ _ Hm) as (c & rest & -> & Hc).
  exists (JS.digits_value 0 (String c rest)).
  split. { unfold JS.parseInt. rewrite Hc. reflexivity. }
  split. { simpl. rewrite Hm. simpl. rewrite Hc. reflexivity. }
  split; [lia|]. apply score_in_range.
Qed.

(** C5 at a reply that rates 250. *)
Lemma score_clamped_witness :
  JS.match_digits "I would rate this 250 out of 100" = Some "250"
  /\ exists n,
      JS.parseInt "250" = Some n
      /\ calculateInterviewScore (CandidateText "I would rate this 250 out of 100")
         = Some (Z.max 1 (Z.min 100 n))
      /\ 1 <= Z.max 1 (Z.min 100 n) <= 100
      /\ forall reply, exists m, calculateInterviewScore reply = Some m /\ 1 <= m <= 100.
Proof.
  split; [reflexivity|].
  apply (score_clamped "I would rate this 250 out of 100" "250"). reflexivity.
Defined.

(** ** [JSON.parse] needs no more fuel than it is given *)

Section JSONFuel.
Import JSON.

Lemma skip_ws_le s : (String.length (skip_ws s) <= String.length s)%nat.
Proof.
  induction s as [|c s IH]; simpl; [lia|].
  destruct (is_ws c); simpl; lia.
Qed.

Lemma strip_prefix_length p s r :
  strip_prefix p s = Some r -> (String.length r + String.length p = String.length s)%nat.
Proof.
  revert s; induction p as [|a p IH]; intros [|b s]; simpl; try discriminate.
  - intros [= <-]. reflexivity.
  - intros [= <-]. simpl. lia.
  - destruct (Ascii.eqb a b); [|discriminate]. intros H. apply IH in H. lia.
Qed.

Lemma span_digits_le s ds r :
  span_digits s = (ds, r) -> (String.length r <= String.length s)%nat.
Proof.
  revert ds r; induction s as [|c s IH]; simpl; intros ds r.
  - intros [= <- <-]. simpl. lia.
  - destruct (JS.is_digit c).
    + destruct (span_digits s) as [ds' r'] eqn:E. intros [= <- <-].
      specialize (IH _ _ eq_refl). lia.
    + intros [= <- <-]. simpl. lia.
Qed.

Lemma some_digits_lt s ds r :
  some_digits s = Some (ds, r) -> (String.length r < String.length s)%nat.
Proof.
  unfold some_digits. destruct s as [|c s]; simpl; [discriminate|].
  destruct (JS.is_digit c); [|discriminate].
  destruct (span_digits s) as [ds' r'] eqn:E. intros [= <- <-].
  apply span_digits_le in E. lia.
Qed.

Lemma number_int_lt s i r :
  number_int s = Some (i, r) -> (String.length r < String.length s)%nat.
Proof.
  unfold number_int. destruct s as [|c s]; [discriminate|].
  destruct (is_char c 48).
  - intros [= <- <-]. simpl. lia.
  - apply some_digits_lt.
Qed.

Lemma number_frac_le s f r :
  number_frac s = Some (f, r) -> (String.length r <= String.length s)%nat.
Proof.
  unfold number_frac. destruct s as [|c s]; [intros [= <- <-]; lia|].
  destruct (is_char c 46).
  - destruct (some_digits s) as [[ds rest]|] eqn:E; [|discriminate].
    intros [= <- <-]. apply some_digits_lt in E. simpl. lia.
  - intros [= <- <-]. lia.
Qed.

Lemma number_exp_le s e r :
  number_exp s = Some (e, r) -> (String.length r <= String.length s)%nat.
Proof.
  unfold number_exp. destruct s as [|c s]; [intros [= <- <-]; lia|].
  destruct (is_char c 101 || is_char c 69); [|intros [= <- <-]; lia].
  destruct s as [|d s2].
  - simpl. discriminate.
  - destruct (is_char d 43 || is_char d 45).
    + destruct (some_digits s2) as [[ds rest]|] eqn:E; [|discriminate].
      intros [= <- <-]. apply some_digits_lt in E. simpl. lia.
    + destruct (some_digits (String d s2)) as [[ds rest]|] eqn:E; [|discriminate].
      intros [= <- <-]. apply some_digits_lt in E. simpl in *. lia.
Qed.

Lemma parse_number_lt s l r :
  parse_number s = Some (l, r) -> (String.length r < String.length s)%nat.
Proof.
  unfold parse_number.
  set (p := match s with
            | String c r0 => if is_char c 45 then (String c EmptyString, r0) else (EmptyString, s)
            | EmptyString => (EmptyString, s)
            end).
  assert (Hp : (String.length (snd p) <= String.length s)%nat).
  { subst p. destruct s as [|c s]; simpl; [lia|]. destruct (is_char c 45); simpl; lia. }
  destruct p as [sign s1]. simpl in Hp.
  destruct (number_int s1) as [[i s2]|] eqn:E1; [|discriminate].
  destruct (number_frac s2) as [[f s3]|] eqn:E2; [|discriminate].
  destruct (number_exp s3) as [[e s4]|] eqn:E3; [|discriminate].
  intros [= <- <-].
  apply number_int_lt in E1. apply number_frac_le in E2. apply number_exp_le in E3. lia.
Qed.

Lemma string_body_lt_bound n : forall high s str r,
  (String.length s <= n)%nat ->
  string_body high s = Some (str, r) -> (String.length r < String.length s)%nat.
Proof.
  induction n as [|n IH]; intros high s str r Hn H.
  - destruct s; simpl in *; [discriminate|lia].
  - destruct s as [|c s]; [discriminate|]. simpl in H, Hn.
    destruct (is_char c 34). { injection H as <- <-. simpl. lia. }
    destruct (is_char c 92).
    + destruct s as [|e r1]; [discriminate|].
      destruct (is_char e 117).
      * destruct r1 as [|h1 [|h2 [|h3 [|h4 r2]]]]; try discriminate.
        simpl in Hn.
        destruct (hex4 h1 h2 h3 h4) as [u|]; [|discriminate].
        assert (Hrec : forall hg str' r', string_body hg r2 = Some (str', r') ->
                       (String.length r' < String.length r2)%nat).
        { intros hg str' r'. apply IH. lia. }
        destruct high as [h|].
        -- destruct (is_low u).
           { destruct (string_body None r2) as [[s' r']|] eqn:E; [|discriminate].
             injection H as <- <-. apply Hrec in E. simpl. lia. }
           destruct (is_high u).
           { destruct (string_body (Some u) r2) as [[s' r']|] eqn:E; [|discriminate].
             injection H as <- <-. apply Hrec in E. simpl. lia. }
           destruct (string_body None r2) as [[s' r']|] eqn:E; [|discriminate].
           injection H as <- <-. apply Hrec in E. simpl. lia.
        -- destruct (is_high u).
           { apply Hrec in H. simpl. lia. }
           destruct (string_body None r2) as [[s' r']|] eqn:E; [|discriminate].
           injection H as <- <-. apply Hrec in E. simpl. lia.
      * destruct (simple_escape e); [|discriminate].
        destruct (string_body None r1) as [[s' r']|] eqn:E; [|discriminate].
        injection H as <- <-. apply IH in E; simpl in *; lia.
    + destruct (JS.code c <? 32)%N; [discriminate|].
      destruct (string_body None s) as [[s' r']|] eqn:E; [|discriminate].
      injection H as <- <-. apply IH in E; simpl in *; lia.
Qed.

Lemma string_body_lt high s str r :
  string_body high s = Some (str, r) -> (String.length r < String.length s)%nat.
Proof. apply (string_body_lt_bound (String.length s)). lia. Qed.


#[local] Arguments strip_prefix : simpl never.
#[local] Arguments parse_number : simpl never.
#[local] Arguments string_body : simpl never.
#[local] Arguments skip_ws : simpl never.

Lemma skip_ws_cons s c r :
  skip_ws s = String c r -> (String.length r < String.length s)%nat.
Proof. intros H. pose proof (skip_ws_le s) as L. rewrite H in L. simpl in L. lia. Qed.

Lemma parse_consumes fuel :
  (forall s v r, parse_value fuel s = Parsed v r ->
                 (String.length r < String.length s)%nat)
  /\ (forall s acc v r, parse_elements fuel s acc = Parsed v r ->
                        (String.length r < String.length s)%nat)
  /\ (forall s acc v r, parse_members fuel s acc = Parsed v r ->
                        (String.length r < String.length s)%nat).
Proof.
  induction fuel as [|fuel (IHv & IHe & IHm)].
  { repeat split; intros; discriminate. }
  repeat split.
  - intros s v r H. simpl in H.
    destruct (skip_ws s) as [|c r0] eqn:Hs; [discriminate|].
    apply skip_ws_cons in Hs.
    destruct (is_char c 91).
    { destruct (skip_ws r0) as [|c' r'] eqn:Hs'; [discriminate|].
      apply skip_ws_cons in Hs'.
      destruct (is_char c' 93).
      - injection H as <- <-. lia.
      - apply IHe in H. lia. }
    destruct (is_char c 123).
    { destruct (skip_ws r0) as [|c' r'] eqn:Hs'; [discriminate|].
      apply skip_ws_cons in Hs'.
      destruct (is_char c' 125).
      - injection H as <- <-. lia.
      - apply IHm in H. lia. }
    destruct (is_char c 34).
    { destruct (string_body None r0) as [[str rest]|] eqn:E; [|discriminate].
      injection H as <- <-. apply string_body_lt in E. lia. }
    destruct (is_char c 116).
    { destruct (strip_prefix "true" (String c r0)) as [rest|] eqn:E; [|discriminate].
      injection H as <- <-. apply strip_prefix_length in E. simpl in E. lia. }
    destruct (is_char c 102).
    { destruct (strip_prefix "false" (String c r0)) as [rest|] eqn:E; [|discriminate].
      injection H as <- <-. apply strip_prefix_length in E. simpl in E. lia. }
    destruct (is_char c 110).
    { destruct (strip_prefix "null" (String c r0)) as [rest|] eqn:E; [|discriminate].
      injection H as <- <-. apply strip_prefix_length in E. simpl in E. lia. }
    destruct (parse_number (String c r0)) as [[lexeme rest]|] eqn:E; [|discriminate].
    injection H as <- <-. apply parse_number_lt in E. simpl in E. lia.
  - intros s acc v r H. simpl in H.
    destruct (parse_value fuel s) as [v1 r1| |] eqn:E; try discriminate.
    apply IHv in E.
    destruct (skip_ws r1) as [|c r'] eqn:Hs; [discriminate|].
    apply skip_ws_cons in Hs.
    destruct (is_char c 44).
    { apply IHe in H. lia. }
    destruct (is_char c 93); [|discriminate].
    injection H as <- <-. lia.
  - intros s acc v r H. simpl in H.
    destruct (skip_ws s) as [|q r0] eqn:Hs; [discriminate|].
    apply skip_ws_cons in Hs.
    destruct (is_char q 34); [|discriminate].
    destruct (string_body None r0) as [[key r1]|] eqn:Ek; [|discriminate].
    apply string_body_lt in Ek.
    destruct (skip_ws r1) as [|colon r2] eqn:Hs1; [discriminate|].
    apply skip_ws_cons in Hs1.
    destruct (is_char colon 58); [|discriminate].
    destruct (parse_value fuel r2) as [v1 r3| |] eqn:E; try discriminate.
    apply IHv in E.
    destruct (skip_ws r3) as [|c r4] eqn:Hs3; [discriminate|].
    apply skip_ws_cons in Hs3.
    destruct (is_char c 44).
    { apply IHm in H. lia. }
    destruct (is_char c 125); [|discriminate].
    injection H as <- <-. lia.
Qed.

Lemma parse_value_consumes fuel s v r :
  parse_value fuel s = Parsed v r -> (String.length r < String.length s)%nat.
Proof. apply (proj1 (parse_consumes fuel)). Qed.

(** Fuel for twice the length of the text is never used up. *)
Lemma parse_enough_fuel fuel :
  (forall s, (2 * String.length s + 1 <= fuel)%nat -> parse_value fuel s <> OutOfFuel)
  /\ (forall s acc, (2 * String.length s + 2 <= fuel)%nat ->
                    parse_elements fuel s acc <> OutOfFuel)
  /\ (forall s acc, (2 * String.length s + 2 <= fuel)%nat ->
                    parse_members fuel s acc <> OutOfFuel).
Proof.
  induction fuel as [|fuel (IHv & IHe & IHm)].
  { repeat split; intros; lia. }
  repeat split.
  - intros s Hf. simpl.
    destruct (skip_ws s) as [|c r0] eqn:Hs; [discriminate|].
    apply skip_ws_cons in Hs.
    destruct (is_char c 91).
    { destruct (skip_ws r0) as [|c' r'] eqn:Hs'; [discriminate|].
      destruct (is_char c' 93); [discriminate|]. apply IHe. lia. }
    destruct (is_char c 123).
    { destruct (skip_ws r0) as [|c' r'] eqn:Hs'; [discriminate|].
      destruct (is_char c' 125); [discriminate|]. apply IHm. lia. }
    destruct (is_char c 34).
    { destruct (string_body None r0) as [[str rest]|]; discriminate. }
    destruct (is_char c 116).
    { destruct (strip_prefix "true" (String c r0)); discriminate. }
    destruct (is_char c 102).
    { destruct (strip_prefix "false" (String c r0)); discriminate. }
    destruct (is_char c 110).
    { destruct (strip_prefix "null" (String c r0)); discriminate. }
    destruct (parse_number (String c r0)) as [[lexeme rest]|]; discriminate.
  - intros s acc Hf. simpl.
    destruct (parse_value fuel s) as [v1 r1| |] eqn:E; try discriminate.
    + apply parse_value_consumes in E.
      destruct (skip_ws r1) as [|c r'] eqn:Hs; [discriminate|].
      apply skip_ws_cons in Hs.
      destruct (is_char c 44). { apply IHe. lia. }
      destruct (is_char c 93); discriminate.
    + exfalso. revert E. apply IHv. lia.
  - intros s acc Hf. simpl.
    destruct (skip_ws s) as [|q r0] eqn:Hs; [discriminate|].
    apply skip_ws_cons in Hs.
    destruct (is_char q 34); [|discriminate].
    destruct (string_body None r0) as [[key r1]|] eqn:Ek; [|discriminate].
    apply string_body_lt in Ek.
    destruct (skip_ws r1) as [|colon r2] eqn:Hs1; [discriminate|].
    apply skip_ws_cons in Hs1.
    destruct (is_char colon 58); [|discriminate].
    destruct (parse_value fuel r2) as [v1 r3| |] eqn:E; try discriminate.
    + apply parse_value_consumes in E.
      destruct (skip_ws r3) as [|c r4] eqn:Hs3; [discriminate|].
      apply skip_ws_cons in Hs3.
      destruct (is_char c 44). { apply IHm. lia. }
      destruct (is_char c 125); discriminate.
    + exfalso. revert E. apply IHv. lia.
Qed.

(** [JSON.parse] is decided with the fuel it is given: [None] is a
    syntax error of the text. *)
Lemma parse_never_out_of_fuel text :
  parse_with (fuel_for text) text <> OutOfFuel.
Proof.
  unfold parse_with, fuel_for.
  destruct (parse_value (2 * String.length text + 1) text) as [v rest| |] eqn:E.
  - destruct (skip_ws rest); discriminate.
  - discriminate.
  - exfalso. revert E. apply parse_enough_fuel. lia.
Qed.

Lemma parse_None text :
  parse text = None <-> parse_with (fuel_for text) text = SyntaxError.
Proof.
  unfold parse. pose proof (parse_never_out_of_fuel text) as H.
  destruct (parse_with (fuel_for text) text); split; congruence.
Qed.

End JSONFuel.

(** ** Numbers *)

Section Numbers.

Lemma double_safe z : Z.abs z <= 2 ^ 53 -> JS.double z = z.
Proof.
  intros H. unfold JS.double.
  destruct (Z.ltb_spec (Z.abs z) (2 ^ 53)) as [_|Hge]; [reflexivity|].
  assert (E : Z.abs z = 2 ^ 53) by lia.
  rewrite E. destruct (Z.abs_eq_or_opp z) as [Hz|Hz]; rewrite Hz in E.
  - rewrite E. reflexivity.
  - assert (z = - 2 ^ 53) by lia. subst z. reflexivity.
Qed.

Lemma in_integer_safe z : Pg.in_integer z = true -> Z.abs z <= 2 ^ 53.
Proof. unfold Pg.in_integer. intros H. apply andb_true_iff in H as [H1 H2]. lia. Qed.

Lemma integer_Int z : Pg.in_integer z = true -> Pg.integer (JS.Int z) = Some z.
Proof.
  intros H. unfold Pg.integer. rewrite (double_safe z (in_integer_safe z H)), H. reflexivity.
Qed.

Lemma isInt_Int z : Z.abs z <= 2 ^ 53 -> JS.isInt (JS.Int z) = true.
Proof.
  intros H. unfold JS.isInt. rewrite (double_safe z H). apply Z.ltb_lt.
  assert (2 ^ 53 < 10 ^ 21) by reflexivity. lia.
Qed.

Lemma number_of_Int z : Z.abs z <= 2 ^ 53 -> JS.number_of (JS.Int z) = Some z.
Proof. intros H. unfold JS.number_of. rewrite (double_safe z H). reflexivity. Qed.

Lemma element_Int z : Z.abs z <= 2 ^ 53 -> JS.element (JS.Int z) = Some z.
Proof. intros H. unfold JS.element. rewrite (double_safe z H). reflexivity. Qed.

Lemma add_one_Int z : - 2 ^ 53 <= z < 2 ^ 53 -> JS.add_one (JS.Int z) = JS.Int (z + 1).
Proof.
  intros H. unfold JS.add_one. rewrite (double_safe z) by lia.
  rewrite (double_safe (z + 1)) by lia. reflexivity.
Qed.

Lemma at_least_Int z n : Z.abs z <= 2 ^ 53 -> JS.at_least (JS.Int z) n = (n <=? z).
Proof. intros H. unfold JS.at_least. rewrite (number_of_Int z H). reflexivity. Qed.

End Numbers.

(** ** Arrays *)

Section Arrays.

Lemma array_set_inside (a : text_array) i v :
  0 <= i -> (Z.to_nat i < length a)%nat ->
  array_set a i v = <[Z.to_nat i := Some v]> a.
Proof.
  intros H0 Hlt. unfold array_set.
  destruct (Z.leb_spec 0 i); [|lia].
  destruct (Nat.ltb_spec (Z.to_nat i) (length a)); [reflexivity|lia].
Qed.

Lemma array_get_Some (a : text_array) i x :
  array_get a i = Some x -> 0 <= i /\ a !! Z.to_nat i = Some x.
Proof.
  unfold array_get. destruct (Z.leb_spec 0 i); [auto|discriminate].
Qed.

Lemma array_get_lookup (a : text_array) i : 0 <= i -> array_get a i = a !! Z.to_nat i.
Proof. intros H. unfold array_get. destruct (Z.leb_spec 0 i); [reflexivity|lia]. Qed.


Lemma array_get_insert_ne (a : text_array) i j x :
  0 <= i -> j <> i ->
  array_get (<[Z.to_nat i := x]> a) j = array_get a j.
Proof.
  intros Hi Hne. unfold array_get.
  destruct (Z.leb_spec 0 j); [|reflexivity].
  apply list_lookup_insert_ne. lia.
Qed.

(** [length_of_set] is the length of the array after the assignment. *)
Lemma length_array_set (a : text_array) i v :
  Z.of_nat (length (array_set a i v)) = length_of_set a i.
Proof.
  unfold array_set, length_of_set.
  destruct (Z.leb_spec 0 i) as [H0|H0].
  - destruct (Nat.ltb_spec (Z.to_nat i) (length a)) as [Hlt|Hge].
    + destruct (Z.leb_spec (Z.of_nat (length a)) i); [lia|]. cbn [andb].
      unfold text_array. rewrite length_insert. reflexivity.
    + destruct (Z.leb_spec (Z.of_nat (length a)) i); [|lia]. cbn [andb].
      destruct (Z.ltb_spec i (2 ^ 32 - 1)); [|reflexivity].
      unfold text_array. rewrite !length_app, length_replicate. cbn [length]. lia.
  - destruct (Z.leb_spec (Z.of_nat (length a)) i); [lia|]. reflexivity.
Qed.

Lemma length_property_set (a : text_array) f v :
  Z.of_nat (length (property_set a f v)) = length_after a f.
Proof.
  unfold property_set, length_after. destruct (JS.element f); [apply length_array_set|reflexivity].
Qed.

Lemma text_array_Forall (a : text_array) :
  Pg.text_array a = true <-> Forall (fun e => Pg.nullable_text e = true) a.
Proof.
  unfold Pg.text_array. induction a as [|e a IH]; cbn [forallb].
  - split; [constructor|reflexivity].
  - rewrite andb_true_iff, IH. split.
    + intros [He Ha]. constructor; assumption.
    + intros H. apply Forall_cons in H. exact H.
Qed.

(** Putting a text without U+0000 into an array without one gives such
    an array. *)
Lemma text_array_set (a : text_array) i v :
  Pg.text_array a = true -> Pg.text v = true -> Pg.text_array (array_set a i v) = true.
Proof.
  rewrite !text_array_Forall. intros Ha Hv. unfold array_set.
  destruct (0 <=? i); [|exact Ha].
  destruct (_ <? _)%nat; [apply Forall_insert; assumption|].
  destruct (i <? 2 ^ 32 - 1); [|exact Ha].
  apply Forall_app. split; [exact Ha|]. apply Forall_app. split.
  - apply Forall_replicate. reflexivity.
  - constructor; [exact Hv|constructor].
Qed.

Lemma text_property_set (a : text_array) f v :
  Pg.text_array a = true -> Pg.text v = true -> Pg.text_array (property_set a f v) = true.
Proof.
  intros Ha Hv. unfold property_set. destruct (JS.element f); [apply text_array_set; assumption|exact Ha].
Qed.

(** An array that holds a text with U+0000 is none the database takes. *)
Lemma text_array_lookup (a : text_array) n v :
  a !! n = Some (Some v) -> Pg.text_array a = true -> Pg.text v = true.
Proof.
  intros Hl Ha. apply text_array_Forall in Ha.
  rewrite Forall_lookup in Ha. exact (Ha _ _ Hl).
Qed.

End Arrays.

(** ** Assignment to an element of an array *)

Section ArraySet.

Variables (a : text_array) (i : Z) (v : string).

Lemma array_set_negative : i < 0 -> array_set a i v = a.
Proof.
  intros H. unfold array_set. destruct (Z.leb_spec 0 i); [lia|reflexivity].
Qed.

Lemma array_set_beyond :
  array_index i -> (length a <= Z.to_nat i)%nat ->
  array_set a i v = a ++ replicate (Z.to_nat i - length a) None ++ [Some v].
Proof.
  intros [H0 H1] Hlen. unfold array_set.
  destruct (Z.leb_spec 0 i); [|lia].
  destruct (Nat.ltb_spec (Z.to_nat i) (length a)); [lia|].
  destruct (Z.ltb_spec i (2 ^ 32 - 1)); [reflexivity|lia].
Qed.

Lemma array_set_length :
  array_index i -> length (array_set a i v) = Nat.max (length a) (S (Z.to_nat i)).
Proof.
  intros Hi. destruct (Nat.lt_ge_cases (Z.to_nat i) (length a)) as [Hlt|Hge].
  - rewrite array_set_inside by (unfold array_index in Hi; lia).
    unfold text_array. rewrite length_insert. lia.
  - rewrite array_set_beyond by assumption. unfold text_array.
    rewrite !length_app, length_replicate. simpl. lia.
Qed.

Lemma array_set_lookup_same :
  array_index i -> array_set a i v !! Z.to_nat i = Some (Some v).
Proof.
  intros Hi. destruct (Nat.lt_ge_cases (Z.to_nat i) (length a)) as [Hlt|Hge].
  - rewrite array_set_inside by (unfold array_index in Hi; lia).
    apply list_lookup_insert_eq. exact Hlt.
  - rewrite array_set_beyond by assumption. unfold text_array.
    rewrite lookup_app_r by lia.
    rewrite lookup_app_r by (rewrite length_replicate; lia).
    rewrite length_replicate.
    replace (Z.to_nat i - length a - (Z.to_nat i - length a))%nat with O by lia.
    reflexivity.
Qed.

Lemma array_set_lookup_old j :
  array_index i -> j <> Z.to_nat i -> (j < length a)%nat ->
  array_set a i v !! j = a !! j.
Proof.
  intros Hi Hne Hj. destruct (Nat.lt_ge_cases (Z.to_nat i) (length a)) as [Hlt|Hge].
  - rewrite array_set_inside by (unfold array_index in Hi; lia).
    apply list_lookup_insert_ne. congruence.
  - rewrite array_set_beyond by assumption. unfold text_array. apply lookup_app_l. exact Hj.
Qed.

Lemma array_set_lookup_hole j :
  array_index i -> (length a <= j < Z.to_nat i)%nat ->
  array_set a i v !! j = Some None.
Proof.
  intros Hi Hj. rewrite array_set_beyond by (try assumption; lia). unfold text_array.
  rewrite lookup_app_r by lia. rewrite lookup_app_l by (rewrite length_replicate; lia).
  apply lookup_replicate_2. lia.
Qed.

(** Assigning the same element again changes nothing. *)
Lemma array_set_twice : array_set (array_set a i v) i v = array_set a i v.
Proof.
  destruct (Z.lt_ge_cases i 0) as [Hneg|H0].
  { rewrite !array_set_negative by exact Hneg. reflexivity. }
  destruct (Z.lt_ge_cases i (2 ^ 32 - 1)) as [Hidx|Hbig].
  - assert (Hi : array_index i) by (split; assumption).
    pose proof (array_set_length Hi) as Hlen.
    rewrite (array_set_inside (array_set a i v)) by lia.
    apply list_insert_id. apply array_set_lookup_same. exact Hi.
  - destruct (Nat.lt_ge_cases (Z.to_nat i) (length a)) as [Hlt|Hge].
    + rewrite (array_set_inside a) by lia.
      rewrite array_set_inside by (unfold text_array; rewrite ?length_insert; lia).
      apply list_insert_insert_eq.
    + assert (E : array_set a i v = a).
      { unfold array_set. destruct (Z.leb_spec 0 i); [|reflexivity].
        destruct (Nat.ltb_spec (Z.to_nat i) (length a)); [lia|].
        destruct (Z.ltb_spec i (2 ^ 32 - 1)); [lia|reflexivity]. }
      rewrite !E. reflexivity.
Qed.

End ArraySet.


(** ** The table *)

Section Store.

Lemma select_session_Some db id userId r :
  select_session db id userId = Some r
  <-> interview_sessions db !! id = Some r /\ Session.user_id r = userId.
Proof.
  unfold select_session.
  destruct (interview_sessions db !! id) as [row|]; [|split; [discriminate|intros [? _]; discriminate]].
  destruct (Z.eqb_spec (Session.user_id row) userId) as [E|E]; split.
  - intros [= ->]. auto.
  - intros [[= ->] _]. reflexivity.
  - discriminate.
  - intros [[= ->] ?]. contradiction.
Qed.

Lemma select_session_None db id userId :
  select_session db id userId = None <-> absent_or_foreign db userId id.
Proof.
  unfold select_session, absent_or_foreign.
  destruct (interview_sessions db !! id) as [row|].
  - destruct (Z.eqb_spec (Session.user_id row) userId) as [E|E]; split.
    + discriminate.
    + intros [?|(r & [= <-] & Hr)]; [discriminate|contradiction].
    + intros _. right. eauto.
    + reflexivity.
  - split; auto.
Qed.

Lemma lookup_update_session f id db :
  interview_sessions (update_session f id db) !! id
  = f <$> interview_sessions db !! id.
Proof. unfold update_session. simpl. rewrite lookup_alter. case_decide; congruence. Qed.

Lemma lookup_update_session_ne f id id' db :
  id <> id' ->
  interview_sessions (update_session f id db) !! id' = interview_sessions db !! id'.
Proof. intros Hne. unfold update_session. simpl. rewrite lookup_alter. case_decide; congruence. Qed.

End Store.

(** ** [POST /answer], step by step *)

Section AnswerSteps.

Variables (capacity : Z) (db : database) (userId : Z) (body : Answer.body).
Variables (feedback_reply score_reply : ai_reply) (now : Z).
Variables (sid : Z) (r : Session.t).

Let qi := Answer.question_index body.
Let answers := property_set (answers_of r) qi (JS.trim (Answer.answer body)).
Let total := Z.of_nat (length (questions_of r)).
Let db1 := update_session (Session.set_answers_given answers) sid db.
Let feedback := generateInterviewFeedback feedback_reply.

Hypothesis found : finds db userId body sid r.

(** The handler from the point where it has the row. *)
Lemma postAnswer_found :
  postAnswer capacity db userId body feedback_reply score_reply now
  = if capacity <? length_after (answers_of r) qi then (Crashed, db)
    else if negb (Pg.text_array answers) then (answer_failed, db)
    else if JS.at_least qi (total - 1) then
      match calculateInterviewScore score_reply with
      | Some score =>
          if Pg.nullable_text feedback
          then (Completed feedback score,
                update_session (Session.set_completion feedback score now) sid db1)
          else (answer_failed, db1)
      | None => (answer_failed, db1)
      end
    else (Recorded (property_get (questions_of r) (JS.add_one qi)) (JS.add_one qi) total, db1).
Proof.
  destruct found as (Hv & Hid & Hl & Ho & _).
  unfold postAnswer. rewrite Hv, Hid.
  rewrite (proj2 (select_session_Some db sid userId r) (conj Hl Ho)).
  reflexivity.
Qed.

(** An array too long for the process ends it; nothing is written. *)
Lemma postAnswer_crashed :
  capacity < length_after (answers_of r) qi ->
  postAnswer capacity db userId body feedback_reply score_reply now = (Crashed, db).
Proof.
  intros H. rewrite postAnswer_found.
  destruct (Z.ltb_spec capacity (length_after (answers_of r) qi)); [reflexivity|lia].
Qed.

(** An answer that holds U+0000 is refused; nothing is written. *)
Lemma postAnswer_refused :
  length_after (answers_of r) qi <= capacity ->
  Pg.text_array answers = false ->
  postAnswer capacity db userId body feedback_reply score_reply now = (answer_failed, db).
Proof.
  intros Hc H. rewrite postAnswer_found.
  destruct (Z.ltb_spec capacity (length_after (answers_of r) qi)); [lia|].
  rewrite H. reflexivity.
Qed.

Hypothesis ok : writable capacity r body.

Lemma writable_answers : Pg.text_array answers = true.
Proof. destruct ok as (_ & Ha & Hv). apply text_property_set; assumption. Qed.

Lemma postAnswer_written :
  postAnswer capacity db userId body feedback_reply score_reply now
  = if JS.at_least qi (total - 1) then
      match calculateInterviewScore score_reply with
      | Some score =>
          if Pg.nullable_text feedback
          then (Completed feedback score,
                update_session (Session.set_completion feedback score now) sid db1)
          else (answer_failed, db1)
      | None => (answer_failed, db1)
      end
    else (Recorded (property_get (questions_of r) (JS.add_one qi)) (JS.add_one qi) total, db1).
Proof.
  rewrite postAnswer_found.
  destruct ok as (Hc & _ & _). fold qi in Hc.
  destruct (Z.ltb_spec capacity (length_after (answers_of r) qi)); [lia|].
  rewrite writable_answers. reflexivity.
Qed.

(** Before the last question: the answer is stored and the next question
    is sent. *)
Lemma postAnswer_recorded :
  JS.at_least qi (total - 1) = false ->
  postAnswer capacity db userId body feedback_reply score_reply now
  = (Recorded (property_get (questions_of r) (JS.add_one qi)) (JS.add_one qi) total, db1).
Proof. intros H. rewrite postAnswer_written, H. reflexivity. Qed.

(** At the last question or beyond: both generators run and the
    completion fields are written. *)
Lemma postAnswer_completed :
  JS.at_least qi (total - 1) = true ->
  reportable feedback_reply ->
  exists score,
    calculateInterviewScore score_reply = Some score
    /\ 1 <= score <= 100
    /\ postAnswer capacity db userId body feedback_reply score_reply now
       = (Completed feedback score,
          update_session (Session.set_completion feedback score now) sid db1).
Proof.
  intros H Hf. destruct (score_in_range score_reply) as (score & Hs & Hr).
  exists score. split; [exact Hs|]. split; [exact Hr|].
  rewrite postAnswer_written, H, Hs. unfold reportable in Hf. fold feedback in Hf.
  rewrite Hf. reflexivity.
Qed.

(** At the last question or beyond, with a feedback the database refuses:
    the answer stays stored, the session is not completed. *)
Lemma postAnswer_unreported :
  JS.at_least qi (total - 1) = true ->
  ~ reportable feedback_reply ->
  postAnswer capacity db userId body feedback_reply score_reply now = (answer_failed, db1).
Proof.
  intros H Hf. rewrite postAnswer_written, H.
  destruct (calculateInterviewScore score_reply); [|reflexivity].
  unfold reportable in Hf. fold feedback in Hf.
  destruct (Pg.nullable_text feedback); [contradiction Hf; reflexivity|reflexivity].
Qed.

Lemma lookup_after_answers :
  interview_sessions db1 !! sid = Some (Session.set_answers_given answers r).
Proof.
  destruct found as (_ & _ & Hl & _). subst db1.
  rewrite lookup_update_session, Hl. reflexivity.
Qed.

Lemma lookup_after_completion fb sc :
  interview_sessions (update_session (Session.set_completion fb sc now) sid db1) !! sid
  = Some (Session.set_completion fb sc now (Session.set_answers_given answers r)).
Proof. rewrite lookup_update_session, lookup_after_answers. reflexivity. Qed.

End AnswerSteps.

(** ** An index that is a number *)

Section NumberIndex.

Variables (body : Answer.body) (i : Z).
Hypothesis number : Answer.question_index body = JS.Int i.
Hypothesis exact : Z.abs i <= 2 ^ 53.

Lemma property_set_Int (a : text_array) v :
  property_set a (Answer.question_index body) v = array_set a i v.
Proof. unfold property_set. rewrite number, (element_Int i exact). reflexivity. Qed.

Lemma length_after_Int (a : text_array) :
  length_after a (Answer.question_index body) = length_of_set a i.
Proof. unfold length_after. rewrite number, (element_Int i exact). reflexivity. Qed.

Lemma at_least_index n : JS.at_least (Answer.question_index body) n = (n <=? i).
Proof. rewrite number. apply at_least_Int. exact exact. Qed.

Lemma next_index : i < 2 ^ 53 -> JS.add_one (Answer.question_index body) = JS.Int (i + 1).
Proof. intros H. rewrite number. apply add_one_Int. lia. Qed.

Lemma next_element (a : text_array) :
  i < 2 ^ 53 ->
  property_get a (JS.add_one (Answer.question_index body)) = array_get a (i + 1).
Proof.
  intros H. rewrite (next_index H). unfold property_get.
  rewrite element_Int by lia. reflexivity.
Qed.

End NumberIndex.

(** ** Claims about [POST /answer] *)



Example next_question_ex :
  fst (postAnswer 1000 fresh_db 7 (say 0 "Because I like databases.") CallFailed CallFailed 3000)
  = Recorded (Some (Some "Describe a hard bug.")) (JS.Int 1) 3.
Proof. reflexivity. Qed.

(** Outside the valid indexes and the types of the body.  At the index
    -9007199254740994 the progress is not [i + 1]: the sum is rounded to a
    double.  At the index 0 written as the string [0], which the validator
    lets through, [i + 1] is the string [01], and no question is sent
    although [questions[1]] is there. *)
Example next_question_rounded_ex :
  fst (postAnswer 1000 fresh_db 7 (say (-9007199254740994) "Far out.")
                  CallFailed CallFailed 3000)
  = Recorded None (JS.Int (-9007199254740992)) 3.
Proof. vm_compute. reflexivity. Qed.

Example next_question_text_ex :
  validate_answer (say_text "0" "Because.") = []
  /\ fst (postAnswer 1000 fresh_db 7 (say_text "0" "Because.") CallFailed CallFailed 3000)
     = Recorded None (JS.Text "01") 3.
Proof. vm_compute. split; reflexivity. Qed.


(** C8, as the code has it. For an Active session and an index
    [i < N - 1], sent as a number, that already holds an answer (in a
    request that passes validation and finds the session of the caller,
    whose answers are an array that was stored): when the new answer holds
    no U+0000, submitting again at [i] replaces [answers[i]] by the new
    answer (the last write wins), the session stays Active, and every other
    answer, every other field of the row and every other row is unchanged;
    when it holds U+0000, the database refuses the UPDATE, the response is a
    500 and the table is unchanged, [answers[i]] included. *)
Theorem resubmit_overwrites
    (capacity : Z) (db : database) (userId : Z) (body : Answer.body)
    (feedback_reply score_reply : ai_reply) (now : Z)
    (sid : Z) (r : Session.t) (i : Z) (old : string) :
  finds db userId body sid r ->
  Session.Active r ->
  Answer.question_index body = JS.Int i ->
  i < Z.of_nat (length (questions_of r)) - 1 ->
  array_get (answers_of r) i = Some (Some old) ->
  stored capacity r ->
  (Pg.text (JS.trim (Answer.answer body)) = true ->
   exists resp db' answers',
     postAnswer capacity db userId body feedback_reply score_reply now = (resp, db')
     /\ status resp = Some 200
     /\ interview_sessions db' !! sid
        = Some (Session.mk (Session.id r) (Session.user_id r) (Session.resume_url r)
                  (Session.resume_text r) (Session.jd_text r) (Session.focus_areas r)
                  (Session.difficulty r) (Session.role_type r) (Session.feedback r)
                  (Session.score r) (Session.questions_asked r) (Some answers')
                  (Session.created_at r) None)
     /\ answers' !! Z.to_nat i = Some (Some (JS.trim (Answer.answer body)))
     /\ (forall j, j <> Z.to_nat i -> answers' !! j = answers_of r !! j)
     /\ length answers' = length (answers_of r)
     /\ (forall id', id' <> sid ->
                     interview_sessions db' !! id' = interview_sessions db !! id')
     /\ next_id db' = next_id db)
  /\ (Pg.text (JS.trim (Answer.answer body)) = false ->
      postAnswer capacity db userId body feedback_reply score_reply now = (answer_failed, db)
      /\ status answer_failed = Some 500).
Proof.
  intros Hf Ha Hn Hlt Hold [Hcap Hclean].
  apply array_get_Some in Hold as [H0 Hold].
  pose proof (lookup_lt_Some _ _ _ Hold) as Hlen.
  assert (Hbig : Z.of_nat (length (questions_of r)) < 2 ^ 32) by apply Hf.
  assert (H32 : 2 ^ 32 < 2 ^ 53) by reflexivity.
  assert (Hexact : Z.abs i <= 2 ^ 53) by lia.
  assert (Hafter : length_after (answers_of r) (Answer.question_index body)
                   = Z.of_nat (length (answers_of r))).
  { rewrite (length_after_Int body i Hn Hexact). unfold length_of_set.
    destruct (Z.leb_spec (Z.of_nat (length (answers_of r))) i); [lia|reflexivity]. }
  assert (Hset : property_set (answers_of r) (Answer.question_index body)
                              (JS.trim (Answer.answer body))
                 = <[Z.to_nat i := Some (JS.trim (Answer.answer body))]> (answers_of r)).
  { rewrite (property_set_Int body i Hn Hexact). apply array_set_inside; assumption. }
  split.
  - intros Htext.
    assert (Hw : writable capacity r body).
    { split; [rewrite Hafter; exact Hcap|split; assumption]. }
    pose proof (postAnswer_recorded capacity db userId body feedback_reply score_reply now
                  sid r Hf Hw) as Hp.
    cbv zeta in Hp. rewrite (at_least_index body i Hn Hexact) in Hp.
    destruct (Z.leb_spec (Z.of_nat (length (questions_of r)) - 1) i) as [Hge|_]; [lia|].
    specialize (Hp eq_refl). rewrite Hset in Hp.
    eexists _, _, _. split; [exact Hp|].
    split; [reflexivity|].
    split; [|split; [|split; [|split; [|split]]]].
    + rewrite lookup_update_session. destruct Hf as (_ & _ & -> & _). cbn [fmap option_fmap option_map].
      unfold Session.set_answers_given. rewrite Ha. reflexivity.
    + apply list_lookup_insert_eq. exact Hlen.
    + intros j Hj. apply list_lookup_insert_ne. congruence.
    + apply length_insert.
    + intros id' Hne. apply lookup_update_session_ne. congruence.
    + reflexivity.
  - intros Htext. split; [|reflexivity].
    apply (postAnswer_refused capacity db userId body feedback_reply score_reply now sid r Hf).
    + rewrite Hafter. exact Hcap.
    + rewrite Hset.
      destruct (Pg.text_array (<[Z.to_nat i := Some (JS.trim (Answer.answer body))]>
                                 (answers_of r))) eqn:E; [|reflexivity].
      rewrite <- Htext. symmetry.
      apply (text_array_lookup _ (Z.to_nat i) _ (list_lookup_insert_eq _ _ _ Hlen) E).
Qed.

(** C8 at a second answer to the first of three questions. *)
Lemma resubmit_overwrites_witness :
  (Pg.text (JS.trim "second try") = true ->
   exists resp db' answers',
     postAnswer 1000 halfway_db 7 (say 0 "second try") CallFailed CallFailed 3000 = (resp, db')
     /\ status resp = Some 200
     /\ interview_sessions db' !! 1
        = Some (Session.mk 1 7 "" "" "Backend engineer role" (Some []) "beginner" None
                  None None (Some three_questions) (Some answers') 1000 None)
     /\ answers' !! Z.to_nat 0 = Some (Some (JS.trim "second try"))
     /\ (forall j, j <> Z.to_nat 0 -> answers' !! j = answers_of halfway_row !! j)
     /\ length answers' = length (answers_of halfway_row)
     /\ (forall id', id' <> 1 ->
                     interview_sessions db' !! id' = interview_sessions halfway_db !! id')
     /\ next_id db' = next_id halfway_db)
  /\ (Pg.text (JS.trim "second try") = false ->
      postAnswer 1000 halfway_db 7 (say 0 "second try") CallFailed CallFailed 3000
      = (answer_failed, halfway_db)
      /\ status answer_failed = Some 500).
Proof.
  apply (resubmit_overwrites 1000 halfway_db 7 (say 0 "second try") CallFailed CallFailed 3000
           1 halfway_row 0 "first try");
    [repeat split | reflexivity | reflexivity | vm_compute; reflexivity | reflexivity
    | split; [vm_compute; discriminate|reflexivity]].
Defined.

(** C8, as stated, fails. The first of three questions holds the answer
    [first try]; a new answer that holds U+0000 is answered with a 500, and
    [answers[0]] is still [first try]. *)
Lemma resubmit_counterexample :
  Session.Active halfway_row
  /\ 0 < Z.of_nat (length (questions_of halfway_row)) - 1
  /\ answers_of halfway_row !! 0%nat = Some (Some "first try")
  /\ JS.is_blank with_nul = false
  /\ let again := postAnswer 1000 halfway_db 7 (say 0 with_nul) CallFailed CallFailed 3000 in
     fst again = Failed "Failed to submit answer"
     /\ status (fst again) = Some 500
     /\ Session.answers_given <$> interview_sessions (snd again) !! 1
        = Some (Some [Some "first try"]).
Proof.
  vm_compute. repeat split; discriminate.
Qed.

(** C10, as the code has it. For a session whose stored questions list is
    null or empty, a [submit_answer] whose [question_index] converts to a
    number [d >= -1] (in a request that passes validation, finds the
    session of the caller and can be written, with a feedback the database
    takes) takes the completion path: the feedback and the score are
    generated, written to the row with [completed_at], and sent back with
    [completed: true]. *)
Theorem no_questions_completes_at_once
    (capacity : Z) (db : database) (userId : Z) (body : Answer.body)
    (feedback_reply score_reply : ai_reply) (now : Z)
    (sid : Z) (r : Session.t) (d : Z) :
  finds db userId body sid r ->
  Session.questions_asked r = None \/ Session.questions_asked r = Some [] ->
  JS.number_of (Answer.question_index body) = Some d ->
  -1 <= d ->
  writable capacity r body ->
  reportable feedback_reply ->
  exists score db' r',
    calculateInterviewScore score_reply = Some score
    /\ postAnswer capacity db userId body feedback_reply score_reply now
       = (Completed (generateInterviewFeedback feedback_reply) score, db')
    /\ interview_sessions db' !! sid = Some r'
    /\ Session.Completed r'
    /\ Session.completed_at r' = Some now
    /\ Session.feedback r' = generateInterviewFeedback feedback_reply
    /\ Session.score r' = Some score.
Proof.
  intros Hf Hq Hd Hi Hw Hr.
  assert (Hn : JS.at_least (Answer.question_index body)
                 (Z.of_nat (length (questions_of r)) - 1) = true).
  { unfold JS.at_least. rewrite Hd. apply Z.leb_le.
    unfold questions_of. destruct Hq as [-> | ->]; cbn; lia. }
  destruct (postAnswer_completed capacity db userId body feedback_reply score_reply now
              sid r Hf Hw Hn Hr) as (score & Hs & _ & Hp).
  eexists score, _, _.
  split; [exact Hs|]. split; [exact Hp|].
  split; [apply (lookup_after_completion db userId body now sid r Hf)|].
  repeat split. discriminate.
Qed.

(** C10 at a session whose questions are NULL. *)
Lemma no_questions_completes_at_once_witness :
  exists score db' r',
    calculateInterviewScore (CandidateText "88") = Some score
    /\ postAnswer 1000 unasked_db 7 (say 0 "Hello?") CallFailed (CandidateText "88") 3000
       = (Completed (generateInterviewFeedback CallFailed) score, db')
    /\ interview_sessions db' !! 1 = Some r'
    /\ Session.Completed r'
    /\ Session.completed_at r' = Some 3000
    /\ Session.feedback r' = generateInterviewFeedback CallFailed
    /\ Session.score r' = Some score.
Proof.
  apply (no_questions_completes_at_once 1000 unasked_db 7 (say 0 "Hello?") CallFailed
           (CandidateText "88") 3000 1 unasked_row 0);
    [repeat split | left; reflexivity | reflexivity | vm_compute; discriminate
    | repeat split; vm_compute; discriminate | reflexivity].
Defined.

(** C10, as stated, fails, on a session whose questions are NULL.  The
    index [10^21] is not below -1, but [isInt] refuses a number that is
    written with an exponent: the response is a 400.  At the index
    120000000 the array of answers is longer than a process with room for
    100000000 elements can write, and the process ends.  An answer that
    holds U+0000 is answered with a 500.  In none of these cases the
    session is completed.  A feedback that holds U+0000 is answered with a
    500 as well: the answer is stored, the session is not completed. *)
Lemma no_questions_counterexample :
  Session.questions_asked unasked_row = None
  /\ -1 <= 10 ^ 21
  /\ postAnswer 1000 unasked_db 7 (say (10 ^ 21) "Hello?") CallFailed CallFailed 3000
     = (BadRequest ["Question index required"], unasked_db)
  /\ postAnswer 100000000 unasked_db 7 (say 120000000 "Hello?") CallFailed CallFailed 3000
     = (Crashed, unasked_db)
  /\ postAnswer 1000 unasked_db 7 (say 0 with_nul) CallFailed CallFailed 3000
     = (Failed "Failed to submit answer", unasked_db)
  /\ let late := postAnswer 1000 unasked_db 7 (say 0 "Hello?") (CandidateText with_nul)
                            CallFailed 3000 in
     fst late = Failed "Failed to submit answer"
     /\ Session.answers_given <$> interview_sessions (snd late) !! 1
        = Some (Some [Some "Hello?"])
     /\ Session.completed_at <$> interview_sessions (snd late) !! 1 = Some None.
Proof.
  vm_compute. repeat split; discriminate.
Qed.

(** ** Submitting again *)

Section Again.

Lemma length_of_set_again (a : text_array) i v :
  length_of_set (array_set a i v) i = length_of_set a i.
Proof.
  unfold length_of_set at 1. rewrite length_array_set. unfold length_of_set.
  destruct (Z.leb_spec (Z.of_nat (length a)) i) as [H1|H1];
    destruct (Z.ltb_spec i (2 ^ 32 - 1)) as [H2|H2]; cbn [andb];
    repeat match goal with
           | |- context [?x <=? ?y] => destruct (Z.leb_spec x y); try lia
           end; reflexivity.
Qed.

Lemma length_after_again (a : text_array) f v :
  length_after (property_set a f v) f = length_after a f.
Proof.
  unfold length_after, property_set.
  destruct (JS.element f); [apply length_of_set_again|reflexivity].
Qed.

Variables (capacity : Z) (db : database) (userId : Z) (body : Answer.body).
Variables (sid : Z) (r : Session.t).

Let answers := property_set (answers_of r) (Answer.question_index body)
                            (JS.trim (Answer.answer body)).

Hypothesis found : finds db userId body sid r.
Hypothesis ok : writable capacity r body.

(** Once the answer is stored, the same request finds the row again and
    can be written again, whatever else the handler wrote. *)
Lemma finds_again db' r' :
  interview_sessions db' !! sid = Some r' ->
  Session.user_id r' = Session.user_id r ->
  Session.questions_asked r' = Session.questions_asked r ->
  Session.answers_given r' = Some answers ->
  finds db' userId body sid r' /\ writable capacity r' body.
Proof.
  intros Hl Hu Hq Ha.
  destruct found as (Hv & Hid & _ & Ho & Hbig), ok as (Hc & Hclean & Htext).
  assert (Ea : answers_of r' = answers) by (unfold answers_of; rewrite Ha; reflexivity).
  assert (Eq : questions_of r' = questions_of r) by (unfold questions_of; rewrite Hq; reflexivity).
  split.
  - repeat split; try assumption; [congruence|rewrite Eq; exact Hbig].
  - unfold writable. rewrite Ea. repeat split.
    + subst answers. rewrite length_after_again. exact Hc.
    + apply text_property_set; assumption.
    + exact Htext.
Qed.

End Again.

(** C2, as the code has it. For an Active session with N questions and a
    valid index [0 <= i <= N - 1], sent as a number (in a request that
    passes validation, finds the session of the caller and can be written,
    with a feedback the database takes), [submit_answer] leaves the session
    Completed if and only if [i = N - 1], whatever answers the session
    holds at the other indexes; it then writes the generated feedback, the
    score and [completed_at].  This is not limited to once per session: the
    same request, sent again, writes them again. *)
Theorem completes_at_last_index
    (capacity : Z) (db : database) (userId : Z) (body : Answer.body)
    (feedback_reply score_reply : ai_reply) (now : Z)
    (sid : Z) (r : Session.t) (i : Z) :
  finds db userId body sid r ->
  Session.Active r ->
  Answer.question_index body = JS.Int i ->
  0 <= i < Z.of_nat (length (questions_of r)) ->
  writable capacity r body ->
  reportable feedback_reply ->
  exists resp db' r',
    postAnswer capacity db userId body feedback_reply score_reply now = (resp, db')
    /\ interview_sessions db' !! sid = Some r'
    /\ (Session.Completed r' <-> i = Z.of_nat (length (questions_of r)) - 1)
    /\ (i = Z.of_nat (length (questions_of r)) - 1 ->
        exists score,
          resp = Completed (generateInterviewFeedback feedback_reply) score
          /\ Session.completed_at r' = Some now
          /\ Session.feedback r' = generateInterviewFeedback feedback_reply
          /\ Session.score r' = Some score
          /\ forall feedback_reply' score_reply' now',
               reportable feedback_reply' ->
               exists score' db'' r'',
                 postAnswer capacity db' userId body feedback_reply' score_reply' now'
                 = (Completed (generateInterviewFeedback feedback_reply') score', db'')
                 /\ interview_sessions db'' !! sid = Some r''
                 /\ Session.completed_at r'' = Some now'
                 /\ Session.feedback r'' = generateInterviewFeedback feedback_reply'
                 /\ Session.score r'' = Some score').
Proof.
  intros Hf Ha Hn Hi Hw Hr.
  assert (Hbig : Z.of_nat (length (questions_of r)) < 2 ^ 32) by apply Hf.
  assert (H32 : 2 ^ 32 < 2 ^ 53) by reflexivity.
  assert (Hexact : Z.abs i <= 2 ^ 53) by lia.
  pose proof (at_least_index body i Hn Hexact (Z.of_nat (length (questions_of r)) - 1)) as Hat.
  destruct (Z.leb_spec (Z.of_nat (length (questions_of r)) - 1) i) as [Hge|Hlt].
  - destruct (postAnswer_completed capacity db userId body feedback_reply score_reply now
                sid r Hf Hw Hat Hr) as (score & Hs & _ & Hp).
    pose proof (lookup_after_completion db userId body now sid r Hf
                  (generateInterviewFeedback feedback_reply) score) as Hl.
    eexists _, _, _. split; [exact Hp|]. split; [exact Hl|].
    split; [split; [intros _; lia|intros _; discriminate]|].
    intros _. exists score. repeat split.
    intros feedback_reply' score_reply' now' Hr'.
    destruct (finds_again capacity db userId body sid r Hf Hw _ _ Hl)
      as [Hf' Hw']; try reflexivity.
    destruct (postAnswer_completed capacity _ userId body feedback_reply' score_reply' now'
                sid _ Hf' Hw' Hat Hr') as (score' & _ & _ & Hp').
    eexists score', _, _. split; [exact Hp'|].
    split; [apply (lookup_after_completion _ userId body now' sid _ Hf')|].
    repeat split.
  - pose proof (postAnswer_recorded capacity db userId body feedback_reply score_reply now
                  sid r Hf Hw Hat) as Hp.
    eexists _, _, _. split; [exact Hp|].
    split; [apply (lookup_after_answers db userId body sid r Hf)|].
    split; [split; [intros Hc; exfalso; apply Hc; exact Ha|lia]|lia].
Qed.

(** C2 at the last index of a session with three questions and one
    answer. *)
Lemma completes_at_last_index_witness :
  exists resp db' r',
    postAnswer 1000 halfway_db 7 (say 2 "The end.") CallFailed CallFailed 3000 = (resp, db')
    /\ interview_sessions db' !! 1 = Some r'
    /\ (Session.Completed r' <-> 2 = Z.of_nat (length (questions_of halfway_row)) - 1)
    /\ (2 = Z.of_nat (length (questions_of halfway_row)) - 1 ->
        exists score,
          resp = Completed (generateInterviewFeedback CallFailed) score
          /\ Session.completed_at r' = Some 3000
          /\ Session.feedback r' = generateInterviewFeedback CallFailed
          /\ Session.score r' = Some score
          /\ forall feedback_reply' score_reply' now',
               reportable feedback_reply' ->
               exists score' db'' r'',
                 postAnswer 1000 db' 7 (say 2 "The end.") feedback_reply' score_reply' now'
                 = (Completed (generateInterviewFeedback feedback_reply') score', db'')
                 /\ interview_sessions db'' !! 1 = Some r''
                 /\ Session.completed_at r'' = Some now'
                 /\ Session.feedback r'' = generateInterviewFeedback feedback_reply'
                 /\ Session.score r'' = Some score').
Proof.
  apply (completes_at_last_index 1000 halfway_db 7 (say 2 "The end.") CallFailed CallFailed
           3000 1 halfway_row 2);
    [repeat split | reflexivity | reflexivity | vm_compute; split; [discriminate|reflexivity]
    | repeat split; vm_compute; discriminate | reflexivity].
Defined.

(** C2, as stated, fails. A new session with three questions and no answer
    is Completed by its first submission, at the last index 2: the
    questions 0 and 1 have no answer, then or later.  The same submission,
    sent again, is answered [completed: true] again and replaces the score
    and [completed_at]. *)
Lemma completion_counterexample :
  Session.Active fresh_row
  /\ length (questions_of fresh_row) = 3%nat
  /\ Session.answers_given fresh_row = None
  /\ let first := postAnswer 1000 fresh_db 7 (say 2 "Straight to the end.")
                             CallFailed CallFailed 3000 in
     let second := postAnswer 1000 (snd first) 7 (say 2 "Straight to the end.")
                              CallFailed (CandidateText "40") 4000 in
     fst first = Completed (Some placeholder_feedback) 75
     /\ Session.completed_at <$> interview_sessions (snd first) !! 1 = Some (Some 3000)
     /\ Session.answers_given <$> interview_sessions (snd first) !! 1
        = Some (Some [None; None; Some "Straight to the end."])
     /\ fst second = Completed (Some placeholder_feedback) 40
     /\ Session.completed_at <$> interview_sessions (snd second) !! 1 = Some (Some 4000)
     /\ Session.score <$> interview_sessions (snd second) !! 1 = Some (Some 40).
Proof.
  vm_compute. repeat split; discriminate.
Qed.

(** ** The handler does not read [completed_at] *)

Section Reopened.

Variables (capacity : Z) (db : database) (userId : Z) (body : Answer.body).
Variables (feedback_reply score_reply : ai_reply) (now : Z).

Lemma select_session_reopened id key :
  select_session (update_session reopened id db) key userId
  = if decide (id = key) then reopened <$> select_session db key userId
    else select_session db key userId.
Proof.
  unfold select_session. case_decide as Hk.
  - subst key. rewrite lookup_update_session.
    destruct (interview_sessions db !! id) as [row|]; [|reflexivity].
    cbn [fmap option_fmap option_map reopened Session.user_id].
    destruct (Session.user_id row =? userId); reflexivity.
  - rewrite lookup_update_session_ne by exact Hk. reflexivity.
Qed.

(** Whatever the request and the table, the response is the one the
    request gets when the session [id] is not completed. *)
Lemma postAnswer_reopened id :
  fst (postAnswer capacity (update_session reopened id db) userId body
                  feedback_reply score_reply now)
  = fst (postAnswer capacity db userId body feedback_reply score_reply now).
Proof.
  unfold postAnswer.
  destruct (validate_answer body); [|reflexivity].
  destruct (Pg.integer (Answer.session_id body)) as [key|]; [|reflexivity].
  rewrite select_session_reopened. case_decide as Hk; [|
    destruct (select_session db key userId) as [session|]; [|reflexivity];
    repeat match goal with
           | |- context [if ?c then _ else _] => destruct c
           | |- context [match ?c with Some _ => _ | None => _ end] => destruct c
           end; reflexivity].
  destruct (select_session db key userId) as [session|]; [|reflexivity].
  cbn [fmap option_fmap option_map reopened Session.questions_asked Session.answers_given].
  repeat match goal with
         | |- context [if ?c then _ else _] => destruct c
         | |- context [match ?c with Some _ => _ | None => _ end] => destruct c
         end; reflexivity.
Qed.

End Reopened.

(** C1, as the code has it. A [submit_answer] on a Completed session is
    not rejected: the handler never reads [completed_at], and the response
    is the one the same request gets when the session is not completed.
    For an array index [i] sent as a number (in a request that passes
    validation, finds the session of the caller and can be written, with a
    feedback the database takes) the status is 200 and the trimmed answer
    is stored at [i].  With [i < N - 1] the reply is the next question, and
    feedback, score and [completed_at] keep their values; with
    [i >= N - 1] feedback and score are generated again and written with a
    new [completed_at]. *)
Theorem completed_session_accepts_answers
    (capacity : Z) (db : database) (userId : Z) (body : Answer.body)
    (feedback_reply score_reply : ai_reply) (now : Z)
    (sid : Z) (r : Session.t) (i : Z) :
  finds db userId body sid r ->
  Session.Completed r ->
  Answer.question_index body = JS.Int i ->
  array_index i ->
  writable capacity r body ->
  reportable feedback_reply ->
  exists resp db' r' answers',
    postAnswer capacity db userId body feedback_reply score_reply now = (resp, db')
    /\ status resp = Some 200
    /\ fst (postAnswer capacity (update_session reopened sid db) userId body
                       feedback_reply score_reply now) = resp
    /\ interview_sessions db' !! sid = Some r'
    /\ Session.answers_given r' = Some answers'
    /\ answers' !! Z.to_nat i = Some (Some (JS.trim (Answer.answer body)))
    /\ (i < Z.of_nat (length (questions_of r)) - 1 ->
        resp = Recorded (questions_of r !! Z.to_nat (i + 1)) (JS.Int (i + 1))
                        (Z.of_nat (length (questions_of r)))
        /\ Session.feedback r' = Session.feedback r
        /\ Session.score r' = Session.score r
        /\ Session.completed_at r' = Session.completed_at r)
    /\ (Z.of_nat (length (questions_of r)) - 1 <= i ->
        exists score,
          calculateInterviewScore score_reply = Some score
          /\ resp = Completed (generateInterviewFeedback feedback_reply) score
          /\ Session.feedback r' = generateInterviewFeedback feedback_reply
          /\ Session.score r' = Some score
          /\ Session.completed_at r' = Some now).
Proof.
  intros Hf _ Hn Hi Hw Hr.
  assert (H32 : 2 ^ 32 < 2 ^ 53) by reflexivity.
  assert (Hexact : Z.abs i <= 2 ^ 53) by (unfold array_index in Hi; lia).
  assert (Hlt53 : i < 2 ^ 53) by (unfold array_index in Hi; lia).
  pose proof (at_least_index body i Hn Hexact (Z.of_nat (length (questions_of r)) - 1)) as Hat.
  pose proof (property_set_Int body i Hn Hexact (answers_of r) (JS.trim (Answer.answer body)))
    as Hset.
  pose proof (postAnswer_reopened capacity db userId body feedback_reply score_reply now sid)
    as Hre.
  destruct (Z.leb_spec (Z.of_nat (length (questions_of r)) - 1) i) as [Hge|Hlt].
  - destruct (postAnswer_completed capacity db userId body feedback_reply score_reply now
                sid r Hf Hw Hat Hr) as (score & Hs & _ & Hp).
    rewrite Hp in Hre. cbn [fst] in Hre.
    eexists _, _, _, _. split; [exact Hp|]. split; [reflexivity|]. split; [exact Hre|].
    split; [apply (lookup_after_completion db userId body now sid r Hf)|].
    split; [reflexivity|].
    split; [rewrite Hset; apply array_set_lookup_same; exact Hi|].
    split; [lia|].
    intros _. exists score. repeat split. exact Hs.
  - pose proof (postAnswer_recorded capacity db userId body feedback_reply score_reply now
                  sid r Hf Hw Hat) as Hp.
    rewrite (next_element body i Hn Hexact _ Hlt53), (next_index body i Hn Hexact Hlt53) in Hp.
    rewrite array_get_lookup in Hp by (unfold array_index in Hi; lia).
    rewrite Hp in Hre. cbn [fst] in Hre.
    eexists _, _, _, _. split; [exact Hp|]. split; [reflexivity|]. split; [exact Hre|].
    split; [apply (lookup_after_answers db userId body sid r Hf)|].
    split; [reflexivity|].
    split; [rewrite Hset; apply array_set_lookup_same; exact Hi|].
    split; [intros _; repeat split|lia].
Qed.

(** C1 at index 0 of a Completed session. *)
Lemma completed_session_accepts_answers_witness :
  exists resp db' r' answers',
    postAnswer 1000 finished_db 7 (say 0 "I changed my mind.") CallFailed CallFailed 3000
    = (resp, db')
    /\ status resp = Some 200
    /\ fst (postAnswer 1000 (update_session reopened 1 finished_db) 7
                       (say 0 "I changed my mind.") CallFailed CallFailed 3000) = resp
    /\ interview_sessions db' !! 1 = Some r'
    /\ Session.answers_given r' = Some answers'
    /\ answers' !! Z.to_nat 0 = Some (Some (JS.trim "I changed my mind."))
    /\ (0 < Z.of_nat (length (questions_of finished_row)) - 1 ->
        resp = Recorded (questions_of finished_row !! Z.to_nat (0 + 1)) (JS.Int (0 + 1))
                        (Z.of_nat (length (questions_of finished_row)))
        /\ Session.feedback r' = Session.feedback finished_row
        /\ Session.score r' = Session.score finished_row
        /\ Session.completed_at r' = Session.completed_at finished_row)
    /\ (Z.of_nat (length (questions_of finished_row)) - 1 <= 0 ->
        exists score,
          calculateInterviewScore CallFailed = Some score
          /\ resp = Completed (generateInterviewFeedback CallFailed) score
          /\ Session.feedback r' = generateInterviewFeedback CallFailed
          /\ Session.score r' = Some score
          /\ Session.completed_at r' = Some 3000).
Proof.
  apply (completed_session_accepts_answers 1000 finished_db 7 (say 0 "I changed my mind.")
           CallFailed CallFailed 3000 1 finished_row 0);
    [repeat split | vm_compute; discriminate | reflexivity
    | split; vm_compute; [discriminate|reflexivity]
    | repeat split; vm_compute; discriminate | reflexivity].
Defined.

(** C1, as stated, fails. On a Completed session with three questions, a
    submission at index 0 is answered with status 200 and changes the
    stored answers; a submission at index 2 is answered [completed: true]
    and replaces the feedback, the score (80) and [completed_at] (2000). *)
Lemma completed_session_counterexample :
  Session.Completed finished_row
  /\ let early := postAnswer 1000 finished_db 7 (say 0 "I changed my mind.")
                             CallFailed CallFailed 3000 in
     let late := postAnswer 1000 finished_db 7 (say 2 "Again.") CallFailed CallFailed 3000 in
     fst early = Recorded (Some (Some "Describe a hard bug.")) (JS.Int 1) 3
     /\ status (fst early) = Some 200
     /\ Session.answers_given <$> interview_sessions finished_db !! 1
        = Some (Some [Some "a0"; Some "a1"; Some "a2"])
     /\ Session.answers_given <$> interview_sessions (snd early) !! 1
        = Some (Some [Some "I changed my mind."; Some "a1"; Some "a2"])
     /\ fst late = Completed (Some placeholder_feedback) 75
     /\ status (fst late) = Some 200
     /\ Session.score <$> interview_sessions (snd late) !! 1 = Some (Some 75)
     /\ Session.completed_at <$> interview_sessions (snd late) !! 1 = Some (Some 3000)
     /\ Session.feedback <$> interview_sessions (snd late) !! 1
        = Some (Some placeholder_feedback).
Proof.
  vm_compute. repeat split; discriminate.
Qed.

(** ** Ownership *)

(** C7, as the code has it. A [GET /session/:id] whose path reads as the
    [INTEGER] [id], or a [POST /answer] (that passes validation) whose
    [session_id] does, for a session that does not exist, as in [db1], or
    that belongs to another user, as in [db2], is answered 404 with no
    session data; the response is the same in both cases, and nothing is
    written.  A path or a [session_id] that does not read as an [INTEGER]
    makes the SELECT throw: the response is a 500, whatever the table
    holds, and nothing is written. *)
Theorem not_found_hides_ownership
    (capacity : Z) (db1 db2 : database) (userId id : Z) (path : string) (body : Answer.body)
    (feedback_reply score_reply : ai_reply) (now : Z) (other : Session.t) :
  interview_sessions db1 !! id = None ->
  interview_sessions db2 !! id = Some other ->
  Session.user_id other <> userId ->
  Pg.int4in path = Some id ->
  Pg.integer (Answer.session_id body) = Some id ->
  validate_answer body = [] ->
  getSession db1 userId path = NotFound
  /\ getSession db2 userId path = NotFound
  /\ postAnswer capacity db1 userId body feedback_reply score_reply now = (NotFound, db1)
  /\ postAnswer capacity db2 userId body feedback_reply score_reply now = (NotFound, db2)
  /\ status NotFound = Some 404
  /\ (forall db path',
        Pg.int4in path' = None -> getSession db userId path' = session_failed)
  /\ (forall db body',
        validate_answer body' = [] ->
        Pg.integer (Answer.session_id body') = None ->
        postAnswer capacity db userId body' feedback_reply score_reply now
        = (answer_failed, db))
  /\ status session_failed = Some 500
  /\ status answer_failed = Some 500.
Proof.
  intros Habsent Hother Hne Hpath Hid Hv.
  assert (H1 : select_session db1 id userId = None).
  { apply select_session_None. left. exact Habsent. }
  assert (H2 : select_session db2 id userId = None).
  { apply select_session_None. right. eauto. }
  unfold getSession, postAnswer. rewrite Hv, Hid, Hpath, H1, H2.
  repeat split.
  - intros db path' ->. reflexivity.
  - intros db body' -> ->. reflexivity.
Qed.

(** C7 for user 8 and session 1: absent from the empty table, owned by
    user 7 in the other. *)
Lemma not_found_hides_ownership_witness :
  getSession empty_db 8 "1" = NotFound
  /\ getSession finished_db 8 "1" = NotFound
  /\ postAnswer 1000 empty_db 8 (ask (JS.Int 1)) CallFailed CallFailed 3000
     = (NotFound, empty_db)
  /\ postAnswer 1000 finished_db 8 (ask (JS.Int 1)) CallFailed CallFailed 3000
     = (NotFound, finished_db)
  /\ status NotFound = Some 404
  /\ (forall db path',
        Pg.int4in path' = None -> getSession db 8 path' = session_failed)
  /\ (forall db body',
        validate_answer body' = [] ->
        Pg.integer (Answer.session_id body') = None ->
        postAnswer 1000 db 8 body' CallFailed CallFailed 3000 = (answer_failed, db))
  /\ status session_failed = Some 500
  /\ status answer_failed = Some 500.
Proof.
  apply (not_found_hides_ownership 1000 empty_db finished_db 8 1 "1" (ask (JS.Int 1))
           CallFailed CallFailed 3000 finished_row);
    [reflexivity | reflexivity | vm_compute; discriminate | reflexivity | reflexivity
    | reflexivity].
Defined.

(** C7, as stated, fails. No session has the id 2147483648, which is no
    [INTEGER]: asked for it, both routes answer 500, not 404.  So does
    [GET /session/:id] for a path that is not a number. *)
Lemma not_found_counterexample :
  interview_sessions finished_db !! 2147483648 = None
  /\ getSession finished_db 8 "2147483648" = Failed "Failed to fetch interview session"
  /\ postAnswer 1000 finished_db 8 (ask (JS.Int 2147483648)) CallFailed CallFailed 3000
     = (Failed "Failed to submit answer", finished_db)
  /\ getSession finished_db 8 "abc" = Failed "Failed to fetch interview session"
  /\ status (Failed "Failed to fetch interview session") = Some 500
  /\ status (Failed "Failed to submit answer") = Some 500
  /\ Some 500 <> Some 404.
Proof.
  vm_compute. repeat split; discriminate.
Qed.

(** ** Claims about [POST /start] *)

Section DocResume.

Variable f : Start.file.
Hypothesis doc : doc_resume f.

Lemma doc_passes_filter : fileFilter (Start.originalname f) = true.
Proof. unfold fileFilter. rewrite doc. reflexivity. Qed.

Lemma doc_extraction_throws library :
  extractTextFromFile (Start.originalname f) library
  = Thrown "Failed to extract text from file".
Proof. unfold extractTextFromFile. rewrite doc. reflexivity. Qed.

Lemma doc_resume_unreadable library :
  read_resume (Some f) library = Thrown "Failed to extract text from file".
Proof. unfold read_resume. rewrite doc_extraction_throws. reflexivity. Qed.

End DocResume.

(** C9. For a start request (that passes validation) carrying a resume
    whose extension is [.doc], the upload filter accepts the file, the text
    extraction throws, the response is the 500 of the handler, and no row is
    created: the extraction comes before the insert.  The table is left as
    it was for every body, valid or not. *)
Theorem doc_resume_fails_start
    (encode : encoder) (db : database) (userId : Z) (f : Start.file)
    (body : Start.body) (library : option string) (reply : ai_reply) (now : Z) :
  doc_resume f ->
  validate_start body = [] ->
  fileFilter (Start.originalname f) = true
  /\ extractTextFromFile (Start.originalname f) library
     = Thrown "Failed to extract text from file"
  /\ postStart encode db userId (Some f) body library reply now = (start_failed, db)
  /\ status start_failed = Some 500
  /\ forall any : Start.body,
       snd (postStart encode db userId (Some f) any library reply now) = db.
Proof.
  intros Hdoc Hv.
  split; [apply doc_passes_filter; exact Hdoc|].
  split; [apply doc_extraction_throws; exact Hdoc|].
  split; [|split; [reflexivity|]].
  - unfold postStart. rewrite (doc_passes_filter f Hdoc), Hv. cbn [negb].
    rewrite (doc_resume_unreadable f Hdoc). reflexivity.
  - intros any. unfold postStart. rewrite (doc_passes_filter f Hdoc). cbn [negb].
    destruct (validate_start any); [|reflexivity].
    rewrite (doc_resume_unreadable f Hdoc). reflexivity.
Qed.

(** C9 at the upload of [Resume.DOC]. *)
Lemma doc_resume_fails_start_witness :
  doc_resume word_resume
  /\ fileFilter (Start.originalname word_resume) = true
  /\ extractTextFromFile (Start.originalname word_resume) (Some "Curriculum vitae")
     = Thrown "Failed to extract text from file"
  /\ postStart strict_encoder empty_db 7 (Some word_resume) backend_role
               (Some "Curriculum vitae") (CandidateText "[]") 500
     = (start_failed, empty_db)
  /\ status start_failed = Some 500
  /\ forall any : Start.body,
       snd (postStart strict_encoder empty_db 7 (Some word_resume) any
                      (Some "Curriculum vitae") (CandidateText "[]") 500) = empty_db.
Proof.
  split; [reflexivity|].
  apply (doc_resume_fails_start strict_encoder empty_db 7 word_resume backend_role
           (Some "Curriculum vitae") (CandidateText "[]") 500);
    reflexivity.
Defined.

Section Questions.

Lemma questions_without_text focusAreas reply :
  no_text reply ->
  generateInterviewQuestions focusAreas reply = JSON.strings fallback_questions.
Proof.
  intros H. destruct reply; try contradiction; destruct focusAreas; reflexivity.
Qed.

Lemma questions_from_lines items text :
  JSON.parse text = None ->
  generateInterviewQuestions (JSON.Array items) (CandidateText text)
  = JSON.strings (nonblank_lines text).
Proof. intros H. unfold generateInterviewQuestions. rewrite H. reflexivity. Qed.

Lemma questions_as_parsed items text parsed :
  JSON.parse text = Some parsed ->
  generateInterviewQuestions (JSON.Array items) (CandidateText text) = parsed.
Proof. intros H. unfold generateInterviewQuestions. rewrite H. reflexivity. Qed.

End Questions.

(** C3, as the code has it. If the call to the AI collaborator fails, or
    its response has no readable candidate text, [generateInterviewQuestions]
    returns exactly the five built-in questions, and a start request that
    got as far as the insert still succeeds, with these questions stored and
    sent.  A response text is never replaced by the built-in list: one that
    is not valid JSON gives its non-blank lines as the questions, and one
    that is valid JSON is returned as parsed, array or not. *)
Theorem questions_fallback_on_failure
    (encode : encoder) (db : database) (userId : Z) (file : option Start.file)
    (body : Start.body) (library : option string) (reply : ai_reply) (now : Z)
    (resumeUrl resumeText : string) (sessionId : Z) (db1 : database)
    (stored : option text_array) :
  no_text reply ->
  match file with Some f => fileFilter (Start.originalname f) = true | None => True end ->
  validate_start body = [] ->
  read_resume file library = Returned (resumeUrl, resumeText) ->
  insert_session encode db now userId resumeUrl resumeText
                 (JS.trim (Start.jd_text body)) (parsed_focus_areas body)
                 (default "intermediate" (Start.difficulty body))
                 (Start.role_type body)
  = (Returned sessionId, db1) ->
  encode (JSON.strings fallback_questions) = Some stored ->
  length fallback_questions = 5%nat
  /\ (forall focusAreas,
        generateInterviewQuestions focusAreas reply = JSON.strings fallback_questions)
  /\ postStart encode db userId file body library reply now
     = (Started sessionId (JSON.strings fallback_questions),
        update_session (Session.set_questions_asked stored) sessionId db1)
  /\ status (Started sessionId (JSON.strings fallback_questions)) = Some 200
  /\ (forall items text,
        JSON.parse text = None ->
        generateInterviewQuestions (JSON.Array items) (CandidateText text)
        = JSON.strings (nonblank_lines text))
  /\ (forall items text parsed,
        JSON.parse text = Some parsed ->
        generateInterviewQuestions (JSON.Array items) (CandidateText text) = parsed).
Proof.
  intros Hreply Hfile Hv Hres Hins Henc.
  split; [reflexivity|].
  split; [intros fa; apply questions_without_text; exact Hreply|].
  split; [|split; [reflexivity|split; [apply questions_from_lines|apply questions_as_parsed]]].
  unfold postStart.
  assert (Hfilter : match file with
                    | Some f => negb (fileFilter (Start.originalname f))
                    | None => false
                    end = false).
  { destruct file as [f|]; [rewrite Hfile|]; reflexivity. }
  rewrite Hfilter, Hv, Hres, Hins.
  rewrite (questions_without_text _ _ Hreply), Henc. reflexivity.
Qed.

(** C3 at a start with a [.txt] resume and a failed call. *)
Lemma questions_fallback_on_failure_witness :
  length fallback_questions = 5%nat
  /\ (forall focusAreas,
        generateInterviewQuestions focusAreas CallFailed = JSON.strings fallback_questions)
  /\ postStart strict_encoder empty_db 7 (Some text_resume) backend_role
               (Some "Curriculum vitae") CallFailed 500
     = (Started 1 (JSON.strings fallback_questions),
        update_session
          (Session.set_questions_asked (Some (map Some fallback_questions))) 1
          {| interview_sessions :=
               {[ 1 := Session.mk 1 7 "/uploads/resumes/resume-7-1700000000000-43.txt"
                         "Curriculum vitae" "Backend engineer role" (Some []) "beginner"
                         None None None None None 500 None ]};
             next_id := 2 |})
  /\ status (Started 1 (JSON.strings fallback_questions)) = Some 200
  /\ (forall items text,
        JSON.parse text = None ->
        generateInterviewQuestions (JSON.Array items) (CandidateText text)
        = JSON.strings (nonblank_lines text))
  /\ (forall items text parsed,
        JSON.parse text = Some parsed ->
        generateInterviewQuestions (JSON.Array items) (CandidateText text) = parsed).
Proof.
  apply (questions_fallback_on_failure strict_encoder empty_db 7 (Some text_resume)
           backend_role (Some "Curriculum vitae") CallFailed 500
           "/uploads/resumes/resume-7-1700000000000-43.txt" "Curriculum vitae");
    [exact I | reflexivity | reflexivity | reflexivity
    | vm_compute; reflexivity | reflexivity].
Defined.

(** C3, as stated, fails. A response whose text is not JSON, hence not a
    JSON array, is not replaced by the built-in list: its line becomes the
    only question.  A response whose text is JSON but not an array is
    returned as parsed. *)
Lemma questions_fallback_counterexample :
  JSON.parse "What draws you to backend work?" = None
  /\ generateInterviewQuestions (JSON.Array []) (CandidateText "What draws you to backend work?")
     = JSON.strings ["What draws you to backend work?"]
  /\ generateInterviewQuestions (JSON.Array []) (CandidateText "What draws you to backend work?")
     <> JSON.strings fallback_questions
  /\ JSON.parse "{}" = Some (JSON.Object [])
  /\ generateInterviewQuestions (JSON.Array []) (CandidateText "{}") = JSON.Object []
  /\ generateInterviewQuestions (JSON.Array []) (CandidateText "{}")
     <> JSON.strings fallback_questions.
Proof.
  vm_compute. repeat split; discriminate.
Qed.

(** ** Whole numbers, written and read *)

Section Decimal.

Lemma digits_value_uint d : forall acc,
  JS.digits_value (Z.pos acc) (NilEmpty.string_of_uint d) = Z.pos (Pos.of_uint_acc d acc).
Proof.
  induction d; intros acc; cbn [NilEmpty.string_of_uint Pos.of_uint_acc];
    [reflexivity|..]; cbn [JS.digits_value];
    change (JS.is_digit _) with true; cbn iota;
    match goal with
    | |- JS.digits_value ?x _ = _ =>
        match goal with
        | |- _ = Z.pos (Pos.of_uint_acc _ ?p) => replace x with (Z.pos p) by (cbn; lia)
        end
    end; apply IHd.
Qed.

Lemma digits_value_of_uint d :
  JS.digits_value 0 (NilEmpty.string_of_uint d) = Z.of_N (Pos.of_uint d).
Proof.
  induction d; cbn [NilEmpty.string_of_uint Pos.of_uint]; [reflexivity|..];
    cbn [JS.digits_value]; change (JS.is_digit _) with true; cbn iota;
    [exact IHd|..];
    match goal with
    | |- JS.digits_value ?x _ = Z.of_N (N.pos (Pos.of_uint_acc _ ?p)) =>
        change x with (Z.pos p)
    end; apply digits_value_uint.
Qed.

Lemma drop_digits_uint d : Pg.drop_digits (NilEmpty.string_of_uint d) = EmptyString.
Proof. induction d; cbn [NilEmpty.string_of_uint Pg.drop_digits]; [reflexivity|..]; exact IHd. Qed.

#[local] Arguments JS.digits_value : simpl never.
#[local] Arguments Pg.drop_digits : simpl never.

Lemma whole_number_uint d :
  d <> Decimal.Nil ->
  Pg.whole_number (NilEmpty.string_of_uint d) = Some (Z.of_N (Pos.of_uint d))
  /\ Pg.whole_number (String "-" (NilEmpty.string_of_uint d)) = Some (- Z.of_N (Pos.of_uint d)).
Proof.
  intros Hd. pose proof (digits_value_of_uint d) as Hv. pose proof (drop_digits_uint d) as Hdrop.
  destruct d; [contradiction|..]; cbn [NilEmpty.string_of_uint] in *;
    (split; unfold Pg.whole_number; simpl; rewrite Hdrop, Hv; reflexivity).
Qed.

(** PostgreSQL reads a whole number as JavaScript writes it. *)
Lemma whole_number_decimal z : Pg.whole_number (decimal z) = Some z.
Proof.
  unfold decimal. destruct z as [|p|p]; [reflexivity|..];
    cbn [Z.to_int NilZero.string_of_int];
    pose proof (Unsigned.to_uint_nonnil p) as Hnil;
    destruct (whole_number_uint (Pos.to_uint p) Hnil) as [Hpos Hneg];
    rewrite (Unsigned.of_to p) in Hpos, Hneg; unfold NilZero.string_of_uint;
    destruct (Pos.to_uint p) eqn:E; try contradiction; first [exact Hpos|exact Hneg].
Qed.

Lemma int4in_decimal z : Pg.in_integer z = true -> Pg.int4in (decimal z) = Some z.
Proof. intros H. unfold Pg.int4in. rewrite whole_number_decimal, H. reflexivity. Qed.

End Decimal.

(** * Further properties of the routes *)

(** ** [POST /answer]: what is written and what is not *)

Section AnswerWrites.

Variables (capacity : Z) (db : database) (userId : Z) (body : Answer.body).
Variables (feedback_reply score_reply : ai_reply) (now : Z).

(** Every way [postAnswer] can end, with the table it leaves. *)
Lemma postAnswer_cases :
  snd (postAnswer capacity db userId body feedback_reply score_reply now) = db
  \/ exists sid r answers,
       Pg.integer (Answer.session_id body) = Some sid
       /\ interview_sessions db !! sid = Some r
       /\ Session.user_id r = userId
       /\ (snd (postAnswer capacity db userId body feedback_reply score_reply now)
           = update_session (Session.set_answers_given answers) sid db
           \/ exists fb sc,
                snd (postAnswer capacity db userId body feedback_reply score_reply now)
                = update_session (Session.set_completion fb sc now) sid
                    (update_session (Session.set_answers_given answers) sid db)).
Proof.
  unfold postAnswer.
  destruct (validate_answer body); [|left; reflexivity].
  destruct (Pg.integer (Answer.session_id body)) as [sid|]; [|left; reflexivity].
  destruct (select_session db sid userId) as [r|] eqn:Hs; [|left; reflexivity].
  apply select_session_Some in Hs as [Hl Hu].
  destruct (capacity <? _); [left; reflexivity|].
  destruct (negb _); [left; reflexivity|].
  right. eexists sid, r, _. split; [reflexivity|]. split; [exact Hl|]. split; [exact Hu|].
  destruct (JS.at_least _ _); [|left; reflexivity].
  destruct (calculateInterviewScore score_reply); [|left; reflexivity].
  destruct (Pg.nullable_text _); [|left; reflexivity].
  right. eexists _, _. reflexivity.
Qed.

(** The handler writes to the row it selected, and to no other. *)
Lemma postAnswer_elsewhere id' :
  Pg.integer (Answer.session_id body) <> Some id' ->
  interview_sessions (snd (postAnswer capacity db userId body feedback_reply score_reply now))
    !! id'
  = interview_sessions db !! id'.
Proof.
  intros Hne.
  destruct postAnswer_cases as [->|(sid & r & answers & Hid & _ & _ & [->|(fb & sc & ->)])];
    [reflexivity|..];
    rewrite ?lookup_update_session_ne by congruence; reflexivity.
Qed.

(** What the handler writes leaves a row what it is about. *)
Lemma postAnswer_inputs id' r' :
  interview_sessions db !! id' = Some r' ->
  exists r'',
    interview_sessions (snd (postAnswer capacity db userId body feedback_reply score_reply now))
      !! id' = Some r''
    /\ same_inputs r' r''
    /\ (Session.user_id r' <> userId -> r'' = r').
Proof.
  intros Hr.
  destruct postAnswer_cases as [->|(sid & r & answers & Hid & Hl & Hu & Hdb)].
  { exists r'. repeat split; auto. }
  destruct (Z.eq_dec sid id') as [->|Hne].
  - rewrite Hl in Hr. injection Hr as <-.
    destruct Hdb as [->|(fb & sc & ->)]; rewrite ?lookup_update_session, Hl;
      eexists; (split; [reflexivity|]); (split; [repeat split|contradiction]).
  - exists r'. split; [|split; [repeat split|reflexivity]].
    destruct Hdb as [->|(fb & sc & ->)];
      rewrite ?lookup_update_session_ne by exact Hne; exact Hr.
Qed.

Lemma postAnswer_same_keys id' :
  is_Some (interview_sessions
             (snd (postAnswer capacity db userId body feedback_reply score_reply now)) !! id')
  <-> is_Some (interview_sessions db !! id').
Proof.
  destruct postAnswer_cases as [->|(sid & r & answers & _ & _ & _ & [->|(fb & sc & ->)])];
    [reflexivity|..]; unfold update_session; cbn [interview_sessions];
    rewrite ?lookup_alter_is_Some; reflexivity.
Qed.

Lemma postAnswer_next_id :
  next_id (snd (postAnswer capacity db userId body feedback_reply score_reply now))
  = next_id db.
Proof.
  destruct postAnswer_cases as [->|(sid & r & answers & _ & _ & _ & [->|(fb & sc & ->)])];
    reflexivity.
Qed.

End AnswerWrites.

(** X1. Whatever the request, [POST /answer] creates no row, deletes no row,
    leaves the sequence of ids alone, and changes neither a row with another
    id than the one [session_id] reads as nor a row that belongs to another
    user. *)
Theorem answer_touches_one_row
    (capacity : Z) (db : database) (userId : Z) (body : Answer.body)
    (feedback_reply score_reply : ai_reply) (now : Z) :
  let db' := snd (postAnswer capacity db userId body feedback_reply score_reply now) in
  next_id db' = next_id db
  /\ (forall id', is_Some (interview_sessions db' !! id')
                  <-> is_Some (interview_sessions db !! id'))
  /\ (forall id', Pg.integer (Answer.session_id body) <> Some id' ->
                  interview_sessions db' !! id' = interview_sessions db !! id')
  /\ (forall id' r', interview_sessions db !! id' = Some r' ->
                     Session.user_id r' <> userId ->
                     interview_sessions db' !! id' = Some r').
Proof.
  cbv zeta. split; [apply postAnswer_next_id|].
  split; [apply postAnswer_same_keys|].
  split; [apply postAnswer_elsewhere|].
  intros id' r' Hr Hne.
  destruct (postAnswer_inputs capacity db userId body feedback_reply score_reply now id' r' Hr)
    as (r'' & Hl & _ & Hsame).
  rewrite Hl, (Hsame Hne). reflexivity.
Qed.

(** X2. A submission never changes what a session is about: whatever the
    request, every row of the table is there afterwards with the same id,
    owner, resume, job description, focus areas, difficulty, role,
    questions and creation time, whether a session completes or not. *)
Theorem answer_keeps_session_inputs
    (capacity : Z) (db : database) (userId : Z) (body : Answer.body)
    (feedback_reply score_reply : ai_reply) (now : Z) (id : Z) (r : Session.t) :
  interview_sessions db !! id = Some r ->
  exists r',
    interview_sessions (snd (postAnswer capacity db userId body feedback_reply score_reply now))
      !! id = Some r'
    /\ same_inputs r r'.
Proof.
  intros Hr.
  destruct (postAnswer_inputs capacity db userId body feedback_reply score_reply now id r Hr)
    as (r' & Hl & Hs & _).
  eauto.
Qed.

(** X2 at the last answer of a session with three questions. *)
Lemma answer_keeps_session_inputs_witness :
  exists r',
    interview_sessions
      (snd (postAnswer 1000 halfway_db 7 (say 2 "The end.") CallFailed CallFailed 3000)) !! 1
    = Some r'
    /\ same_inputs halfway_row r'.
Proof.
  apply (answer_keeps_session_inputs 1000 halfway_db 7 (say 2 "The end.") CallFailed CallFailed
           3000 1 halfway_row); reflexivity.
Defined.

(** ** Blank characters *)

Section Trim.

Lemma trimStart_from_starts pending s c r :
  JS.trimStart_from pending s = String c r -> JS.ws_width (String c r) = O.
Proof.
  revert pending. induction s as [|a s IH]; intros pending H; [discriminate|].
  cbn [JS.trimStart_from] in H. destruct pending as [|k].
  - destruct (JS.ws_width (String a s)) as [|k] eqn:E.
    + rewrite <- H. exact E.
    + exact (IH _ H).
  - exact (IH _ H).
Qed.

Lemma trimStart_fixed c r :
  JS.ws_width (String c r) = O -> JS.trimStart (String c r) = String c r.
Proof.
  intros H. unfold JS.trimStart. cbn [JS.trimStart_from]. rewrite H. reflexivity.
Qed.

(** What [trim] leaves of a string that is not blank is not empty. *)
Lemma trim_not_empty s :
  JS.is_blank s = false -> exists c t, JS.trim s = String c t.
Proof.
  unfold JS.is_blank, JS.trim. intros H.
  destruct (JS.trimStart s) as [|c r] eqn:E; [discriminate|].
  assert (Hw : JS.ws_width (String c r) = O) by exact (trimStart_from_starts _ _ _ _ E).
  exists c, (JS.trimEnd r). cbn [JS.trimEnd].
  unfold JS.is_blank. rewrite (trimStart_fixed _ _ Hw). reflexivity.
Qed.

Lemma validate_answer_ok body :
  validate_answer body = [] ->
  JS.isInt (Answer.session_id body) = true
  /\ JS.is_blank (Answer.answer body) = false
  /\ JS.isInt (Answer.question_index body) = true.
Proof.
  unfold validate_answer. intros H.
  apply app_eq_nil in H as [H1 H]. apply app_eq_nil in H as [H2 H3].
  destruct (JS.isInt (Answer.session_id body)); [|discriminate].
  destruct (JS.is_blank (Answer.answer body)); [discriminate|].
  destruct (JS.isInt (Answer.question_index body)); [|discriminate].
  auto.
Qed.

End Trim.

(** ** [GET /session/:id] with the id written in decimal *)

Section Paths.

Lemma integer_in_range f z : Pg.integer f = Some z -> Pg.in_integer z = true.
Proof.
  destruct f as [n|s|]; cbn [Pg.integer]; [| |discriminate].
  - destruct (Pg.in_integer (JS.double n)) eqn:E; [|discriminate]. intros [= <-]. exact E.
  - unfold Pg.int4in. destruct (Pg.whole_number s) as [w|]; [|discriminate].
    destruct (Pg.in_integer w) eqn:E; [|discriminate]. intros [= <-]. exact E.
Qed.

Lemma getSession_decimal db userId sid r :
  Pg.in_integer sid = true ->
  interview_sessions db !! sid = Some r ->
  Session.user_id r = userId ->
  getSession db userId (decimal sid) = Found (view r).
Proof.
  intros Hin Hl Hu. unfold getSession. rewrite (int4in_decimal sid Hin).
  rewrite (proj2 (select_session_Some _ _ _ _) (conj Hl Hu)). reflexivity.
Qed.

Lemma getSession_decimal_foreign db userId sid r :
  Pg.in_integer sid = true ->
  interview_sessions db !! sid = Some r ->
  Session.user_id r <> userId ->
  getSession db userId (decimal sid) = NotFound.
Proof.
  intros Hin Hl Hu. unfold getSession. rewrite (int4in_decimal sid Hin).
  rewrite (proj2 (select_session_None _ _ _)); [reflexivity|]. right. eauto.
Qed.

End Paths.

(** ** [POST /answer]: the row after a submission *)

Section AnswerRow.

Variables (capacity : Z) (db : database) (userId : Z) (body : Answer.body).
Variables (feedback_reply score_reply : ai_reply) (now : Z).
Variables (sid : Z) (r : Session.t).

Hypothesis found : finds db userId body sid r.
Hypothesis ok : writable capacity r body.

Lemma postAnswer_row :
  exists r',
    interview_sessions (snd (postAnswer capacity db userId body feedback_reply score_reply now))
      !! sid = Some r'
    /\ Session.answers_given r'
       = Some (property_set (answers_of r) (Answer.question_index body)
                            (JS.trim (Answer.answer body)))
    /\ same_inputs r r'.
Proof.
  assert (Hl : interview_sessions db !! sid = Some r) by apply found.
  rewrite (postAnswer_written capacity db userId body feedback_reply score_reply now sid r
             found ok).
  cbv zeta.
  destruct (JS.at_least _ _);
    [destruct (calculateInterviewScore score_reply);
     [destruct (Pg.nullable_text _)|]|];
    cbn [snd]; rewrite !lookup_update_session, Hl;
    eexists; (split; [reflexivity|]); repeat split.
Qed.

Lemma getSession_after_answer :
  exists r',
    getSession (snd (postAnswer capacity db userId body feedback_reply score_reply now))
               userId (decimal sid) = Found (view r')
    /\ Session.answers_given r'
       = Some (property_set (answers_of r) (Answer.question_index body)
                            (JS.trim (Answer.answer body)))
    /\ same_inputs r r'.
Proof.
  destruct postAnswer_row as (r' & Hl & Ha & Hs).
  exists r'. split; [|split; assumption].
  destruct found as (_ & Hid & _ & Ho & _).
  apply getSession_decimal; [exact (integer_in_range _ _ Hid)|exact Hl|].
  destruct Hs as (_ & Hu & _). congruence.
Qed.

End AnswerRow.

(** X3. After a submission at an array index [i], sent as a number (in a
    request that passes validation, finds the session of the caller and can
    be written), [GET /session/:id] shows the answers with the trimmed
    answer, which is not empty, at [i]; the answers at the other indexes
    below the old length are as before; the indexes from the old length up
    to [i] hold null; the questions are as before. *)
Theorem answer_then_read
    (capacity : Z) (db : database) (userId : Z) (body : Answer.body)
    (feedback_reply score_reply : ai_reply) (now : Z)
    (sid : Z) (r : Session.t) (i : Z) :
  finds db userId body sid r ->
  Answer.question_index body = JS.Int i ->
  array_index i ->
  writable capacity r body ->
  exists v (stored : list (option string)) c t,
    getSession (snd (postAnswer capacity db userId body feedback_reply score_reply now))
               userId (decimal sid) = Found v
    /\ View.answers_given v = Some stored
    /\ View.questions_asked v = Session.questions_asked r
    /\ JS.trim (Answer.answer body) = String c t
    /\ stored !! Z.to_nat i = Some (Some (String c t))
    /\ length stored = Nat.max (length (answers_of r)) (S (Z.to_nat i))
    /\ (forall j, j <> Z.to_nat i -> (j < length (answers_of r))%nat ->
                  stored !! j = answers_of r !! j)
    /\ (forall j, (length (answers_of r) <= j < Z.to_nat i)%nat -> stored !! j = Some None).
Proof.
  intros Hf Hn Hi Hw.
  destruct (getSession_after_answer capacity db userId body feedback_reply score_reply now
              sid r Hf Hw) as (r' & Hg & Ha & Hs).
  assert (Hv : validate_answer body = []) by apply Hf.
  destruct (trim_not_empty _ (proj1 (proj2 (validate_answer_ok _ Hv)))) as (c & t & Ht).
  assert (H32 : 2 ^ 32 < 2 ^ 53) by reflexivity.
  assert (Hexact : Z.abs i <= 2 ^ 53) by (unfold array_index in Hi; lia).
  rewrite (property_set_Int body i Hn Hexact) in Ha.
  exists (view r'), (array_set (answers_of r) i (JS.trim (Answer.answer body))), c, t.
  split; [exact Hg|]. split; [exact Ha|].
  split; [destruct Hs as (_ & _ & _ & _ & _ & _ & _ & _ & Hq & _); exact Hq|].
  split; [exact Ht|].
  split; [rewrite <- Ht; apply array_set_lookup_same; exact Hi|].
  split; [apply array_set_length; exact Hi|].
  split.
  - intros j Hj Hlt. apply array_set_lookup_old; assumption.
  - intros j Hj. apply array_set_lookup_hole; assumption.
Qed.

(** X3 at index 2 of a session that holds one answer. *)
Lemma answer_then_read_witness :
  exists v (stored : list (option string)) c t,
    getSession (snd (postAnswer 1000 halfway_db 7 (say 2 "  The end. ") CallFailed CallFailed
                                3000))
               7 (decimal 1) = Found v
    /\ View.answers_given v = Some stored
    /\ View.questions_asked v = Session.questions_asked halfway_row
    /\ JS.trim "  The end. " = String c t
    /\ stored !! Z.to_nat 2 = Some (Some (String c t))
    /\ length stored = Nat.max (length (answers_of halfway_row)) (S (Z.to_nat 2))
    /\ (forall j, j <> Z.to_nat 2 ->
                  (j < length (answers_of halfway_row))%nat ->
                  stored !! j = answers_of halfway_row !! j)
    /\ (forall j, (length (answers_of halfway_row) <= j < Z.to_nat 2)%nat ->
                  stored !! j = Some None).
Proof.
  apply (answer_then_read 1000 halfway_db 7 (say 2 "  The end. ") CallFailed CallFailed 3000
           1 halfway_row 2);
    [repeat split | reflexivity | split; vm_compute; congruence
    | repeat split; vm_compute; discriminate].
Defined.

(** ** A negative index *)

Section Negative.

(** Rounding keeps the sign. *)
Lemma double_negative z : z < 0 -> JS.double z < 0.
Proof.
  intros Hz. unfold JS.double.
  destruct (Z.ltb_spec (Z.abs z) (2 ^ 53)) as [_|Hbig]; [exact Hz|].
  set (a := Z.abs z) in *. set (e := Z.log2 a - 52).
  assert (Ha : 0 < a) by (assert (0 < 2 ^ 53) by reflexivity; lia).
  pose proof (Z.log2_spec a Ha) as [Hlow _].
  assert (Hlog : 53 <= Z.log2 a).
  { apply Z.log2_le_pow2; [exact Ha|exact Hbig]. }
  assert (He : 0 < e) by (subst e; lia).
  assert (Hpow : 0 < 2 ^ e) by (apply Z.pow_pos_nonneg; lia).
  assert (Hle : 2 ^ e <= a).
  { etransitivity; [|exact Hlow]. apply Z.pow_le_mono_r; subst e; lia. }
  assert (Hq : 1 <= a / 2 ^ e).
  { apply Z.div_le_lower_bound; lia. }
  rewrite (Z.sgn_neg z Hz).
  assert (Hq' : 1 <= (if a mod 2 ^ e <? 2 ^ (e - 1) then a / 2 ^ e
                      else if 2 ^ (e - 1) <? a mod 2 ^ e then a / 2 ^ e + 1
                           else if Z.even (a / 2 ^ e) then a / 2 ^ e else a / 2 ^ e + 1)).
  { repeat match goal with |- context [if ?c then _ else _] => destruct c end; lia. }
  nia.
Qed.

Variables (body : Answer.body) (i : Z).
Hypothesis number : Answer.question_index body = JS.Int i.
Hypothesis negative : i < 0.

Lemma property_set_negative (a : text_array) v :
  property_set a (Answer.question_index body) v = a.
Proof.
  unfold property_set. rewrite number. cbn [JS.element].
  apply array_set_negative. apply double_negative. exact negative.
Qed.

Lemma length_after_negative (a : text_array) :
  length_after a (Answer.question_index body) = Z.of_nat (length a).
Proof.
  unfold length_after. rewrite number. cbn [JS.element]. unfold length_of_set.
  pose proof (double_negative i negative).
  destruct (Z.leb_spec (Z.of_nat (length a)) (JS.double i)); [lia|reflexivity].
Qed.

End Negative.

(** X4. A submission with a negative [question_index], sent as a number
    (in a request that passes validation and finds the session of the
    caller, whose answers are an array that was stored, with a feedback the
    database takes) is answered with status 200, but the answer is stored
    nowhere: the answers of the session are the ones it had. *)
Theorem negative_index_is_not_stored
    (capacity : Z) (db : database) (userId : Z) (body : Answer.body)
    (feedback_reply score_reply : ai_reply) (now : Z)
    (sid : Z) (r : Session.t) (i : Z) :
  finds db userId body sid r ->
  Answer.question_index body = JS.Int i ->
  i < 0 ->
  stored capacity r ->
  reportable feedback_reply ->
  exists r',
    interview_sessions (snd (postAnswer capacity db userId body feedback_reply score_reply now))
      !! sid = Some r'
    /\ status (fst (postAnswer capacity db userId body feedback_reply score_reply now))
       = Some 200
    /\ Session.answers_given r' = Some (answers_of r).
Proof.
  intros Hf Hn Hneg [Hcap Hclean] Hr.
  assert (Hset : property_set (answers_of r) (Answer.question_index body)
                              (JS.trim (Answer.answer body)) = answers_of r)
    by (apply (property_set_negative body i Hn Hneg)).
  assert (Hl : interview_sessions db !! sid = Some r) by apply Hf.
  pose proof (postAnswer_found capacity db userId body feedback_reply score_reply now sid r Hf)
    as Hp.
  cbv zeta in Hp.
  rewrite (length_after_negative body i Hn Hneg), Hset, Hclean in Hp.
  destruct (Z.ltb_spec capacity (Z.of_nat (length (answers_of r)))); [lia|].
  cbn [negb] in Hp. rewrite Hp.
  destruct (score_in_range score_reply) as (score & Hs & _).
  unfold reportable in Hr. rewrite Hs, Hr.
  destruct (JS.at_least _ _); cbn [fst snd]; rewrite !lookup_update_session, Hl;
    eexists; repeat split.
Qed.

(** X4 at index -1 of a session that holds one answer. *)
Lemma negative_index_is_not_stored_witness :
  exists r',
    interview_sessions
      (snd (postAnswer 1000 halfway_db 7 (say (-1) "Lost.") CallFailed CallFailed 3000)) !! 1
    = Some r'
    /\ status (fst (postAnswer 1000 halfway_db 7 (say (-1) "Lost.") CallFailed CallFailed 3000))
       = Some 200
    /\ Session.answers_given r' = Some (answers_of halfway_row).
Proof.
  apply (negative_index_is_not_stored 1000 halfway_db 7 (say (-1) "Lost.") CallFailed CallFailed
           3000 1 halfway_row (-1));
    [repeat split | reflexivity | reflexivity | split; [vm_compute; discriminate|reflexivity]
    | reflexivity].
Defined.

(** X5. When a submission reaches the last question or goes beyond it (its
    [question_index] converts to a number [d >= N - 1]; it passes
    validation, finds the session of the caller and can be written, with a
    feedback the database takes), what [GET /session/:id] then shows agrees
    with the response: the session is completed, with the score of the
    response, which lies in [1,100], with its feedback, and with the time of
    the request. *)
Theorem completion_is_reported
    (capacity : Z) (db : database) (userId : Z) (body : Answer.body)
    (feedback_reply score_reply : ai_reply) (now : Z)
    (sid : Z) (r : Session.t) (d : Z) :
  finds db userId body sid r ->
  JS.number_of (Answer.question_index body) = Some d ->
  Z.of_nat (length (questions_of r)) - 1 <= d ->
  writable capacity r body ->
  reportable feedback_reply ->
  exists v score,
    fst (postAnswer capacity db userId body feedback_reply score_reply now)
    = Completed (generateInterviewFeedback feedback_reply) score
    /\ getSession (snd (postAnswer capacity db userId body feedback_reply score_reply now))
                  userId (decimal sid) = Found v
    /\ View.is_completed v = true
    /\ View.score v = Some score
    /\ 1 <= score <= 100
    /\ View.feedback v = generateInterviewFeedback feedback_reply
    /\ View.completed_at v = Some now.
Proof.
  intros Hf Hd Hge Hw Hr.
  assert (Hat : JS.at_least (Answer.question_index body)
                  (Z.of_nat (length (questions_of r)) - 1) = true).
  { unfold JS.at_least. rewrite Hd. apply Z.leb_le. exact Hge. }
  destruct (postAnswer_completed capacity db userId body feedback_reply score_reply now
              sid r Hf Hw Hat Hr) as (score & _ & Hrange & Hp).
  rewrite Hp. cbn [fst snd].
  eexists _, score. split; [reflexivity|].
  split.
  - destruct Hf as (Hv & Hid & Hl & Ho & Hbig).
    eapply getSession_decimal;
      [exact (integer_in_range _ _ Hid)
      |rewrite !lookup_update_session, Hl; reflexivity
      |exact Ho].
  - repeat split; lia.
Qed.

(** X5 at the last question of a session with three questions. *)
Lemma completion_is_reported_witness :
  exists v score,
    fst (postAnswer 1000 halfway_db 7 (say 2 "The end.") MissingText (CandidateText "7/10") 3000)
    = Completed (generateInterviewFeedback MissingText) score
    /\ getSession
         (snd (postAnswer 1000 halfway_db 7 (say 2 "The end.") MissingText
                          (CandidateText "7/10") 3000))
         7 (decimal 1) = Found v
    /\ View.is_completed v = true
    /\ View.score v = Some score
    /\ 1 <= score <= 100
    /\ View.feedback v = generateInterviewFeedback MissingText
    /\ View.completed_at v = Some 3000.
Proof.
  apply (completion_is_reported 1000 halfway_db 7 (say 2 "The end.") MissingText
           (CandidateText "7/10") 3000 1 halfway_row 2);
    [repeat split | reflexivity | vm_compute; discriminate
    | repeat split; vm_compute; discriminate | reflexivity].
Defined.

(** ** [POST /answer]: sending a request again *)

Section Retry.

Lemma update_session_twice f id db :
  (forall r, f (f r) = f r) ->
  update_session f id (update_session f id db) = update_session f id db.
Proof.
  intros Hf. unfold update_session. cbn [interview_sessions next_id]. f_equal.
  rewrite alter_alter_eq. apply alter_ext. intros r _. apply Hf.
Qed.

Lemma property_set_twice (a : text_array) f v :
  property_set (property_set a f v) f v = property_set a f v.
Proof.
  unfold property_set. destruct (JS.element f); [apply array_set_twice|reflexivity].
Qed.

(** What a request that was answered with the next question went
    through. *)
Lemma postAnswer_Recorded_inv capacity db userId body feedback_reply score_reply now q c t :
  fst (postAnswer capacity db userId body feedback_reply score_reply now) = Recorded q c t ->
  exists sid r,
    validate_answer body = []
    /\ Pg.integer (Answer.session_id body) = Some sid
    /\ interview_sessions db !! sid = Some r
    /\ Session.user_id r = userId
    /\ (capacity <? length_after (answers_of r) (Answer.question_index body)) = false
    /\ Pg.text_array (property_set (answers_of r) (Answer.question_index body)
                                   (JS.trim (Answer.answer body))) = true
    /\ JS.at_least (Answer.question_index body) (Z.of_nat (length (questions_of r)) - 1)
       = false
    /\ postAnswer capacity db userId body feedback_reply score_reply now
       = (Recorded (property_get (questions_of r) (JS.add_one (Answer.question_index body)))
                   (JS.add_one (Answer.question_index body))
                   (Z.of_nat (length (questions_of r))),
          update_session
            (Session.set_answers_given
               (property_set (answers_of r) (Answer.question_index body)
                             (JS.trim (Answer.answer body)))) sid db).
Proof.
  unfold postAnswer.
  destruct (validate_answer body) eqn:Hv; [|discriminate].
  destruct (Pg.integer (Answer.session_id body)) as [sid|] eqn:Hid; [|discriminate].
  destruct (select_session db sid userId) as [r|] eqn:Hs; [|discriminate].
  fold (questions_of r) (answers_of r).
  destruct (capacity <? _) eqn:Hc; [discriminate|].
  destruct (Pg.text_array _) eqn:Ht; [|discriminate]. cbn [negb].
  destruct (JS.at_least _ _) eqn:Hat.
  { destruct (calculateInterviewScore score_reply); [|discriminate].
    destruct (Pg.nullable_text _); discriminate. }
  intros _. apply select_session_Some in Hs as [Hl Hu].
  exists sid, r. repeat split; assumption.
Qed.

End Retry.

(** X6. A request that was answered with the next question can be sent
    again, at any time and whatever the collaborator would say: it gets the
    same response, and the table is as the first request left it. *)
Theorem retry_before_last_changes_nothing
    (capacity : Z) (db : database) (userId : Z) (body : Answer.body)
    (feedback_reply score_reply : ai_reply) (now : Z)
    (feedback_reply' score_reply' : ai_reply) (now' : Z)
    (q : option (option string)) (c : JS.field) (t : Z) :
  fst (postAnswer capacity db userId body feedback_reply score_reply now) = Recorded q c t ->
  postAnswer capacity (snd (postAnswer capacity db userId body feedback_reply score_reply now))
             userId body feedback_reply' score_reply' now'
  = (Recorded q c t, snd (postAnswer capacity db userId body feedback_reply score_reply now)).
Proof.
  intros H.
  destruct (postAnswer_Recorded_inv _ _ _ _ _ _ _ _ _ _ H)
    as (sid & r & Hv & Hid & Hl & Ho & Hc & Ht & Hat & E).
  rewrite E in H. cbn [fst] in H. rewrite E. cbn [snd].
  set (a1 := property_set (answers_of r) (Answer.question_index body)
                          (JS.trim (Answer.answer body))) in *.
  unfold postAnswer. rewrite Hv, Hid.
  erewrite (proj2 (select_session_Some _ sid userId _));
    [|split; [rewrite lookup_update_session, Hl; reflexivity|exact Ho]].
  cbn [Session.set_answers_given Session.questions_asked Session.answers_given default
       from_option id].
  fold (questions_of r).
  subst a1. rewrite length_after_again, Hc, property_set_twice, Ht. cbn [negb].
  rewrite Hat, H. rewrite update_session_twice by reflexivity. reflexivity.
Qed.

(** X6 at the first question of a new session: the request is repeated
    later, with a collaborator that now answers. *)
Lemma retry_before_last_changes_nothing_witness :
  postAnswer 1000
             (snd (postAnswer 1000 fresh_db 7 (say 0 "Because.") CallFailed CallFailed 3000))
             7 (say 0 "Because.") (CandidateText "Fine.") (CandidateText "90") 4000
  = (Recorded (Some (Some "Describe a hard bug.")) (JS.Int 1) 3,
     snd (postAnswer 1000 fresh_db 7 (say 0 "Because.") CallFailed CallFailed 3000)).
Proof.
  apply (retry_before_last_changes_nothing 1000 fresh_db 7 (say 0 "Because.")
           CallFailed CallFailed 3000 (CandidateText "Fine.") (CandidateText "90") 4000
           (Some (Some "Describe a hard bug.")) (JS.Int 1) 3).
  reflexivity.
Defined.

(** ** [POST /start]: what is written and what is not *)

Section StartWrites.

Variables (encode : encoder) (db : database) (userId : Z).

Lemma insert_session_Returned now url text jd focus level role sid db1 :
  insert_session encode db now userId url text jd focus level role = (Returned sid, db1) ->
  exists stored url' level' role',
    encode focus = Some stored
    /\ Pg.varchar 500 url = Some url'
    /\ Pg.varchar 50 level = Some level'
    /\ Pg.nullable_varchar 100 role = Some role'
    /\ sid = next_id db
    /\ Pg.in_integer sid = true
    /\ interview_sessions db !! sid = None
    /\ db1 = {| interview_sessions :=
                  <[sid := Session.mk sid userId url' text jd stored level' role'
                             None None None None now None]> (interview_sessions db);
                next_id := sid + 1 |}.
Proof.
  unfold insert_session.
  destruct (encode focus) as [stored|]; [|discriminate].
  destruct (negb _); [discriminate|].
  destruct (Pg.in_integer (next_id db)) eqn:Hin; [|discriminate]. cbn [negb].
  destruct (Pg.varchar 500 url) as [url'|]; [|discriminate].
  destruct (Pg.varchar 50 level) as [level'|]; [|discriminate].
  destruct (Pg.nullable_varchar 100 role) as [role'|]; [|discriminate].
  destruct (interview_sessions db !! next_id db) eqn:E; [discriminate|].
  intros [= <- <-]. exists stored, url', level', role'. repeat split; assumption.
Qed.

(** An insert that fails leaves the rows as they are; it may have taken a
    value from the sequence. *)
Lemma insert_session_Thrown now url text jd focus level role e db0 :
  insert_session encode db now userId url text jd focus level role = (Thrown e, db0) ->
  interview_sessions db0 = interview_sessions db
  /\ next_id db <= next_id db0 <= next_id db + 1.
Proof.
  unfold insert_session.
  destruct (encode focus) as [stored|]; [|intros [= _ <-]; split; [reflexivity|lia]].
  destruct (negb _); [intros [= _ <-]; split; [reflexivity|lia]|].
  destruct (negb (Pg.in_integer (next_id db))); [intros [= _ <-]; split; [reflexivity|lia]|].
  destruct (Pg.varchar 500 url) as [url'|];
    [|intros [= _ <-]; split; [reflexivity|cbn; lia]].
  destruct (Pg.varchar 50 level) as [level'|];
    [|intros [= _ <-]; split; [reflexivity|cbn; lia]].
  destruct (Pg.nullable_varchar 100 role) as [role'|];
    [|intros [= _ <-]; split; [reflexivity|cbn; lia]].
  destruct (interview_sessions db !! next_id db); [|discriminate].
  intros [= _ <-]. split; [reflexivity|cbn; lia].
Qed.

(** Every way [postStart] can end, with the table it leaves. *)
Lemma postStart_cases file body library reply now :
  (interview_sessions (snd (postStart encode db userId file body library reply now))
   = interview_sessions db
   /\ next_id db <= next_id (snd (postStart encode db userId file body library reply now))
      <= next_id db + 1)
  \/ exists url text sid db1,
       read_resume file library = Returned (url, text)
       /\ validate_start body = []
       /\ insert_session encode db now userId url text (JS.trim (Start.jd_text body))
            (parsed_focus_areas body) (default "intermediate" (Start.difficulty body))
            (Start.role_type body) = (Returned sid, db1)
       /\ (snd (postStart encode db userId file body library reply now) = db1
           \/ exists stored,
                encode (generateInterviewQuestions (parsed_focus_areas body) reply)
                = Some stored
                /\ snd (postStart encode db userId file body library reply now)
                   = update_session (Session.set_questions_asked stored) sid db1).
Proof.
  unfold postStart.
  destruct (match file with
            | Some f => negb (fileFilter (Start.originalname f))
            | None => false
            end); [left; split; [reflexivity|cbn; lia]|].
  destruct (validate_start body); [|left; split; [reflexivity|cbn; lia]].
  destruct (read_resume file library) as [[url text]|]; [|left; split; [reflexivity|cbn; lia]].
  destruct (insert_session encode db now userId url text (JS.trim (Start.jd_text body))
              (parsed_focus_areas body) (default "intermediate" (Start.difficulty body))
              (Start.role_type body)) as [[sid|e] db1] eqn:Hins.
  - right. exists url, text, sid, db1.
    split; [reflexivity|]. split; [reflexivity|]. split; [exact Hins|].
    destruct (encode (generateInterviewQuestions (parsed_focus_areas body) reply))
      as [stored|]; [|left; reflexivity].
    right. exists stored. split; [reflexivity|].
    destruct (generateInterviewQuestions (parsed_focus_areas body) reply); reflexivity.
  - left. cbn [snd]. exact (insert_session_Thrown _ _ _ _ _ _ _ _ _ Hins).
Qed.

End StartWrites.

(** X7. Whatever the request, [POST /start] keeps every row the table
    holds as it is, never lowers the sequence of ids, and adds no row under
    another id than the next value of the sequence. *)
Theorem start_keeps_existing_sessions
    (encode : encoder) (db : database) (userId : Z) (file : option Start.file)
    (body : Start.body) (library : option string) (reply : ai_reply) (now : Z) :
  let db' := snd (postStart encode db userId file body library reply now) in
  (forall id r, interview_sessions db !! id = Some r ->
                interview_sessions db' !! id = Some r)
  /\ next_id db <= next_id db'
  /\ (forall id, id <> next_id db ->
                 interview_sessions db !! id = None ->
                 interview_sessions db' !! id = None).
Proof.
  cbv zeta.
  destruct (postStart_cases encode db userId file body library reply now)
    as [[-> Hn]|(url & text & sid & db1 & _ & _ & Hins & Hdb)].
  { repeat split; auto; lia. }
  apply insert_session_Returned in Hins
    as (stored & url' & level' & role' & _ & _ & _ & _ & -> & _ & Hfree & ->).
  destruct Hdb as [->|(stored' & _ & ->)]; cbn [interview_sessions next_id update_session].
  - split; [|split; [lia|]].
    + intros id r Hr. rewrite lookup_insert_ne; [exact Hr|congruence].
    + intros id Hne Hr. rewrite lookup_insert_ne; [exact Hr|congruence].
  - split; [|split; [lia|]].
    + intros id r Hr. rewrite lookup_alter_ne, lookup_insert_ne; [exact Hr|congruence..].
    + intros id Hne Hr. rewrite lookup_alter_ne, lookup_insert_ne; [exact Hr|congruence..].
Qed.

Section StartOutcome.

Variables (encode : encoder) (db : database) (userId : Z) (file : option Start.file).
Variables (body : Start.body) (library : option string) (reply : ai_reply) (now : Z).

Lemma validate_start_ok :
  validate_start body = [] ->
  JS.is_blank (Start.jd_text body) = false
  /\ default "intermediate" (Start.difficulty body) ∈ difficulty_levels.
Proof.
  unfold validate_start. intros H.
  apply app_eq_nil in H as [Hjd H]. apply app_eq_nil in H as [_ Hlevel].
  split.
  - destruct (JS.is_blank (Start.jd_text body)); [discriminate|reflexivity].
  - destruct (Start.difficulty body) as [level|]; cbn [default].
    + destruct (bool_decide (level ∈ difficulty_levels)) eqn:E; [|discriminate].
      apply bool_decide_eq_true in E. exact E.
    + unfold difficulty_levels. set_solver.
Qed.

(** A level of difficulty fits its column as it is. *)
Lemma varchar_level level stored :
  level ∈ difficulty_levels -> Pg.varchar 50 level = Some stored -> stored = level.
Proof.
  unfold difficulty_levels. rewrite !elem_of_cons, elem_of_nil.
  intros [->|[->|[->|[]]]]; vm_compute; congruence.
Qed.

Lemma postStart_Started_inv sid qs db' :
  postStart encode db userId file body library reply now = (Started sid qs, db') ->
  validate_start body = []
  /\ qs = generateInterviewQuestions (parsed_focus_areas body) reply
  /\ qs <> JSON.Null
  /\ exists url text db1 stored,
       read_resume file library = Returned (url, text)
       /\ insert_session encode db now userId url text (JS.trim (Start.jd_text body))
            (parsed_focus_areas body) (default "intermediate" (Start.difficulty body))
            (Start.role_type body) = (Returned sid, db1)
       /\ encode qs = Some stored
       /\ db' = update_session (Session.set_questions_asked stored) sid db1.
Proof.
  unfold postStart.
  destruct (match file with
            | Some f => negb (fileFilter (Start.originalname f))
            | None => false
            end); [discriminate|].
  destruct (validate_start body); [|discriminate].
  destruct (read_resume file library) as [[url text]|]; [|discriminate].
  destruct (insert_session encode db now userId url text (JS.trim (Start.jd_text body))
              (parsed_focus_areas body) (default "intermediate" (Start.difficulty body))
              (Start.role_type body)) as [[sid1|e] db1] eqn:Hins; [|discriminate].
  destruct (encode (generateInterviewQuestions (parsed_focus_areas body) reply))
    as [stored|] eqn:Henc; [|discriminate].
  destruct (generateInterviewQuestions (parsed_focus_areas body) reply) eqn:Hq;
    try discriminate;
    intros [= <- <- <-];
    (split; [reflexivity|split; [reflexivity|split; [discriminate|]]]);
    exists url, text, db1, stored; repeat split; assumption || reflexivity.
Qed.

(** The row a successful start leaves under the id it answers with. *)
Lemma postStart_Started_row sid qs db' :
  postStart encode db userId file body library reply now = (Started sid qs, db') ->
  validate_start body = []
  /\ sid = next_id db
  /\ Pg.in_integer sid = true
  /\ interview_sessions db !! sid = None
  /\ exists url text focus role stored,
       encode qs = Some stored
       /\ interview_sessions db' !! sid
          = Some (Session.mk sid userId url text (JS.trim (Start.jd_text body)) focus
                    (default "intermediate" (Start.difficulty body))
                    role None None stored None now None).
Proof.
  intros H.
  apply postStart_Started_inv in H
    as (Hv & -> & _ & url & text & db1 & stored & _ & Hins & Henc & ->).
  apply insert_session_Returned in Hins
    as (focus & url' & level' & role' & _ & _ & Hlevel & _ & -> & Hin & Hfree & ->).
  apply (varchar_level _ _ (proj2 (validate_start_ok Hv))) in Hlevel. subst level'.
  split; [exact Hv|]. split; [reflexivity|]. split; [exact Hin|]. split; [exact Hfree|].
  exists url', text, focus, role', stored. split; [exact Henc|].
  rewrite lookup_update_session. cbn [interview_sessions].
  rewrite lookup_insert_eq. reflexivity.
Qed.

End StartOutcome.

(** X8. When [POST /start] answers with a session id, that id was free
    before and now holds an Active session of the caller, created at the
    time of the request, with no answers, no feedback and no score; its job
    description is the trimmed one of the request and is not empty; its
    difficulty is one of the three levels; its questions are the stored form
    of the questions sent.  [GET /session/:id] shows it to the caller and
    answers 404 to anyone else. *)
Theorem started_session_is_ready
    (encode : encoder) (db : database) (userId : Z) (file : option Start.file)
    (body : Start.body) (library : option string) (reply : ai_reply) (now : Z)
    (sid : Z) (qs : JSON.value) (db' : database) :
  postStart encode db userId file body library reply now = (Started sid qs, db') ->
  sid = next_id db
  /\ interview_sessions db !! sid = None
  /\ exists r c t,
       interview_sessions db' !! sid = Some r
       /\ Session.id r = sid
       /\ Session.user_id r = userId
       /\ Session.Active r
       /\ Session.answers_given r = None
       /\ Session.feedback r = None
       /\ Session.score r = None
       /\ Session.created_at r = now
       /\ Session.jd_text r = JS.trim (Start.jd_text body)
       /\ Session.jd_text r = String c t
       /\ Session.difficulty r ∈ difficulty_levels
       /\ encode qs = Some (Session.questions_asked r)
       /\ getSession db' userId (decimal sid) = Found (view r)
       /\ forall other, other <> userId -> getSession db' other (decimal sid) = NotFound.
Proof.
  intros H.
  apply postStart_Started_row in H
    as (Hv & -> & Hin & Hfree & url & text & focus & role & stored & Henc & Hl).
  destruct (validate_start_ok body Hv) as [Hjd Hlevel].
  destruct (trim_not_empty _ Hjd) as (c & t & Ht).
  split; [reflexivity|]. split; [exact Hfree|].
  eexists _, c, t. split; [exact Hl|].
  repeat (split; [first [reflexivity | exact Ht | exact Hlevel | exact Henc]|]).
  split.
  - apply getSession_decimal; [exact Hin|exact Hl|reflexivity].
  - intros other Hne. eapply getSession_decimal_foreign; [exact Hin|exact Hl|].
    cbn. congruence.
Qed.

(** X8 at a start without a resume, with a collaborator that sends two
    questions. *)
Lemma started_session_is_ready_witness :
  1 = next_id empty_db
  /\ interview_sessions empty_db !! 1 = None
  /\ exists r c t,
       interview_sessions
         (snd (postStart strict_encoder empty_db 7 None backend_role None
                         two_questions_reply 1000)) !! 1 = Some r
       /\ Session.id r = 1
       /\ Session.user_id r = 7
       /\ Session.Active r
       /\ Session.answers_given r = None
       /\ Session.feedback r = None
       /\ Session.score r = None
       /\ Session.created_at r = 1000
       /\ Session.jd_text r = JS.trim (Start.jd_text backend_role)
       /\ Session.jd_text r = String c t
       /\ Session.difficulty r ∈ difficulty_levels
       /\ strict_encoder (JSON.strings ["Why this role?"; "Describe a hard bug."])
          = Some (Session.questions_asked r)
       /\ getSession
            (snd (postStart strict_encoder empty_db 7 None backend_role None
                            two_questions_reply 1000)) 7 (decimal 1) = Found (view r)
       /\ forall other, other <> 7 ->
            getSession
              (snd (postStart strict_encoder empty_db 7 None backend_role None
                              two_questions_reply 1000)) other (decimal 1) = NotFound.
Proof.
  apply (started_session_is_ready strict_encoder empty_db 7 None backend_role None
           two_questions_reply 1000 1
           (JSON.strings ["Why this role?"; "Describe a hard bug."])).
  vm_compute. reflexivity.
Defined.

(** X9. A start request that the upload filter rejects, that fails
    validation, or whose resume cannot be read, is not answered with status
    200 and writes nothing: the table is the one before the request. *)
Theorem refused_start_writes_nothing
    (encode : encoder) (db : database) (userId : Z) (file : option Start.file)
    (body : Start.body) (library : option string) (reply : ai_reply) (now : Z) :
  refused_before_insert file body library ->
  snd (postStart encode db userId file body library reply now) = db
  /\ status (fst (postStart encode db userId file body library reply now)) <> Some 200.
Proof.
  unfold refused_before_insert, postStart. intros H.
  destruct file as [f|].
  - destruct (fileFilter (Start.originalname f)) eqn:Hfilter; cbn [negb].
    + destruct (validate_start body) eqn:Hv.
      * destruct H as [H|[H|[e H]]]; [discriminate|contradiction|].
        rewrite H. split; [reflexivity|discriminate].
      * split; [reflexivity|discriminate].
    + split; [reflexivity|discriminate].
  - destruct (validate_start body) eqn:Hv.
    + destruct H as [H|[H|[e H]]]; [contradiction|contradiction|discriminate].
    + split; [reflexivity|discriminate].
Qed.

(** X9 at a request whose job description is blank. *)
Lemma refused_start_writes_nothing_witness :
  snd (postStart strict_encoder fresh_db 7 (Some text_resume) no_description
                 (Some "Curriculum vitae") two_questions_reply 1000) = fresh_db
  /\ status (fst (postStart strict_encoder fresh_db 7 (Some text_resume) no_description
                            (Some "Curriculum vitae") two_questions_reply 1000))
     <> Some 200.
Proof.
  apply (refused_start_writes_nothing strict_encoder fresh_db 7 (Some text_resume)
           no_description (Some "Curriculum vitae") two_questions_reply 1000).
  right. left. vm_compute. discriminate.
Defined.

(** X10. The [focus_areas] field of a start request is validated and then
    never read: two requests that pass validation and differ in this field
    only get the same response and leave the same table. *)
Theorem focus_areas_field_is_not_used
    (encode : encoder) (db : database) (userId : Z) (file : option Start.file)
    (body : Start.body) (library : option string) (reply : ai_reply) (now : Z)
    (value : option JSON.value) :
  validate_start body = [] ->
  validate_start (with_focus_areas value body) = [] ->
  postStart encode db userId file (with_focus_areas value body) library reply now
  = postStart encode db userId file body library reply now.
Proof.
  intros H1 H2. unfold postStart. rewrite H1, H2. reflexivity.
Qed.

(** X10 at a request that asks for two focus areas. *)
Lemma focus_areas_field_is_not_used_witness :
  postStart strict_encoder empty_db 7 None
    (with_focus_areas (Some (JSON.Str "[1, 2]")) backend_role) None CallFailed 1000
  = postStart strict_encoder empty_db 7 None backend_role None CallFailed 1000.
Proof.
  apply (focus_areas_field_is_not_used strict_encoder empty_db 7 None backend_role None
           CallFailed 1000 (Some (JSON.Str "[1, 2]")));
    vm_compute; reflexivity.
Defined.

(** X11. A start request can fail after its row was inserted: when the
    insert succeeded and then the questions cannot be stored, or are the
    value null, the response is the 500 of the handler, and the table holds
    a new session of the caller under the id the insert returned. *)
Theorem failed_start_can_leave_a_row
    (encode : encoder) (db : database) (userId : Z) (file : option Start.file)
    (body : Start.body) (library : option string) (reply : ai_reply) (now : Z)
    (url text : string) (sid : Z) (db1 : database) :
  match file with Some f => fileFilter (Start.originalname f) = true | None => True end ->
  validate_start body = [] ->
  read_resume file library = Returned (url, text) ->
  insert_session encode db now userId url text (JS.trim (Start.jd_text body))
    (parsed_focus_areas body) (default "intermediate" (Start.difficulty body))
    (Start.role_type body) = (Returned sid, db1) ->
  encode (generateInterviewQuestions (parsed_focus_areas body) reply) = None
  \/ generateInterviewQuestions (parsed_focus_areas body) reply = JSON.Null ->
  fst (postStart encode db userId file body library reply now) = start_failed
  /\ interview_sessions db !! sid = None
  /\ exists r,
       interview_sessions (snd (postStart encode db userId file body library reply now))
         !! sid = Some r
       /\ Session.user_id r = userId
       /\ Session.Active r.
Proof.
  intros Hfile Hv Hres Hins Hq.
  assert (Hfilter : match file with
                    | Some f => negb (fileFilter (Start.originalname f))
                    | None => false
                    end = false).
  { destruct file as [f|]; [rewrite Hfile|]; reflexivity. }
  unfold postStart. rewrite Hfilter, Hv, Hres, Hins.
  apply insert_session_Returned in Hins
    as (focus & url' & level' & role' & _ & _ & _ & _ & -> & _ & Hfree & ->).
  destruct (encode (generateInterviewQuestions (parsed_focus_areas body) reply))
    as [stored|] eqn:Henc.
  - destruct Hq as [Hq|Hq]; [discriminate|]. rewrite Hq. cbn [fst snd].
    split; [reflexivity|]. split; [exact Hfree|].
    eexists.
    split; [rewrite lookup_update_session; cbn [interview_sessions];
            rewrite lookup_insert_eq; reflexivity|split; reflexivity].
  - cbn [fst snd]. split; [reflexivity|]. split; [exact Hfree|].
    eexists.
    split; [cbn [interview_sessions]; rewrite lookup_insert_eq; reflexivity
           |split; reflexivity].
Qed.

(** X11 at a response whose text is the JSON value null. *)
Lemma failed_start_can_leave_a_row_witness :
  fst (postStart strict_encoder empty_db 7 None backend_role None (CandidateText "null") 1000)
  = start_failed
  /\ interview_sessions empty_db !! 1 = None
  /\ exists r,
       interview_sessions
         (snd (postStart strict_encoder empty_db 7 None backend_role None
                         (CandidateText "null") 1000)) !! 1 = Some r
       /\ Session.user_id r = 7
       /\ Session.Active r.
Proof.
  eapply (failed_start_can_leave_a_row strict_encoder empty_db 7 None backend_role None
            (CandidateText "null") 1000 "" "");
    [exact I | reflexivity | reflexivity | vm_compute; reflexivity
    | right; vm_compute; reflexivity].
Defined.

(** ** The table stays well keyed *)

Section WellKeyed.

Lemma well_keyed_update f id db :
  (forall r, Session.id (f r) = Session.id r) ->
  well_keyed db -> well_keyed (update_session f id db).
Proof.
  intros Hf Hwk key r. unfold update_session. cbn [interview_sessions next_id].
  rewrite lookup_alter. case_decide as Hk.
  - subst key. destruct (interview_sessions db !! id) as [r0|] eqn:E; [|discriminate].
    intros [= <-]. rewrite Hf. exact (Hwk _ _ E).
  - apply Hwk.
Qed.

Lemma well_keyed_insert encode db now userId url text jd focus level role sid db1 :
  insert_session encode db now userId url text jd focus level role = (Returned sid, db1) ->
  well_keyed db -> well_keyed db1.
Proof.
  intros Hins Hwk.
  apply insert_session_Returned in Hins
    as (stored & url' & level' & role' & _ & _ & _ & _ & -> & Hin & _ & ->).
  intros key r. cbn [interview_sessions next_id].
  rewrite lookup_insert. case_decide as Hk.
  - subst key. intros [= <-]. cbn. split; [reflexivity|]. split; [lia|exact Hin].
  - intros Hr. destruct (Hwk _ _ Hr) as (? & ? & ?). repeat split; [assumption|lia|assumption].
Qed.

(** A failed statement can only advance the sequence. *)
Lemma well_keyed_advanced db db0 :
  interview_sessions db0 = interview_sessions db ->
  next_id db <= next_id db0 ->
  well_keyed db -> well_keyed db0.
Proof.
  intros Hrows Hn Hwk key r. rewrite Hrows. intros Hr.
  destruct (Hwk _ _ Hr) as (? & ? & ?). repeat split; [assumption|lia|assumption].
Qed.

Lemma well_keyed_free db : well_keyed db -> interview_sessions db !! next_id db = None.
Proof.
  intros Hwk. destruct (interview_sessions db !! next_id db) as [r|] eqn:E; [|reflexivity].
  destruct (Hwk _ _ E) as (_ & ? & _). lia.
Qed.

Lemma postStart_well_keyed encode db userId file body library reply now :
  well_keyed db ->
  well_keyed (snd (postStart encode db userId file body library reply now)).
Proof.
  intros Hwk.
  destruct (postStart_cases encode db userId file body library reply now)
    as [[Hrows Hn]|(url & text & sid & db1 & _ & _ & Hins & Hdb)].
  { apply (well_keyed_advanced db); [exact Hrows|lia|exact Hwk]. }
  pose proof (well_keyed_insert _ _ _ _ _ _ _ _ _ _ _ _ Hins Hwk) as Hwk1.
  destruct Hdb as [->|(stored & _ & ->)]; [exact Hwk1|].
  apply well_keyed_update; [reflexivity|exact Hwk1].
Qed.

Lemma postAnswer_well_keyed capacity db userId body feedback_reply score_reply now :
  well_keyed db ->
  well_keyed (snd (postAnswer capacity db userId body feedback_reply score_reply now)).
Proof.
  intros Hwk.
  destruct (postAnswer_cases capacity db userId body feedback_reply score_reply now)
    as [->|(sid & r & answers & _ & _ & _ & [->|(fb & sc & ->)])];
    [exact Hwk|..];
    repeat (apply well_keyed_update; [reflexivity|]); exact Hwk.
Qed.

(** In a well-keyed table the insert returns exactly when its parameters
    and the sequence allow it. *)
Lemma insert_session_returns encode db now userId url text jd focus level role :
  well_keyed db ->
  (exists sid db1,
     insert_session encode db now userId url text jd focus level role = (Returned sid, db1))
  <-> insertable encode db url text jd focus level role.
Proof.
  intros Hwk. unfold insertable, insert_session.
  rewrite (well_keyed_free db Hwk).
  destruct (encode focus) as [stored|].
  2:{ split; [intros (? & ? & [=])|intros ([? [=]] & _)]. }
  destruct (Pg.text url); cbn [andb negb];
    [|split; [intros (? & ? & [=])|intros (_ & [=] & _)]].
  destruct (Pg.text text); cbn [andb negb];
    [|split; [intros (? & ? & [=])|intros (_ & _ & [=] & _)]].
  destruct (Pg.text jd); cbn [andb negb];
    [|split; [intros (? & ? & [=])|intros (_ & _ & _ & [=] & _)]].
  destruct (Pg.text level); cbn [andb negb];
    [|split; [intros (? & ? & [=])|intros (_ & _ & _ & _ & [=] & _)]].
  destruct (Pg.nullable_text role); cbn [andb negb];
    [|split; [intros (? & ? & [=])|intros (_ & _ & _ & _ & _ & [=] & _)]].
  destruct (Pg.in_integer (next_id db)); cbn [negb];
    [|split; [intros (? & ? & [=])|intros (_ & _ & _ & _ & _ & _ & [=] & _)]].
  destruct (Pg.varchar 500 url) as [url'|].
  2:{ split; [intros (? & ? & [=])|intros (_ & _ & _ & _ & _ & _ & _ & [? [=]] & _)]. }
  destruct (Pg.varchar 50 level) as [level'|].
  2:{ split; [intros (? & ? & [=])|intros (_ & _ & _ & _ & _ & _ & _ & _ & [? [=]] & _)]. }
  destruct (Pg.nullable_varchar 100 role) as [role'|].
  2:{ split; [intros (? & ? & [=])|intros (_ & _ & _ & _ & _ & _ & _ & _ & _ & [? [=]])]. }
  split; [intros _; repeat split; eauto|intros _; eauto].
Qed.

End WellKeyed.

(** X12. In a table where every row sits under its own id, an [INTEGER]
    below the next value of the sequence, both writing routes keep it so,
    and the insert of [POST /start] never meets a taken id: it returns an
    id exactly when the focus areas can be read as an array, no text
    parameter holds U+0000, the next value of the sequence is an [INTEGER]
    and the strings fit their [VARCHAR] columns. *)
Theorem routes_keep_the_table_well_keyed
    (encode : encoder) (capacity : Z) (db : database) (userId : Z)
    (file : option Start.file) (start : Start.body) (library : option string)
    (reply : ai_reply) (answer : Answer.body) (feedback_reply score_reply : ai_reply)
    (now : Z) :
  well_keyed db ->
  well_keyed (snd (postStart encode db userId file start library reply now))
  /\ well_keyed (snd (postAnswer capacity db userId answer feedback_reply score_reply now))
  /\ interview_sessions db !! next_id db = None
  /\ forall url text jd focus level role,
       (exists sid db1,
          insert_session encode db now userId url text jd focus level role
          = (Returned sid, db1))
       <-> insertable encode db url text jd focus level role.
Proof.
  intros Hwk. split; [|split; [|split]].
  - apply postStart_well_keyed. exact Hwk.
  - apply postAnswer_well_keyed. exact Hwk.
  - apply well_keyed_free. exact Hwk.
  - intros. apply insert_session_returns. exact Hwk.
Qed.

Lemma fresh_db_well_keyed : well_keyed fresh_db.
Proof.
  intros id r H. unfold fresh_db in H. cbn [interview_sessions] in H.
  apply lookup_singleton_Some in H as [<- <-].
  split; [reflexivity|]. split; [cbn; lia|reflexivity].
Qed.

(** X12 at the table that holds session 1. *)
Lemma routes_keep_the_table_well_keyed_witness :
  well_keyed (snd (postStart strict_encoder fresh_db 7 None backend_role None CallFailed 1000))
  /\ well_keyed (snd (postAnswer 1000 fresh_db 7 (say 0 "Because.") CallFailed CallFailed 1000))
  /\ interview_sessions fresh_db !! next_id fresh_db = None
  /\ forall url text jd focus level role,
       (exists sid db1,
          insert_session strict_encoder fresh_db 1000 7 url text jd focus level role
          = (Returned sid, db1))
       <-> insertable strict_encoder fresh_db url text jd focus level role.
Proof.
  apply (routes_keep_the_table_well_keyed strict_encoder 1000 fresh_db 7 None backend_role
           None CallFailed (say 0 "Because.") CallFailed CallFailed 1000).
  exact fresh_db_well_keyed.
Defined.

(** ** Uploads: the filter and the extraction *)

Section Uploads.

Variable name : string.

Lemma extraction_branches library :
  extractTextFromFile name library
  = if bool_decide (lowered_extension name ∈ readable_types)
    then match library with
         | Some text => Returned text
         | None => Thrown "Failed to extract text from file"
         end
    else Thrown "Failed to extract text from file".
Proof.
  unfold extractTextFromFile, lowered_extension, readable_types.
  destruct (String.eqb_spec (JS.toLowerCase (JS.extname name)) ".pdf") as [->|H1].
  { destruct library; reflexivity. }
  destruct (String.eqb_spec (JS.toLowerCase (JS.extname name)) ".docx") as [->|H2].
  { destruct library; reflexivity. }
  destruct (String.eqb_spec (JS.toLowerCase (JS.extname name)) ".txt") as [->|H3].
  { destruct library; reflexivity. }
  rewrite bool_decide_eq_false_2; [reflexivity|].
  rewrite !elem_of_cons, elem_of_nil. tauto.
Qed.

End Uploads.

(** X13. [extractTextFromFile] returns a text exactly when the lowered
    extension of the original name is [.pdf], [.docx] or [.txt] and the
    library read the file; the text returned is the library's.  Every error
    it throws, whatever its cause, carries the one message
    [Failed to extract text from file]. *)
Theorem extraction_returns_iff (name : string) (library : option string) (text : string) :
  (extractTextFromFile name library = Returned text
   <-> library = Some text /\ lowered_extension name ∈ readable_types)
  /\ forall e, extractTextFromFile name library = Thrown e ->
               e = "Failed to extract text from file".
Proof.
  rewrite extraction_branches. case_bool_decide as Hext.
  - destruct library as [t|]; split.
    + split; [intros [= ->]; auto|intros [[= ->] _]; reflexivity].
    + discriminate.
    + split; [discriminate|intros [? _]; discriminate].
    + intros e [= <-]. reflexivity.
  - split.
    + split; [discriminate|intros [_ ?]; contradiction].
    + intros e [= <-]. reflexivity.
Qed.

(** X14. Among the files the upload filter accepts, the ones that the
    extraction cannot read although the library could are exactly the ones
    whose lowered extension is [.doc]. *)
Theorem only_doc_is_accepted_and_unreadable (name text : string) :
  fileFilter name = true ->
  (extractTextFromFile name (Some text) <> Returned text
   <-> lowered_extension name = ".doc").
Proof.
  unfold fileFilter. intros Hf. apply bool_decide_eq_true in Hf.
  fold (lowered_extension name) in Hf.
  rewrite extraction_branches. unfold allowedTypes, readable_types in *.
  case_bool_decide as Hext.
  - split; [intros H; contradiction H; reflexivity|].
    intros E. rewrite E in Hext. exfalso. revert Hext.
    rewrite !elem_of_cons, elem_of_nil. intros [H|[H|[H|[]]]]; discriminate.
  - split; [|intros _; discriminate].
    intros _. revert Hf Hext. rewrite !elem_of_cons, !elem_of_nil. tauto.
Qed.

(** X14 at a [.txt] upload: it is accepted and read, and its extension is
    not [.doc]. *)
Lemma only_doc_is_accepted_and_unreadable_witness :
  fileFilter "notes.TXT" = true
  /\ (extractTextFromFile "notes.TXT" (Some "Ten years of Rocq.")
      <> Returned "Ten years of Rocq."
      <-> lowered_extension "notes.TXT" = ".doc").
Proof.
  split; [reflexivity|].
  apply (only_doc_is_accepted_and_unreadable "notes.TXT" "Ten years of Rocq.").
  reflexivity.
Defined.

(** ** Questions read from the lines of a text *)

Section Lines.

Lemma split_lines_not_nil text : JS.split_lines text <> [].
Proof. destruct text as [|c r]; simpl; [discriminate|]. destruct (_ =? _)%N; [discriminate|].
  destruct (JS.split_lines r); discriminate. Qed.

Lemma split_lines_no_line_feed text :
  Forall (fun piece => ~ occurs JS.LF piece) (JS.split_lines text).
Proof.
  induction text as [|c r IH]; cbn [JS.split_lines].
  - constructor; [|constructor]. intros [].
  - destruct (N.eqb_spec (JS.code c) 10) as [Hc|Hc].
    + constructor; [intros []|exact IH].
    + destruct (JS.split_lines r) as [|piece rest]; [constructor; [|constructor]|].
      * intros [H|[]]. apply Hc. rewrite H. reflexivity.
      * inversion IH as [|? ? Hp Hrest]; subst. constructor; [|exact Hrest].
        intros [H|H]; [apply Hc; rewrite H; reflexivity|exact (Hp H)].
Qed.

(** Joining the pieces with line feeds gives the text back. *)
Lemma join_split_lines text : join JS.LF (JS.split_lines text) = text.
Proof.
  induction text as [|c r IH]; [reflexivity|]. cbn [JS.split_lines].
  pose proof (split_lines_not_nil r) as Hne.
  destruct (JS.split_lines r) as [|piece rest]; [contradiction|].
  destruct (N.eqb_spec (JS.code c) 10) as [Hc|Hc].
  - change (join JS.LF (EmptyString :: piece :: rest))
      with (String JS.LF (join JS.LF (piece :: rest))).
    rewrite IH. f_equal.
    unfold JS.code in Hc. rewrite <- (ascii_N_embedding c), Hc. reflexivity.
  - rewrite <- IH. destruct rest; reflexivity.
Qed.

End Lines.

(** X15. When the text of the response is not JSON, the questions are an
    array of strings, each a piece of the text between two line feeds that
    is not blank: no question is blank and none holds a line feed.  The
    pieces themselves, joined by line feeds, are the text. *)
Theorem line_questions_are_clean (items : list JSON.value) (text : string) :
  JSON.parse text = None ->
  exists questions,
    generateInterviewQuestions (JSON.Array items) (CandidateText text)
    = JSON.strings questions
    /\ Forall (fun q => JS.is_blank q = false /\ ~ occurs JS.LF q /\ In q (JS.split_lines text))
              questions
    /\ join JS.LF (JS.split_lines text) = text.
Proof.
  intros H. exists (nonblank_lines text).
  split; [apply questions_from_lines; exact H|].
  split; [|apply join_split_lines].
  apply List.Forall_forall. intros q Hq.
  unfold nonblank_lines in Hq. apply List.filter_In in Hq as [Hin Hb].
  split; [destruct (JS.is_blank q); [discriminate|reflexivity]|].
  split; [|exact Hin].
  pose proof (split_lines_no_line_feed text) as Hall.
  rewrite List.Forall_forall in Hall. exact (Hall q Hin).
Qed.

(** X15 at a text of two questions and a blank line. *)
Lemma line_questions_are_clean_witness :
  exists questions,
    generateInterviewQuestions (JSON.Array [])
      (CandidateText (join JS.LF ["1. Why this role?"; "  "; "2. Why now?"]))
    = JSON.strings questions
    /\ Forall (fun q => JS.is_blank q = false /\ ~ occurs JS.LF q
                        /\ In q (JS.split_lines
                                   (join JS.LF ["1. Why this role?"; "  "; "2. Why now?"])))
              questions
    /\ join JS.LF (JS.split_lines (join JS.LF ["1. Why this role?"; "  "; "2. Why now?"]))
       = join JS.LF ["1. Why this role?"; "  "; "2. Why now?"].
Proof.
  apply (line_questions_are_clean []
           (join JS.LF ["1. Why this role?"; "  "; "2. Why now?"])).
  vm_compute. reflexivity.
Defined.

(** ** The score is read from the first number *)

Section FirstNumber.

Lemma append_cons c s t : String c s +:+ t = String c (s +:+ t).
Proof. reflexivity. Qed.

Lemma append_empty t : EmptyString +:+ t = t.
Proof. reflexivity. Qed.

Lemma match_digits_skip before s :
  no_digit before -> JS.match_digits (before +:+ s) = JS.match_digits s.
Proof.
  unfold no_digit. induction before as [|c before IH];
    cbn [list_ascii_of_string]; [reflexivity|].
  intros H. apply Forall_cons in H as [Hc H].
  rewrite append_cons. cbn [JS.match_digits]. rewrite Hc. exact (IH H).
Qed.

Lemma take_digits_run number after :
  all_digits number -> stops_digits after ->
  JS.take_digits (number +:+ after) = number.
Proof.
  unfold all_digits. induction number as [|c number IH]; cbn [list_ascii_of_string].
  - intros _ H. rewrite append_empty. destruct after as [|c r]; [reflexivity|].
    cbn [JS.take_digits stops_digits] in *. rewrite H. reflexivity.
  - intros H Hs. apply Forall_cons in H as [Hc H].
    rewrite append_cons. cbn [JS.take_digits]. rewrite Hc, (IH H Hs). reflexivity.
Qed.

Lemma match_digits_run number after :
  all_digits number -> number <> EmptyString -> stops_digits after ->
  JS.match_digits (number +:+ after) = Some number.
Proof.
  intros H Hne Hs. destruct number as [|c number]; [contradiction|].
  unfold all_digits in H. cbn [list_ascii_of_string] in H.
  apply Forall_cons in H as [Hc H].
  rewrite append_cons. cbn [JS.match_digits].
  rewrite Hc, (take_digits_run _ _ H Hs). reflexivity.
Qed.

End FirstNumber.

(** X16. The score is read from the first number of the response and from
    nothing else: for a text made of a part without digits, then a run of
    digits, then a part that is empty or starts with another character, the
    score is the value of that run, clamped into [1,100].  A sign before the
    run and whatever follows it do not count. *)
Theorem score_reads_the_first_number (before number after : string) :
  no_digit before ->
  all_digits number ->
  number <> EmptyString ->
  stops_digits after ->
  calculateInterviewScore (CandidateText (before +:+ number +:+ after))
  = Some (Z.max 1 (Z.min 100 (JS.digits_value 0 number))).
Proof.
  intros Hb Hn Hne Ha. cbn [calculateInterviewScore].
  rewrite (match_digits_skip _ _ Hb), (match_digits_run _ _ Hn Hne Ha).
  destruct number as [|c number]; [contradiction|].
  unfold all_digits in Hn. cbn [list_ascii_of_string] in Hn.
  apply Forall_cons in Hn as [Hc _].
  cbn [JS.or_else]. unfold JS.parseInt. rewrite Hc. reflexivity.
Qed.

(** X16 at a response that rates minus 85 out of 100. *)
Lemma score_reads_the_first_number_witness :
  calculateInterviewScore (CandidateText ("Score: -" +:+ "85" +:+ "/100, well done"))
  = Some (Z.max 1 (Z.min 100 (JS.digits_value 0 "85"))).
Proof.
  apply (score_reads_the_first_number "Score: -" "85" "/100, well done");
    [repeat constructor | repeat constructor | discriminate | reflexivity].
Defined.

(** ** [authenticateToken] *)

Section Authentication.

Lemma split_at_not_nil sep s : split_at sep s <> [].
Proof.
  destruct s as [|c r]; cbn [split_at]; [discriminate|].
  destruct (_ =? _)%N; [discriminate|]. destruct (split_at sep r); discriminate.
Qed.

Lemma not_occurs_cons c d s : ~ occurs c (String d s) -> d <> c /\ ~ occurs c s.
Proof. unfold occurs. cbn [list_ascii_of_string In]. tauto. Qed.

Lemma code_space c : c <> ascii_of_N 32 -> (JS.code c =? 32)%N = false.
Proof.
  intros H. apply N.eqb_neq. intros E. apply H.
  unfold JS.code in E. rewrite <- (ascii_N_embedding c), E. reflexivity.
Qed.

(** A word without a space, a space, and the rest: the word is the first
    piece, and the pieces of the rest follow. *)
Lemma split_at_word w rest :
  spaceless w ->
  split_at 32 (w +:+ String (ascii_of_N 32) rest) = w :: split_at 32 rest.
Proof.
  unfold spaceless. induction w as [|c w IH]; intros H.
  - reflexivity.
  - apply not_occurs_cons in H as [Hc H].
    rewrite append_cons. cbn [split_at]. rewrite (code_space _ Hc), (IH H). reflexivity.
Qed.

Lemma split_at_spaceless w : spaceless w -> split_at 32 w = [w].
Proof.
  unfold spaceless. induction w as [|c w IH]; intros H; [reflexivity|].
  apply not_occurs_cons in H as [Hc H].
  cbn [split_at]. rewrite (code_space _ Hc), (IH H). reflexivity.
Qed.

Lemma header_token_second_word w token rest :
  spaceless w -> spaceless token ->
  header_token (Some (w +:+ String (ascii_of_N 32) (token +:+ String (ascii_of_N 32) rest)))
  = Some token.
Proof.
  intros Hw Ht. unfold header_token.
  rewrite split_at_word by exact Hw. rewrite split_at_word by exact Ht.
  destruct w; reflexivity.
Qed.

Lemma header_token_last_word w token :
  spaceless w -> spaceless token ->
  header_token (Some (w +:+ String (ascii_of_N 32) token)) = Some token.
Proof.
  intros Hw Ht. unfold header_token.
  rewrite split_at_word by exact Hw. rewrite split_at_spaceless by exact Ht.
  destruct w; reflexivity.
Qed.

End Authentication.

(** X17. The middleware lets a request through only with a token that
    verifies and names a user of the table: when it calls [next], the header
    held a second word, not empty, that [jwt.verify] accepted with a
    [userId], and [req.user] is the row of that id. *)
Theorem authentication_is_sound
    (verify : string -> option (option Z)) (users : gmap Z User.t)
    (authHeader : option string) (user : User.t) :
  authenticateToken verify users authHeader = Next user ->
  exists header token userId,
    authHeader = Some header
    /\ split_at 32 header !! 1%nat = Some token
    /\ token <> EmptyString
    /\ verify token = Some (Some userId)
    /\ users !! userId = Some user.
Proof.
  unfold authenticateToken, header_token.
  destruct authHeader as [[|c header]|]; try discriminate.
  destruct (split_at 32 (String c header) !! 1%nat) as [[|d token]|] eqn:Ht; try discriminate.
  destruct (verify (String d token)) as [[userId|]|] eqn:Hv; try discriminate.
  destruct (Pg.in_integer userId); [|discriminate].
  destruct (users !! userId) as [u|] eqn:Hu; [|discriminate].
  intros [= <-]. exists (String c header), (String d token), userId.
  repeat split; [exact Ht|discriminate|exact Hv|exact Hu].
Qed.

(** X17 at a header with the token the verifier knows. *)
Lemma authentication_is_sound_witness :
  exists header token userId,
    Some "Bearer header.payload.signature" = Some header
    /\ split_at 32 header !! 1%nat = Some token
    /\ token <> EmptyString
    /\ one_token token = Some (Some userId)
    /\ one_user !! userId = Some (User.mk 7 "Ada" "ada@example.org" "free" true).
Proof.
  apply (authentication_is_sound one_token one_user
           (Some "Bearer header.payload.signature")).
  vm_compute. reflexivity.
Defined.

(** X18. The middleware reads the second word of the header and nothing
    else: the first word need not be [Bearer], and what follows a second
    space is ignored.  A header made of any word without a space, the token
    and any further words is treated as [Bearer] followed by the token. *)
Theorem only_the_second_word_counts
    (verify : string -> option (option Z)) (users : gmap Z User.t)
    (scheme token rest : string) :
  spaceless scheme ->
  spaceless token ->
  authenticateToken verify users
    (Some (scheme +:+ String (ascii_of_N 32) (token +:+ String (ascii_of_N 32) rest)))
  = authenticateToken verify users (Some ("Bearer" +:+ String (ascii_of_N 32) token)).
Proof.
  intros Hs Ht. unfold authenticateToken.
  rewrite (header_token_second_word _ _ _ Hs Ht).
  rewrite (header_token_last_word "Bearer" token); [reflexivity| |exact Ht].
  unfold spaceless, occurs. cbn. intros H.
  repeat (destruct H as [H|H]; [discriminate|]). exact H.
Qed.

(** X18 at a header with another scheme and a trailing word. *)
Lemma only_the_second_word_counts_witness :
  authenticateToken one_token one_user
    (Some ("Basic" +:+ String (ascii_of_N 32)
             ("header.payload.signature" +:+ String (ascii_of_N 32) "anything else")))
  = authenticateToken one_token one_user
      (Some ("Bearer" +:+ String (ascii_of_N 32) "header.payload.signature")).
Proof.
  apply (only_the_second_word_counts one_token one_user "Basic"
           "header.payload.signature" "anything else");
    unfold spaceless, occurs; cbn; intros H;
    repeat (destruct H as [H|H]; [discriminate|]); exact H.
Defined.

(** X19. A request without an [Authorization] header, with a header of one
    word (a bare token, say), or with two spaces after the first word, is
    answered 401 [Access token required]; the verifier and the table are
    not consulted. *)
Theorem token_must_be_the_second_word
    (verify : string -> option (option Z)) (users : gmap Z User.t)
    (word rest : string) :
  spaceless word ->
  authenticateToken verify users None = Unauthorized "Access token required"
  /\ authenticateToken verify users (Some word) = Unauthorized "Access token required"
  /\ authenticateToken verify users
       (Some (word +:+ String (ascii_of_N 32) (String (ascii_of_N 32) rest)))
     = Unauthorized "Access token required".
Proof.
  intros Hw. split; [reflexivity|]. split.
  - unfold authenticateToken, header_token.
    destruct word as [|c w]; [reflexivity|].
    rewrite (split_at_spaceless _ Hw). reflexivity.
  - unfold authenticateToken, header_token.
    rewrite (split_at_word _ _ Hw). cbn [split_at].
    change (JS.code (ascii_of_N 32) =? 32)%N with true. cbn iota.
    destruct word; reflexivity.
Qed.

(** X19 at a header that is the bare token. *)
Lemma token_must_be_the_second_word_witness :
  authenticateToken one_token one_user None = Unauthorized "Access token required"
  /\ authenticateToken one_token one_user (Some "header.payload.signature")
     = Unauthorized "Access token required"
  /\ authenticateToken one_token one_user
       (Some ("header.payload.signature" +:+ String (ascii_of_N 32)
                (String (ascii_of_N 32) "header.payload.signature")))
     = Unauthorized "Access token required".
Proof.
  apply (token_must_be_the_second_word one_token one_user "header.payload.signature"
           "header.payload.signature").
  unfold spaceless, occurs; cbn; intros H;
    repeat (destruct H as [H|H]; [discriminate|]); exact H.
Defined.

(** ** [GET /history] *)

Section History.

Lemma insert_newest_first_In r rows x :
  In x (insert_newest_first r rows) <-> x = r \/ In x rows.
Proof.
  induction rows as [|y rows IH]; cbn [insert_newest_first In].
  - intuition.
  - destruct (_ <=? _); cbn [In]; [intuition|]. rewrite IH. intuition.
Qed.

Lemma insert_newest_first_length r rows :
  length (insert_newest_first r rows) = S (length rows).
Proof.
  induction rows as [|y rows IH]; cbn [insert_newest_first]; [reflexivity|].
  destruct (_ <=? _); cbn [length]; [reflexivity|]. rewrite IH. reflexivity.
Qed.

Lemma newest_first_In rows x : In x (newest_first rows) <-> In x rows.
Proof.
  induction rows as [|y rows IH]; cbn [newest_first foldr In]; [reflexivity|].
  fold (newest_first rows). rewrite insert_newest_first_In, IH. intuition.
Qed.

Lemma newest_first_length rows : length (newest_first rows) = length rows.
Proof.
  induction rows as [|y rows IH]; cbn [newest_first foldr length]; [reflexivity|].
  fold (newest_first rows). rewrite insert_newest_first_length, IH. reflexivity.
Qed.

Lemma insert_newest_first_sorted r rows :
  newest_to_oldest (map Session.created_at rows) ->
  newest_to_oldest (map Session.created_at (insert_newest_first r rows)).
Proof.
  induction rows as [|y rows IH]; cbn [insert_newest_first map newest_to_oldest].
  - intros _. split; [constructor|exact I].
  - intros [Hy Hs]. destruct (Z.leb_spec (Session.created_at y) (Session.created_at r)).
    + cbn [map newest_to_oldest]. split; [|split; assumption].
      constructor; [assumption|]. eapply Forall_impl; [exact Hy|]. cbn. intros; lia.
    + cbn [map newest_to_oldest]. split; [|exact (IH Hs)].
      apply List.Forall_forall. intros t Ht.
      apply in_map_iff in Ht as (x & <- & Hx).
      apply insert_newest_first_In in Hx as [->|Hx]; [lia|].
      rewrite List.Forall_forall in Hy. apply Hy. apply in_map. exact Hx.
Qed.

Lemma newest_first_sorted rows :
  newest_to_oldest (map Session.created_at (newest_first rows)).
Proof.
  induction rows as [|y rows IH]; cbn [newest_first foldr]; [exact I|].
  apply insert_newest_first_sorted. exact IH.
Qed.

Lemma newest_to_oldest_drop n times :
  newest_to_oldest times -> newest_to_oldest (drop n times).
Proof.
  revert times. induction n as [|n IH]; intros [|t times]; cbn [drop newest_to_oldest];
    try tauto.
  intros [_ H]. exact (IH _ H).
Qed.

Lemma newest_to_oldest_take n times :
  newest_to_oldest times -> newest_to_oldest (take n times).
Proof.
  revert times. induction n as [|n IH]; intros [|t times]; cbn [take newest_to_oldest];
    try tauto.
  intros [Ht H]. split; [apply Forall_take; exact Ht|exact (IH _ H)].
Qed.

Lemma sessions_of_In db userId r :
  In r (sessions_of db userId)
  <-> Session.user_id r = userId
      /\ exists id, interview_sessions db !! id = Some r.
Proof.
  unfold sessions_of. rewrite newest_first_In, List.filter_In, in_map_iff.
  rewrite Z.eqb_eq. split.
  - intros [([id r'] & E & Hin) Hu]. cbn in E. subst r'. split; [exact Hu|].
    exists id. apply elem_of_map_to_list. apply list_elem_of_In. exact Hin.
  - intros [Hu (id & Hid)]. split; [|exact Hu].
    exists (id, r). split; [reflexivity|].
    apply list_elem_of_In, elem_of_map_to_list. exact Hid.
Qed.

Lemma map_summary_created_at rows :
  map Summary.created_at (map summary rows) = map Session.created_at rows.
Proof. induction rows as [|r rows IH]; cbn [map]; [reflexivity|]. rewrite IH. reflexivity. Qed.

(** A number from [2^53] on is rounded to a number from [2^53] on. *)
Lemma double_large z : 2 ^ 53 <= z -> 2 ^ 53 <= JS.double z.
Proof.
  intros H. unfold JS.double.
  rewrite (Z.abs_eq z) by lia.
  destruct (Z.ltb_spec z (2 ^ 53)) as [|_]; [lia|].
  rewrite (Z.sgn_pos z) by lia.
  assert (Hlog : 53 <= Z.log2 z) by (apply Z.log2_le_pow2; lia).
  set (e := Z.log2 z - 52).
  assert (He : 1 <= e) by (unfold e; lia).
  assert (Hpow : 0 < 2 ^ e) by (apply Z.pow_pos_nonneg; lia).
  assert (Hq : 2 ^ 52 <= z / 2 ^ e).
  { apply Z.div_le_lower_bound; [exact Hpow|].
    rewrite Z.mul_comm, <- Z.pow_add_r by lia.
    replace (52 + e) with (Z.log2 z) by (unfold e; lia).
    apply Z.log2_spec. lia. }
  assert (Hq' : z / 2 ^ e
                <= (if z mod 2 ^ e <? 2 ^ (e - 1) then z / 2 ^ e
                    else if 2 ^ (e - 1) <? z mod 2 ^ e then z / 2 ^ e + 1
                         else if Z.even (z / 2 ^ e) then z / 2 ^ e else z / 2 ^ e + 1)).
  { repeat destruct (_ <? _); try destruct (Z.even _); lia. }
  cbv zeta.
  assert (Hp : 2 ^ 1 <= 2 ^ e) by (apply Z.pow_le_mono_r; lia).
  change (2 ^ 53) with (2 ^ 52 * 2 ^ 1) at 1.
  rewrite Z.mul_1_l. apply Z.mul_le_mono_nonneg; lia.
Qed.

Lemma getHistory_History db userId page limit sessions p l total pages :
  getHistory db userId page limit = History sessions p l total pages ->
  p = JS.double (default 1 page)
  /\ l = JS.double (default 10 limit)
  /\ 0 <= default 10 limit
  /\ (exists offset,
        sessions = map summary (take (Z.to_nat (default 10 limit))
                                  (drop offset (sessions_of db userId))))
  /\ total = Z.of_nat (length (sessions_of db userId))
  /\ pages = if l =? 0 then None else Some ((total + l - 1) / l).
Proof.
  unfold getHistory.
  destruct (negb (JS.finite _)); [discriminate|].
  destruct (negb (Pg.in_bigint (default 10 limit))); [discriminate|].
  destruct (Z.ltb_spec (default 10 limit) 0); [discriminate|].
  destruct (negb (Pg.in_bigint _)); [discriminate|].
  destruct (_ <? 0); [discriminate|].
  cbn [orb]. intros [= <- <- <- <- <-].
  repeat split; [assumption|]. eexists. reflexivity.
Qed.

Lemma history_own db userId page limit sessions p l total pages s :
  getHistory db userId page limit = History sessions p l total pages ->
  In s sessions ->
  exists id r, interview_sessions db !! id = Some r
               /\ Session.user_id r = userId
               /\ s = summary r.
Proof.
  intros H Hs. apply getHistory_History in H as (_ & _ & _ & (offset & ->) & _).
  apply in_map_iff in Hs as (r & <- & Hr).
  apply list_elem_of_In in Hr. apply subseteq_take, subseteq_drop in Hr.
  apply list_elem_of_In, sessions_of_In in Hr as [Hu [id Hid]]. eauto.
Qed.

End History.

(** X20. When [GET /history] answers with a list, every session listed is
    a row of the caller; the list is no longer than the [limit] of the
    request, and no longer than the [limit] of the response, which is the
    one of the request read as a double, when the caller has fewer than
    [2^53] sessions; the list runs from the newest to the oldest; [total]
    counts all the rows of the caller, whatever the page. *)
Theorem history_lists_own_sessions
    (db : database) (userId : Z) (page limit : option Z)
    (sessions : list Summary.t) (p l total : Z) (pages : option Z) :
  getHistory db userId page limit = History sessions p l total pages ->
  (forall s, In s sessions ->
             exists id r, interview_sessions db !! id = Some r
                          /\ Session.user_id r = userId
                          /\ s = summary r)
  /\ Z.of_nat (length sessions) <= default 10 limit
  /\ l = JS.double (default 10 limit)
  /\ (total < 2 ^ 53 -> Z.of_nat (length sessions) <= l)
  /\ newest_to_oldest (map Summary.created_at sessions)
  /\ total
     = Z.of_nat (length (List.filter (fun r => Session.user_id r =? userId)
                                     (map snd (map_to_list (interview_sessions db))))).
Proof.
  intros H.
  split; [intros s Hs; exact (history_own _ _ _ _ _ _ _ _ _ _ H Hs)|].
  apply getHistory_History in H as (-> & -> & Hl & (offset & ->) & -> & _).
  split; [rewrite length_map, length_take; lia|].
  split; [reflexivity|].
  split; [|split].
  - intros Ht. rewrite length_map, length_take, length_drop.
    destruct (Z.lt_ge_cases (default 10 limit) (2 ^ 53)) as [Hs|Hs].
    + rewrite double_safe by lia. lia.
    + apply double_large in Hs. lia.
  - rewrite map_summary_created_at.
    rewrite <- firstn_map, <- skipn_map.
    apply newest_to_oldest_take, newest_to_oldest_drop, newest_first_sorted.
  - unfold sessions_of. rewrite newest_first_length. reflexivity.
Qed.

(** X20 at the second page, of two sessions, of a user with three. *)
Lemma history_lists_own_sessions_witness :
  (forall s, In s [summary fresh_row] ->
             exists id r, interview_sessions busy_db !! id = Some r
                          /\ Session.user_id r = 7
                          /\ s = summary r)
  /\ Z.of_nat (length [summary fresh_row]) <= default 10 (Some 2)
  /\ 2 = JS.double (default 10 (Some 2))
  /\ (3 < 2 ^ 53 -> Z.of_nat (length [summary fresh_row]) <= 2)
  /\ newest_to_oldest (map Summary.created_at [summary fresh_row])
  /\ 3 = Z.of_nat (length (List.filter (fun r => Session.user_id r =? 7)
                                       (map snd (map_to_list (interview_sessions busy_db))))).
Proof.
  apply (history_lists_own_sessions busy_db 7 (Some 2) (Some 2) [summary fresh_row]
           2 2 3 (Some 2)).
  vm_compute. reflexivity.
Defined.

(** X21. For a page number and a limit that are at least 1 and below
    [2^53], with an offset [(page - 1) * limit] below [2^53], [GET /history]
    answers with a list; [pages] is the least number of pages of [limit]
    sessions that hold [total] sessions; the page holds [limit] sessions, or
    what is left of [total] after the pages before it, and is empty past the
    last page. *)
Theorem history_pages_cover_the_total
    (db : database) (userId : Z) (page limit : Z) :
  1 <= page < 2 ^ 53 ->
  1 <= limit < 2 ^ 53 ->
  (page - 1) * limit < 2 ^ 53 ->
  exists sessions total pages,
    getHistory db userId (Some page) (Some limit)
    = History sessions page limit total (Some pages)
    /\ 0 <= total <= pages * limit
    /\ pages * limit < total + limit
    /\ Z.of_nat (length sessions) = Z.min limit (Z.max 0 (total - (page - 1) * limit))
    /\ (pages < page -> sessions = []).
Proof.
  intros Hp Hl Ho. unfold getHistory. cbn [default from_option id].
  assert (H0 : 0 <= (page - 1) * limit) by nia.
  rewrite (double_safe page), (double_safe limit), (double_safe (page - 1)),
    (double_safe ((page - 1) * limit)) by lia.
  assert (Hf : JS.finite page = true).
  { unfold JS.finite. apply Z.ltb_lt.
    assert (2 ^ 53 < 2 ^ 1024) by (apply Z.pow_lt_mono_r; lia). lia. }
  assert (H63 : 2 ^ 53 < 2 ^ 63) by (apply Z.pow_lt_mono_r; lia).
  assert (Hbl : Pg.in_bigint limit = true).
  { unfold Pg.in_bigint. apply andb_true_iff. split; [apply Z.leb_le|apply Z.ltb_lt]; lia. }
  assert (Hbo : Pg.in_bigint ((page - 1) * limit) = true).
  { unfold Pg.in_bigint. apply andb_true_iff. split; [apply Z.leb_le|apply Z.ltb_lt]; lia. }
  rewrite Hf, Hbl, Hbo. cbn [negb orb].
  destruct (Z.ltb_spec limit 0); [lia|].
  destruct (Z.ltb_spec ((page - 1) * limit) 0); [lia|]. cbn [orb].
  destruct (Z.eqb_spec limit 0); [lia|].
  set (all := sessions_of db userId).
  set (total := Z.of_nat (length all)).
  eexists _, _, _. split; [reflexivity|].
  assert (Hdiv : limit * ((total + limit - 1) / limit) <= total + limit - 1
                 < limit * ((total + limit - 1) / limit + 1)).
  { split; [apply Z.mul_div_le; lia|apply Z.mul_succ_div_gt; lia]. }
  assert (Hlen : Z.of_nat (length (map summary
                    (take (Z.to_nat limit) (drop (Z.to_nat ((page - 1) * limit)) all))))
                 = Z.min limit (Z.max 0 (total - (page - 1) * limit))).
  { rewrite length_map, length_take, length_drop. subst total. lia. }
  split; [subst total; nia|]. split; [nia|]. split; [exact Hlen|].
  intros Hpast.
  assert (Hzero : Z.min limit (Z.max 0 (total - (page - 1) * limit)) = 0) by nia.
  rewrite Hzero in Hlen.
  destruct (map summary _); [reflexivity|]. cbn [length] in Hlen. lia.
Qed.

(** X21 at the second page, of two sessions, of a user with three. *)
Lemma history_pages_cover_the_total_witness :
  exists sessions total pages,
    getHistory busy_db 7 (Some 2) (Some 2) = History sessions 2 2 total (Some pages)
    /\ 0 <= total <= pages * 2
    /\ pages * 2 < total + 2
    /\ Z.of_nat (length sessions) = Z.min 2 (Z.max 0 (total - (2 - 1) * 2))
    /\ (pages < 2 -> sessions = []).
Proof.
  apply (history_pages_cover_the_total busy_db 7 2 2); lia.
Defined.

(** ** The interview page and [POST /answer] together *)

Section Interview.

Variable capacity : Z.
Variable userId : Z.
Variable sid : Z.

Hypothesis key : Pg.in_integer sid = true.

Lemma array_set_append (a : text_array) v :
  Z.of_nat (length a) < 2 ^ 32 - 1 ->
  array_set a (Z.of_nat (length a)) v = a ++ [Some v].
Proof.
  intros H. rewrite array_set_beyond.
  - rewrite Nat2Z.id, Nat.sub_diag. reflexivity.
  - split; lia.
  - rewrite Nat2Z.id. lia.
Qed.

Lemma only_answers_differ_refl r : only_answers_differ r r.
Proof. repeat split. Qed.

Lemma only_answers_differ_trans r1 r2 r3 :
  only_answers_differ r1 r2 -> only_answers_differ r2 r3 -> only_answers_differ r1 r3.
Proof.
  unfold only_answers_differ, same_inputs. intros H1 H2.
  destruct H1 as ((?&?&?&?&?&?&?&?&?&?)&?&?&?), H2 as ((?&?&?&?&?&?&?&?&?&?)&?&?&?).
  repeat split; congruence.
Qed.

Lemma play_app st db turns more :
  play capacity st db userId (turns ++ more)
  = play capacity (fst (play capacity st db userId turns))
         (snd (play capacity st db userId turns)) userId more.
Proof.
  revert st db. induction turns as [|t turns IH]; intros st db; [reflexivity|].
  cbn [app play]. destruct (Client.step st =? 2) eqn:Hs.
  - destruct (submitAnswer capacity st db userId t) as [st' db']. apply IH.
  - cbn [fst snd]. destruct more; cbn [play]; [reflexivity|]. rewrite Hs. reflexivity.
Qed.

Lemma text_array_app (a b : text_array) :
  Pg.text_array (a ++ b) = Pg.text_array a && Pg.text_array b.
Proof. unfold Pg.text_array. apply forallb_app. Qed.

(** The request the page sends for the answer [typed] at the end of the
    answers of [r]. *)
Lemma page_request db r typed :
  interview_sessions db !! sid = Some r ->
  Session.user_id r = userId ->
  Z.of_nat (length (answers_of r)) < Z.of_nat (length (questions_of r)) ->
  Z.of_nat (length (questions_of r)) < 2 ^ 32 ->
  Z.of_nat (length (questions_of r)) <= capacity ->
  Pg.text_array (answers_of r) = true ->
  JS.is_blank typed = false ->
  Pg.text (JS.trim typed) = true ->
  let body := {| Answer.session_id := JS.Int sid;
                 Answer.answer := typed;
                 Answer.question_index := JS.Int (Z.of_nat (length (answers_of r))) |} in
  finds db userId body sid r
  /\ writable capacity r body
  /\ property_set (answers_of r) (Answer.question_index body) (JS.trim typed)
     = answers_of r ++ [Some (JS.trim typed)].
Proof.
  intros Hf Ho Hlt Hbig Hcap Ha Hblank Htext body.
  assert (H53 : 2 ^ 32 < 2 ^ 53) by (apply Z.pow_lt_mono_r; lia).
  assert (Hi : Z.abs (Z.of_nat (length (answers_of r))) <= 2 ^ 53) by lia.
  assert (Hs : Z.abs sid <= 2 ^ 53) by (apply in_integer_safe; exact key).
  split; [|split].
  - split; [|split; [|split; [|split]]]; try assumption.
    + unfold validate_answer, body. cbn [Answer.session_id Answer.answer Answer.question_index].
      rewrite (isInt_Int sid Hs), (isInt_Int _ Hi), Hblank. reflexivity.
    + apply integer_Int. exact key.
  - split; [|split; assumption].
    unfold body. cbn [Answer.question_index]. unfold length_after.
    rewrite (element_Int _ Hi). unfold length_of_set.
    destruct (Z.leb_spec (Z.of_nat (length (answers_of r))) (Z.of_nat (length (answers_of r))));
      [|lia].
    destruct (Z.ltb_spec (Z.of_nat (length (answers_of r))) (2 ^ 32 - 1)); [|lia].
    cbn [andb]. lia.
  - unfold body. cbn [Answer.question_index]. unfold property_set.
    rewrite (element_Int _ Hi). apply array_set_append. lia.
Qed.

(** As long as the last question is not reached, each turn stores one more
    answer and moves the page to the next question. *)
Lemma play_before_last turns : forall st db r,
  interview_sessions db !! sid = Some r ->
  Session.user_id r = userId ->
  Client.session_id st = sid ->
  Client.step st = 2 ->
  Client.currentQuestion st = Z.of_nat (length (answers_of r)) ->
  (length (answers_of r) + length turns < length (questions_of r))%nat ->
  Z.of_nat (length (questions_of r)) < 2 ^ 32 ->
  Z.of_nat (length (questions_of r)) <= capacity ->
  Pg.text_array (answers_of r) = true ->
  Pg.text_array (stored_answers turns) = true ->
  answered turns ->
  exists db' r',
    play capacity st db userId turns
    = (Client.mk sid (Client.currentQuestion st + Z.of_nat (length turns))
                 (Client.answers st ++ map Client.typed turns) 2
                 (Client.feedback st) (Client.score st), db')
    /\ interview_sessions db' !! sid = Some r'
    /\ answers_of r' = answers_of r ++ stored_answers turns
    /\ only_answers_differ r r'.
Proof.
  induction turns as [|t turns IH];
    intros st db r Hf Ho Hsid Hstep Hcq Hlen Hbig Hcap Ha Hts Hans.
  - exists db, r. cbn [play length map stored_answers]. rewrite Z.add_0_r, !app_nil_r.
    split; [|split; [exact Hf|split; [reflexivity|apply only_answers_differ_refl]]].
    destruct st; cbn in *; subst; reflexivity.
  - apply Forall_cons in Hans as [Hblank Hans]. cbn [length] in Hlen.
    cbn [stored_answers map] in Hts. fold (stored_answers turns) in Hts.
    change (Pg.nullable_text (Some (JS.trim (Client.typed t)))
            && Pg.text_array (stored_answers turns) = true) in Hts.
    apply andb_true_iff in Hts as [Ht Hts]. cbn [Pg.nullable_text] in Ht.
    destruct st as [sid0 cq ans stp fb sc].
    cbn [Client.session_id Client.step Client.currentQuestion Client.answers
         Client.feedback Client.score] in *.
    subst sid0 stp cq.
    destruct (page_request db r (Client.typed t)) as (Hfinds & Hw & Hset);
      try assumption; [lia|].
    assert (H53 : 2 ^ 32 < 2 ^ 53) by (apply Z.pow_lt_mono_r; lia).
    assert (Hlow : JS.at_least (JS.Int (Z.of_nat (length (answers_of r))))
                     (Z.of_nat (length (questions_of r)) - 1) = false).
    { rewrite at_least_Int by lia. apply Z.leb_gt. lia. }
    pose proof (postAnswer_recorded capacity db userId _ (Client.feedback_reply t)
                  (Client.score_reply t) (Client.clock t) sid r Hfinds Hw Hlow) as Hpost.
    cbn [Answer.session_id Answer.question_index Answer.answer] in Hpost, Hset.
    rewrite Hset in Hpost.
    cbn [play Client.step]. change (2 =? 2) with true. cbn iota.
    unfold submitAnswer.
    cbn [Client.session_id Client.step Client.currentQuestion Client.answers
         Client.feedback Client.score].
    rewrite Hblank, Hpost.
    set (r1 := Session.set_answers_given
                 (answers_of r ++ [Some (JS.trim (Client.typed t))]) r).
    set (db1 := update_session
                  (Session.set_answers_given
                     (answers_of r ++ [Some (JS.trim (Client.typed t))])) sid db).
    assert (Hf1 : interview_sessions db1 !! sid = Some r1).
    { subst db1 r1. rewrite lookup_update_session, Hf. reflexivity. }
    assert (Ha1 : answers_of r1 = answers_of r ++ [Some (JS.trim (Client.typed t))]).
    { reflexivity. }
    assert (Hlen1 : length (answers_of r1) = S (length (answers_of r))).
    { rewrite Ha1, length_app. cbn. lia. }
    destruct (IH (Client.mk sid (Z.of_nat (length (answers_of r)) + 1)
                    (ans ++ [Client.typed t]) 2 fb sc) db1 r1)
      as (db' & r' & Hplay & Hl' & Ha' & Hd'); try assumption; try reflexivity.
    { cbn [Client.currentQuestion]. rewrite Hlen1. lia. }
    { rewrite Hlen1. change (questions_of r1) with (questions_of r). lia. }
    { rewrite Ha1, text_array_app, Ha. cbn. rewrite Ht. reflexivity. }
    exists db', r'. rewrite Hplay.
    cbn [Client.currentQuestion Client.answers Client.feedback Client.score length map].
    split; [|split; [exact Hl'|split]].
    + f_equal. f_equal; [lia|]. rewrite <- app_assoc. reflexivity.
    + rewrite Ha', Ha1. cbn [stored_answers map]. rewrite <- app_assoc. reflexivity.
    + eapply only_answers_differ_trans; [|exact Hd']. subst r1. repeat split.
Qed.

End Interview.

(** X22. A user who answers the questions of a new session one after the
    other on the interview page, never leaving an answer blank nor typing
    U+0000, and stops before the last question, leaves the session as it
    was but for its answers: they are the trimmed answers, in order; the
    session is not completed; the page shows the question after the last
    one answered.  (The id of the session is an [INTEGER], and the process
    can write down an array as long as the questions.) *)
Theorem interview_in_progress
    (capacity : Z) (db : database) (userId sid : Z) (r : Session.t)
    (turns : list Client.turn) :
  Pg.in_integer sid = true ->
  interview_sessions db !! sid = Some r ->
  Session.user_id r = userId ->
  answers_of r = [] ->
  (length turns < length (questions_of r))%nat ->
  Z.of_nat (length (questions_of r)) < 2 ^ 32 ->
  Z.of_nat (length (questions_of r)) <= capacity ->
  Pg.text_array (stored_answers turns) = true ->
  answered turns ->
  exists st' db' r',
    play capacity (at_first_question sid) db userId turns = (st', db')
    /\ Client.step st' = 2
    /\ Client.currentQuestion st' = Z.of_nat (length turns)
    /\ Client.answers st' = map Client.typed turns
    /\ interview_sessions db' !! sid = Some r'
    /\ answers_of r' = stored_answers turns
    /\ only_answers_differ r r'.
Proof.
  intros Hkey Hf Ho Hnone Hlen Hbig Hcap Hts Hans.
  destruct (play_before_last capacity userId sid Hkey turns (at_first_question sid) db r)
    as (db' & r' & Hplay & Hl' & Ha' & Hd'); try assumption; try reflexivity.
  { cbn. rewrite Hnone. reflexivity. }
  { rewrite Hnone. cbn. lia. }
  { rewrite Hnone. reflexivity. }
  eexists _, db', r'. split; [exact Hplay|].
  rewrite Hnone in Ha'. repeat split; try assumption; apply Hd'.
Qed.

(** X22 at two answers to a session with three questions. *)
Lemma interview_in_progress_witness :
  exists st' db' r',
    play 1000 (at_first_question 1) fresh_db 7 (take 2 three_turns) = (st', db')
    /\ Client.step st' = 2
    /\ Client.currentQuestion st' = Z.of_nat (length (take 2 three_turns))
    /\ Client.answers st' = map Client.typed (take 2 three_turns)
    /\ interview_sessions db' !! 1 = Some r'
    /\ answers_of r' = stored_answers (take 2 three_turns)
    /\ only_answers_differ fresh_row r'.
Proof.
  apply (interview_in_progress 1000 fresh_db 7 1 fresh_row (take 2 three_turns));
    [reflexivity | reflexivity | reflexivity | reflexivity | vm_compute; lia
    | vm_compute; reflexivity | vm_compute; discriminate | reflexivity
    | repeat constructor].
Defined.

(** X23. A user who answers every question of a new session one after the
    other on the interview page, never leaving an answer blank nor typing
    U+0000, ends on the results page exactly at the last answer, when the
    feedback of that answer is one the database takes: the session is
    completed at the time of that answer, every question has its trimmed
    answer, in order, and the score and the feedback the page shows are the
    ones stored; the score lies in [1,100].  (The id of the session is an
    [INTEGER], and the process can write down an array as long as the
    questions.) *)
Theorem interview_in_order_completes
    (capacity : Z) (db : database) (userId sid : Z) (r : Session.t)
    (turns : list Client.turn) :
  Pg.in_integer sid = true ->
  interview_sessions db !! sid = Some r ->
  Session.user_id r = userId ->
  answers_of r = [] ->
  turns <> [] ->
  length turns = length (questions_of r) ->
  Z.of_nat (length (questions_of r)) < 2 ^ 32 ->
  Z.of_nat (length (questions_of r)) <= capacity ->
  Pg.text_array (stored_answers turns) = true ->
  Forall (fun t => reportable (Client.feedback_reply t)) (drop (length turns - 1) turns) ->
  answered turns ->
  exists st' db' r' before last score,
    play capacity (at_first_question sid) db userId turns = (st', db')
    /\ turns = before ++ [last]
    /\ Client.step st' = 3
    /\ Client.answers st' = map Client.typed turns
    /\ Client.score st' = Some score
    /\ Client.feedback st' = Some (generateInterviewFeedback (Client.feedback_reply last))
    /\ interview_sessions db' !! sid = Some r'
    /\ Session.answers_given r' = Some (stored_answers turns)
    /\ length (stored_answers turns) = length (questions_of r)
    /\ Session.score r' = Some score
    /\ 1 <= score <= 100
    /\ Session.feedback r' = generateInterviewFeedback (Client.feedback_reply last)
    /\ Session.completed_at r' = Some (Client.clock last)
    /\ same_inputs r r'.
Proof.
  intros Hkey Hf Ho Hnone Hne Hlen Hbig Hcap Hts Hrep Hans.
  destruct (exists_last Hne) as (before & last & ->).
  rewrite length_app in Hlen, Hrep. cbn [length] in Hlen, Hrep.
  replace (length before + 1 - 1)%nat with (length before) in Hrep by lia.
  rewrite drop_app_length in Hrep. apply Forall_cons in Hrep as [Hrep _].
  unfold answered in Hans. apply Forall_app in Hans as [Hbefore Hlast].
  apply Forall_cons in Hlast as [Hlast _].
  unfold stored_answers in Hts. rewrite map_app in Hts.
  fold (stored_answers before) in Hts. rewrite text_array_app in Hts.
  apply andb_true_iff in Hts as [Htb Htl]. cbn in Htl.
  assert (Htext : Pg.text (JS.trim (Client.typed last)) = true).
  { destruct (Pg.text (JS.trim (Client.typed last))); [reflexivity|discriminate]. }
  destruct (play_before_last capacity userId sid Hkey before (at_first_question sid) db r)
    as (db1 & r1 & Hplay & Hl1 & Ha1 & Hd1); try assumption; try reflexivity.
  { cbn. rewrite Hnone. reflexivity. }
  { rewrite Hnone. cbn. lia. }
  { rewrite Hnone. reflexivity. }
  rewrite Hnone in Ha1. cbn [app] in Ha1.
  assert (Hq1 : questions_of r1 = questions_of r).
  { unfold questions_of. destruct Hd1 as ((_&_&_&_&_&_&_&_&Hq&_)&_). rewrite Hq. reflexivity. }
  assert (Ho1 : Session.user_id r1 = userId).
  { destruct Hd1 as ((_&Hu&_)&_). congruence. }
  assert (Hlen1 : length (answers_of r1) = length before).
  { rewrite Ha1. unfold stored_answers. apply length_map. }
  destruct (page_request capacity userId sid Hkey db1 r1 (Client.typed last))
    as (Hfinds & Hw & Hset); try assumption;
    [rewrite Hq1, Hlen1; lia | rewrite Hq1; lia | rewrite Hq1; lia
    | rewrite Ha1; exact Htb |].
  assert (H53 : 2 ^ 32 < 2 ^ 53) by (apply Z.pow_lt_mono_r; lia).
  assert (Hge : JS.at_least (JS.Int (Z.of_nat (length (answers_of r1))))
                  (Z.of_nat (length (questions_of r1)) - 1) = true).
  { rewrite at_least_Int by lia. apply Z.leb_le. rewrite Hq1, Hlen1. lia. }
  destruct (postAnswer_completed capacity db1 userId _ (Client.feedback_reply last)
              (Client.score_reply last) (Client.clock last) sid r1 Hfinds Hw Hge Hrep)
    as (score & _ & Hrange & Hpost).
  cbn [Answer.session_id Answer.question_index Answer.answer] in Hpost, Hset.
  rewrite Hset, Hlen1 in Hpost.
  rewrite play_app, Hplay. cbn [fst snd play Client.step].
  change (2 =? 2) with true. cbn iota. unfold submitAnswer.
  cbn [Client.session_id Client.step Client.currentQuestion Client.answers
       Client.feedback Client.score at_first_question].
  rewrite Hlast. rewrite Z.add_0_l, Hpost.
  eexists _, _, _, before, last, score.
  split; [reflexivity|]. split; [reflexivity|]. split; [reflexivity|].
  split; [cbn [Client.answers app]; rewrite map_app; reflexivity|].
  split; [reflexivity|]. split; [reflexivity|].
  split; [rewrite !lookup_update_session, Hl1; reflexivity|].
  cbn [Session.set_completion Session.set_answers_given Session.answers_given
       Session.score Session.feedback Session.completed_at].
  split; [rewrite Ha1; unfold stored_answers; rewrite map_app; reflexivity|].
  split; [unfold stored_answers; rewrite length_map, length_app; cbn [length]; lia|].
  split; [reflexivity|]. split; [exact Hrange|]. split; [reflexivity|].
  split; [reflexivity|].
  destruct Hd1 as (Hs&_). unfold same_inputs in *. cbn. exact Hs.
Qed.

(** X23 at three answers to a session with three questions. *)
Lemma interview_in_order_completes_witness :
  exists st' db' r' before last score,
    play 1000 (at_first_question 1) fresh_db 7 three_turns = (st', db')
    /\ three_turns = before ++ [last]
    /\ Client.step st' = 3
    /\ Client.answers st' = map Client.typed three_turns
    /\ Client.score st' = Some score
    /\ Client.feedback st' = Some (generateInterviewFeedback (Client.feedback_reply last))
    /\ interview_sessions db' !! 1 = Some r'
    /\ Session.answers_given r' = Some (stored_answers three_turns)
    /\ length (stored_answers three_turns) = length (questions_of fresh_row)
    /\ Session.score r' = Some score
    /\ 1 <= score <= 100
    /\ Session.feedback r' = generateInterviewFeedback (Client.feedback_reply last)
    /\ Session.completed_at r' = Some (Client.clock last)
    /\ same_inputs fresh_row r'.
Proof.
  apply (interview_in_order_completes 1000 fresh_db 7 1 fresh_row three_turns);
    [reflexivity | reflexivity | reflexivity | reflexivity | discriminate | reflexivity
    | vm_compute; reflexivity | vm_compute; discriminate | reflexivity
    | repeat constructor | repeat constructor].
Defined.
(** X24. A response that opens with the Markdown fence of a JSON block is
    not JSON: the questions are read from its lines, and the first of them
    is the fence itself. *)
Theorem fenced_reply_is_read_as_lines (items : list JSON.value) (rest : string) :
  JSON.parse (json_fence +:+ String JS.LF rest) = None
  /\ generateInterviewQuestions (JSON.Array items)
       (CandidateText (json_fence +:+ String JS.LF rest))
     = JSON.strings (json_fence :: nonblank_lines rest).
Proof.
  assert (H : JSON.parse (json_fence +:+ String JS.LF rest) = None) by reflexivity.
  split; [exact H|].
  rewrite (questions_from_lines _ _ H). unfold nonblank_lines, json_fence.
  repeat rewrite append_cons. rewrite append_empty.
  cbn [JS.split_lines].
  pose proof (split_lines_not_nil rest) as Hne.
  destruct (JS.split_lines rest) as [|piece more]; [contradiction|].
  reflexivity.
Qed.


(** ** The name of a stored resume *)

Section Filename.

Lemma list_ascii_of_append s t :
  list_ascii_of_string (s +:+ t) = list_ascii_of_string s ++ list_ascii_of_string t.
Proof.
  induction s as [|c s IH]; [reflexivity|].
  rewrite append_cons. cbn [list_ascii_of_string app]. rewrite IH. reflexivity.
Qed.

Lemma span_rev_all stop l :
  Forall (fun c => stop c = false) l -> JS.span_rev stop l = (l, []).
Proof.
  induction l as [|c l IH]; intros H; [reflexivity|].
  apply Forall_cons in H as [Hc H]. cbn [JS.span_rev]. rewrite Hc, (IH H). reflexivity.
Qed.

Lemma span_rev_stop stop a c b :
  Forall (fun x => stop x = false) a -> stop c = true ->
  JS.span_rev stop (a ++ c :: b) = (a, c :: b).
Proof.
  induction a as [|x a IH]; intros H Hc; cbn [app JS.span_rev].
  - rewrite Hc. reflexivity.
  - apply Forall_cons in H as [Hx H]. rewrite Hx, (IH H Hc). reflexivity.
Qed.

Lemma span_rev_spec stop l a b :
  JS.span_rev stop l = (a, b) ->
  l = a ++ b /\ Forall (fun x => stop x = false) a.
Proof.
  revert a b. induction l as [|c l IH]; intros a b; cbn [JS.span_rev].
  - intros [= <- <-]. split; [reflexivity|constructor].
  - destruct (stop c) eqn:Hc.
    + intros [= <- <-]. split; [reflexivity|constructor].
    + destruct (JS.span_rev stop l) as [a' b'] eqn:E. intros [= <- <-].
      destruct (IH _ _ eq_refl) as [-> Ha]. split; [reflexivity|].
      constructor; assumption.
Qed.

Lemma drop_slashes_head c l :
  JS.is_slash c = false -> JS.drop_slashes (c :: l) = c :: l.
Proof. intros H. cbn [JS.drop_slashes]. rewrite H. reflexivity. Qed.

(** What [path.extname] returns is empty, or a dot followed by characters
    that are neither dots nor slashes. *)
Lemma extname_shape path :
  JS.extname path = EmptyString
  \/ exists e, JS.extname path = String (ascii_of_N 46) e /\ one_word e.
Proof.
  unfold JS.extname.
  destruct (JS.span_rev JS.is_slash (JS.drop_slashes (rev (list_ascii_of_string path))))
    as [base rest] eqn:Hbase.
  apply span_rev_spec in Hbase as [_ Hnoslash].
  destruct (JS.span_rev JS.is_dot base) as [after tail] eqn:Hdot.
  apply span_rev_spec in Hdot as [-> Hnodot].
  apply Forall_app in Hnoslash as [Hnoslash _].
  assert (Hword : one_word (string_of_list_ascii (rev after))).
  { unfold one_word. rewrite list_ascii_of_string_of_list_ascii.
    apply Forall_rev. apply List.Forall_forall. intros x Hx.
    rewrite List.Forall_forall in Hnodot, Hnoslash. auto. }
  destruct after as [|x after], tail as [|d1 [|d2 [|d3 tail]]];
    try (left; reflexivity);
    try (right; eexists; split; [reflexivity|first [exact Hword|constructor]]).
  destruct (JS.is_dot d2); [left; reflexivity|].
  right. exists EmptyString. split; [reflexivity|constructor].
Qed.

Lemma extname_of_word stem :
  one_word stem -> JS.extname stem = EmptyString.
Proof.
  unfold one_word. intros H.
  assert (Hr : Forall (fun c => JS.is_dot c = false /\ JS.is_slash c = false)
                      (rev (list_ascii_of_string stem))) by (apply Forall_rev; exact H).
  unfold JS.extname.
  assert (Hd : JS.drop_slashes (rev (list_ascii_of_string stem))
               = rev (list_ascii_of_string stem)).
  { destruct (rev (list_ascii_of_string stem)) as [|c l]; [reflexivity|].
    apply Forall_cons in Hr as [[_ Hc] _]. apply drop_slashes_head. exact Hc. }
  rewrite Hd.
  rewrite (span_rev_all JS.is_slash) by (eapply Forall_impl; [exact Hr|cbn; tauto]).
  rewrite (span_rev_all JS.is_dot) by (eapply Forall_impl; [exact Hr|cbn; tauto]).
  destruct (rev (list_ascii_of_string stem)); reflexivity.
Qed.

Lemma extname_of_word_ext stem e :
  stem <> EmptyString -> one_word stem -> one_word e ->
  JS.extname (stem +:+ String (ascii_of_N 46) e) = String (ascii_of_N 46) e.
Proof.
  unfold one_word. intros Hne Hs He.
  unfold JS.extname. rewrite list_ascii_of_append. cbn [list_ascii_of_string].
  rewrite rev_app_distr. cbn [rev]. rewrite <- app_assoc. cbn [app].
  set (re := rev (list_ascii_of_string e)).
  set (rs := rev (list_ascii_of_string stem)).
  assert (Hre : Forall (fun c => JS.is_dot c = false /\ JS.is_slash c = false) re)
    by (apply Forall_rev; exact He).
  assert (Hrs : Forall (fun c => JS.is_dot c = false /\ JS.is_slash c = false) rs)
    by (apply Forall_rev; exact Hs).
  assert (Hrs0 : exists c l, rs = c :: l).
  { subst rs. destruct stem as [|c s]; [contradiction|]. cbn [list_ascii_of_string rev].
    destruct (rev (list_ascii_of_string s)); cbn; eauto. }
  destruct Hrs0 as (c0 & l0 & Hrs0).
  assert (Hall : Forall (fun c => JS.is_slash c = false) (re ++ ascii_of_N 46 :: rs)).
  { apply Forall_app. split; [eapply Forall_impl; [exact Hre|cbn; tauto]|].
    constructor; [reflexivity|eapply Forall_impl; [exact Hrs|cbn; tauto]]. }
  assert (Hd : JS.drop_slashes (re ++ ascii_of_N 46 :: rs) = re ++ ascii_of_N 46 :: rs).
  { destruct re as [|c l]; cbn [app]; [reflexivity|].
    apply Forall_cons in Hre as [[_ Hc] _]. apply drop_slashes_head. exact Hc. }
  rewrite Hd, (span_rev_all JS.is_slash _ Hall).
  rewrite (span_rev_stop JS.is_dot re (ascii_of_N 46) rs);
    [|eapply Forall_impl; [exact Hre|cbn; tauto]|reflexivity].
  rewrite Hrs0 in *. apply Forall_cons in Hrs as [[Hc0 _] _].
  assert (Hback : string_of_list_ascii (rev re) = e).
  { subst re. rewrite rev_involutive. apply string_of_list_ascii_of_string. }
  destruct re as [|x re'].
  - cbn [rev] in Hback. cbn in Hback. subst e.
    destruct l0; [rewrite Hc0|]; reflexivity.
  - rewrite <- Hback. destruct l0; reflexivity.
Qed.

Lemma uint_is_one_word d : one_word (NilEmpty.string_of_uint d).
Proof.
  unfold one_word. induction d; cbn [NilEmpty.string_of_uint list_ascii_of_string];
    constructor; try exact IHd; split; reflexivity.
Qed.

Lemma decimal_is_one_word n : one_word (decimal n) /\ decimal n <> EmptyString.
Proof.
  unfold decimal, NilZero.string_of_int, NilZero.string_of_uint.
  destruct (Z.to_int n) as [d|d].
  - destruct d; (split; [|discriminate]);
      first [ apply (uint_is_one_word (Decimal.D0 _)) | apply (uint_is_one_word (Decimal.D1 _))
            | apply (uint_is_one_word (Decimal.D2 _)) | apply (uint_is_one_word (Decimal.D3 _))
            | apply (uint_is_one_word (Decimal.D4 _)) | apply (uint_is_one_word (Decimal.D5 _))
            | apply (uint_is_one_word (Decimal.D6 _)) | apply (uint_is_one_word (Decimal.D7 _))
            | apply (uint_is_one_word (Decimal.D8 _)) | apply (uint_is_one_word (Decimal.D9 _))
            | (unfold one_word; repeat constructor) ].
  - split; [|discriminate]. unfold one_word. cbn [list_ascii_of_string].
    constructor; [split; reflexivity|].
    destruct d; first [ apply (uint_is_one_word (Decimal.D0 _)) | apply (uint_is_one_word (Decimal.D1 _))
            | apply (uint_is_one_word (Decimal.D2 _)) | apply (uint_is_one_word (Decimal.D3 _))
            | apply (uint_is_one_word (Decimal.D4 _)) | apply (uint_is_one_word (Decimal.D5 _))
            | apply (uint_is_one_word (Decimal.D6 _)) | apply (uint_is_one_word (Decimal.D7 _))
            | apply (uint_is_one_word (Decimal.D8 _)) | apply (uint_is_one_word (Decimal.D9 _))
            | (repeat constructor) ].
Qed.

Lemma one_word_append s t : one_word s -> one_word t -> one_word (s +:+ t).
Proof.
  unfold one_word. intros Hs Ht. rewrite list_ascii_of_append. apply Forall_app. auto.
Qed.

End Filename.

Section FilenameStem.

Variables (userId now random : Z).

Lemma stem_is_word :
  one_word ("resume-" +:+ decimal userId +:+ "-" +:+ (decimal now +:+ "-" +:+ decimal random))
  /\ "resume-" +:+ decimal userId +:+ "-" +:+ (decimal now +:+ "-" +:+ decimal random)
     <> EmptyString.
Proof.
  split; [|discriminate].
  repeat apply one_word_append; try apply decimal_is_one_word;
    unfold one_word; repeat constructor.
Qed.

Lemma append_assoc_4 a b c d e :
  a +:+ b +:+ c +:+ d +:+ e = (a +:+ b +:+ c +:+ d) +:+ e.
Proof.
  induction a as [|x a IH]; [|rewrite !append_cons, IH; reflexivity].
  rewrite !append_empty.
  induction b as [|x b IH]; [|rewrite !append_cons, IH; reflexivity].
  rewrite !append_empty.
  induction c as [|x c IH]; [|rewrite !append_cons, IH; reflexivity].
  rewrite !append_empty. reflexivity.
Qed.

Lemma append_empty_r s : s +:+ EmptyString = s.
Proof. induction s as [|c s IH]; [reflexivity|]. rewrite append_cons, IH. reflexivity. Qed.

End FilenameStem.

(** X25. The name under which an uploaded resume is stored has the
    extension of the name it was uploaded with, for every user id, time and
    random number; so the upload filter would accept the stored name exactly
    when it accepted the original one. *)
Theorem stored_name_keeps_the_extension (userId now random : Z) (originalname : string) :
  JS.extname (storage_filename userId now random originalname) = JS.extname originalname
  /\ fileFilter (storage_filename userId now random originalname) = fileFilter originalname.
Proof.
  assert (H : JS.extname (storage_filename userId now random originalname)
              = JS.extname originalname).
  { unfold storage_filename. rewrite append_assoc_4.
    destruct (stem_is_word userId now random) as [Hw Hne].
    destruct (extname_shape originalname) as [->|(e & -> & He)].
    - rewrite append_empty_r. apply extname_of_word. exact Hw.
    - apply extname_of_word_ext; assumption. }
  split; [exact H|]. unfold fileFilter. rewrite H. reflexivity.
Qed.

Example storage_filename_ex :
  storage_filename 7 1700000000000 42 "Resume.DOC" = "resume-7-1700000000000-42.DOC".
Proof. reflexivity. Qed.

(** ** The history and the sessions it lists *)

Section HistoryAndSessions.

Lemma summary_agrees_with_view r : agree (summary r) (view r).
Proof.
  unfold agree, summary, view. cbn.
  repeat split. destruct (Session.completed_at r); reflexivity.
Qed.

Lemma busy_db_well_keyed : well_keyed busy_db.
Proof.
  intros id r H. unfold busy_db in *. cbn [interview_sessions next_id] in *.
  repeat (apply lookup_insert_Some in H as [[<- <-]|[_ H]];
          [split; [reflexivity|split; [lia|reflexivity]]|]).
  apply lookup_singleton_Some in H as [<- <-].
  split; [reflexivity|split; [lia|reflexivity]].
Qed.

End HistoryAndSessions.

(** X26. In a well-keyed table, every session that [GET /history] lists
    for a user can be fetched by that user with [GET /session/:id] under
    the id listed, written in decimal, and the two responses agree on the
    id, the job description, the difficulty, the role, the score, the times
    and the completion flag. *)
Theorem listed_sessions_can_be_fetched
    (db : database) (userId : Z) (page limit : option Z)
    (sessions : list Summary.t) (p l total : Z) (pages : option Z) (s : Summary.t) :
  well_keyed db ->
  getHistory db userId page limit = History sessions p l total pages ->
  In s sessions ->
  exists v, getSession db userId (decimal (Summary.id s)) = Found v /\ agree s v.
Proof.
  intros Hwk H Hs.
  destruct (history_own _ _ _ _ _ _ _ _ _ _ H Hs) as (id & r & Hr & Hu & ->).
  destruct (Hwk _ _ Hr) as (Hid & _ & Hin).
  exists (view r). split; [|apply summary_agrees_with_view].
  cbn [summary Summary.id]. rewrite Hid.
  apply getSession_decimal; assumption.
Qed.

(** X26 at the completed session of user 7. *)
Lemma listed_sessions_can_be_fetched_witness :
  exists v,
    getSession busy_db 7
      (decimal
         (Summary.id (summary (Session.mk 4 7 "" "" "Site reliability role" (Some [])
                                 "intermediate" None (Some "Solid answers.") (Some 80)
                                 (Some three_questions)
                                 (Some [Some "a0"; Some "a1"; Some "a2"]) 1700 (Some 2000)))))
    = Found v
    /\ agree (summary (Session.mk 4 7 "" "" "Site reliability role" (Some [])
                         "intermediate" None (Some "Solid answers.") (Some 80)
                         (Some three_questions)
                         (Some [Some "a0"; Some "a1"; Some "a2"]) 1700 (Some 2000))) v.
Proof.
  eapply (listed_sessions_can_be_fetched busy_db 7 None None);
    [exact busy_db_well_keyed | vm_compute; reflexivity | left; reflexivity].
Defined.

(** X27. In a well-keyed table, a session that [POST /start] has just
    created is listed in the history of its owner (on the first page, when
    the limit is at least the total and below [2^63]; the response gives
    the limit as a double), as not completed and created at the time of the
    request; it is on no page of the history of anyone else. *)
Theorem started_session_is_listed
    (encode : encoder) (db : database) (userId : Z) (file : option Start.file)
    (body : Start.body) (library : option string) (reply : ai_reply) (now : Z)
    (sid : Z) (qs : JSON.value) (db' : database) (limit : Z) :
  well_keyed db ->
  postStart encode db userId file body library reply now = (Started sid qs, db') ->
  Z.of_nat (length (sessions_of db' userId)) <= limit < 2 ^ 63 ->
  (exists sessions total pages s,
     getHistory db' userId (Some 1) (Some limit)
     = History sessions 1 (JS.double limit) total pages
     /\ In s sessions
     /\ Summary.id s = sid
     /\ Summary.is_completed s = false
     /\ Summary.created_at s = now)
  /\ forall other page limit' sessions p l total pages s,
       other <> userId ->
       getHistory db' other page limit' = History sessions p l total pages ->
       In s sessions ->
       Summary.id s <> sid.
Proof.
  intros Hwk Hstart Hlimit.
  pose proof (postStart_well_keyed encode db userId file body library reply now Hwk)
    as Hwk'.
  rewrite Hstart in Hwk'. cbn [snd] in Hwk'.
  destruct (postStart_Started_row _ _ _ _ _ _ _ _ _ _ _ Hstart)
    as (_ & _ & _ & _ & url & text & focus & role & stored & _ & Hl).
  set (r := Session.mk sid userId url text (JS.trim (Start.jd_text body)) focus
              (default "intermediate" (Start.difficulty body))
              role None None stored None now None) in *.
  assert (Hu : Session.user_id r = userId) by reflexivity.
  assert (Hact : Session.completed_at r = None) by reflexivity.
  assert (Hnow : Session.created_at r = now) by reflexivity.
  assert (Hid : Session.id r = sid) by reflexivity.
  clearbody r.
  split.
  - unfold getHistory. cbn [default from_option id].
    change (JS.double 1) with 1. change (1 - 1) with 0. change (JS.double 0) with 0.
    rewrite Z.mul_0_l. change (JS.double 0) with 0.
    change (JS.finite 1) with true. change (Pg.in_bigint 0) with true.
    assert (Hb : Pg.in_bigint limit = true).
    { unfold Pg.in_bigint. apply andb_true_iff.
      split; [apply Z.leb_le|apply Z.ltb_lt]; lia. }
    rewrite Hb. destruct (Z.ltb_spec limit 0); [lia|].
    cbn [negb orb Z.ltb Z.compare Z.to_nat drop].
    eexists _, _, _, (summary r). split; [reflexivity|].
    split.
    + apply in_map. change (Z.to_nat 0) with O.
      rewrite drop_0, take_ge by lia.
      apply sessions_of_In. split; [exact Hu|eauto].
    + unfold summary. cbn [Summary.id Summary.is_completed Summary.created_at].
      rewrite Hact. auto.
  - intros other page limit' sessions p l total pages s Hne H Hs Heq.
    destruct (history_own _ _ _ _ _ _ _ _ _ _ H Hs) as (id' & r' & Hr' & Hu' & ->).
    destruct (Hwk' _ _ Hr') as [Hid' _].
    cbn [summary Summary.id] in Heq. rewrite Hid' in Heq. subst id'.
    rewrite Hl in Hr'. injection Hr' as <-. congruence.
Qed.

(** X27 at a start in the table of four sessions. *)
Lemma started_session_is_listed_witness :
  (exists sessions total pages s,
     getHistory (snd (postStart strict_encoder busy_db 7 None backend_role None
                                CallFailed 5000))
                7 (Some 1) (Some 10) = History sessions 1 (JS.double 10) total pages
     /\ In s sessions
     /\ Summary.id s = 5
     /\ Summary.is_completed s = false
     /\ Summary.created_at s = 5000)
  /\ forall other page limit' sessions p l total pages s,
       other <> 7 ->
       getHistory (snd (postStart strict_encoder busy_db 7 None backend_role None
                                  CallFailed 5000))
                  other page limit' = History sessions p l total pages ->
       In s sessions ->
       Summary.id s <> 5.
Proof.
  apply (started_session_is_listed strict_encoder busy_db 7 None backend_role None
           CallFailed 5000 5 (JSON.strings fallback_questions));
    [exact busy_db_well_keyed | vm_compute; reflexivity
    | split; [vm_compute; discriminate | reflexivity]].
Defined.
